(** * TexasHistoricalMarkerCSVtoJSON.py: a shallow embedding

    The script reads a CSV extract of Texas historical markers with
    [csv.DictReader], builds one dictionary per row, and dumps the list of
    dictionaries twice: pretty-printed JSON and compact JSON through a gzip
    text stream.

    Python values are embedded as follows.
    - [str] is a sequence of Unicode code points: [list N].
    - [float] is an IEEE binary64 value: [spec_float] of the Standard Library.
    - A [dict] built by a literal keeps its insertion order: an association
      list.  The rows made by [csv.DictReader] are only ever looked up by
      key: a [gmap].
    - Exceptions are the left summand of a small error monad.
    - The file system and the standard output are threaded explicitly. *)

From Stdlib Require Import ZArith NArith List Ascii String Lia.
From Stdlib Require Import Floats.SpecFloat.
From Stdlib Require Import DecimalFacts DecimalPos DecimalN.
From stdpp Require Import gmap strings list.

Set Warnings "-register-all".
Local Open Scope N_scope.

(** ** Text *)

Module Text.

(** A Python [str]. *)
Abbreviation str := (list N).

(** An ASCII literal of the source, as a [str]. *)
Definition py (s : string) : str :=
  map N_of_ascii (list_ascii_of_string s).

(** [str.isspace] on one code point: CPython's [Py_UNICODE_ISSPACE]
    (characters of bidirectional type WS, B or S, or of category Zs). *)
Definition isspace (c : N) : bool :=
  ((9 <=? c) && (c <=? 13)) || ((28 <=? c) && (c <=? 32))
  || (c =? 133) || (c =? 160) || (c =? 5760)
  || ((8192 <=? c) && (c <=? 8202))
  || (c =? 8232) || (c =? 8233) || (c =? 8239) || (c =? 8287)
  || (c =? 12288).

Fixpoint lstrip (s : str) : str :=
  match s with
  | c :: s' => if isspace c then lstrip s' else s
  | [] => []
  end.

Definition rstrip (s : str) : str := rev (lstrip (rev s)).

(** [s.strip()] with no argument. *)
Definition strip (s : str) : str := rstrip (lstrip s).

(** A code point that a UTF-8 text stream can encode: a Unicode scalar
    value (surrogates cannot be encoded). *)
Definition is_scalar (c : N) : bool :=
  (c <? 55296) || ((57343 <? c) && (c <? 1114112)).

Definition encodable (s : str) : bool := forallb is_scalar s.

(** Decimal digits of a natural number ([int.__repr__] on [n >= 0]). *)
Fixpoint uint_chars (d : Decimal.uint) : str :=
  match d with
  | Decimal.Nil => []
  | Decimal.D0 d => 48 :: uint_chars d
  | Decimal.D1 d => 49 :: uint_chars d
  | Decimal.D2 d => 50 :: uint_chars d
  | Decimal.D3 d => 51 :: uint_chars d
  | Decimal.D4 d => 52 :: uint_chars d
  | Decimal.D5 d => 53 :: uint_chars d
  | Decimal.D6 d => 54 :: uint_chars d
  | Decimal.D7 d => 55 :: uint_chars d
  | Decimal.D8 d => 56 :: uint_chars d
  | Decimal.D9 d => 57 :: uint_chars d
  end.

Definition decimal (n : N) : str := uint_chars (N.to_uint n).

Definition is_digit (c : N) : bool := (48 <=? c) && (c <=? 57).

(** The longest prefix of digits, and what follows. *)
Fixpoint span_digits (s : str) : str * str :=
  match s with
  | c :: r =>
      if is_digit c then let (ds, rest) := span_digits r in (c :: ds, rest)
      else ([], s)
  | [] => ([], [])
  end.

(** The numeral that a sequence of digits spells (a character that is not
    a digit reads as [0]). *)
Fixpoint chars_uint (ds : str) : Decimal.uint :=
  match ds with
  | [] => Decimal.Nil
  | c :: r =>
      let d := chars_uint r in
      if c =? 49 then Decimal.D1 d else if c =? 50 then Decimal.D2 d
      else if c =? 51 then Decimal.D3 d else if c =? 52 then Decimal.D4 d
      else if c =? 53 then Decimal.D5 d else if c =? 54 then Decimal.D6 d
      else if c =? 55 then Decimal.D7 d else if c =? 56 then Decimal.D8 d
      else if c =? 57 then Decimal.D9 d else Decimal.D0 d
  end.

(** The value of a sequence of digits, read in base ten. *)
Definition digits_value (ds : str) : N := N.of_uint (chars_uint ds).

(** [int.__repr__]. *)
Definition int_repr (z : Z) : str :=
  match z with
  | Zneg p => 45 :: decimal (Npos p)
  | _ => decimal (Z.to_N z)
  end.

(** [int(s)] on an optional minus sign and digits. *)
Definition int_of_chars (s : str) : Z :=
  match s with
  | 45 :: ds => (- Z.of_N (digits_value ds))%Z
  | _ => Z.of_N (digits_value s)
  end.

End Text.
Import Text.

(** ** Exceptions and the error monad *)

Inductive exn :=
| FileNotFoundError
| UnicodeDecodeError
| ReaderError          (* raised by the row iterator: [csv.Error] and the like *)
| KeyError
| AttributeError
| TypeError
| ValueError
| UnicodeEncodeError
| OSError.             (* raised by opening or writing an output file *)

Inductive result (A : Type) :=
| Ok (a : A)
| Raise (e : exn).
Arguments Ok {A} a.
Arguments Raise {A} e.

Definition bind {A B} (m : result A) (k : A -> result B) : result B :=
  match m with
  | Ok a => k a
  | Raise e => Raise e
  end.

Notation "'let*' x := m 'in' k" := (bind m (fun x => k))
  (at level 10, x name, m at level 100, k at level 200).

(** ** Python objects that the script builds and that [json] handles *)

Inductive pyobj :=
| PNone
| PBool (b : bool)
| PInt (z : Z)
| PFloat (f : spec_float)
| PStr (s : str)
| PList (l : list pyobj)
| PDict (items : list (str * pyobj)).

(** [d[k]] on a dictionary literal. *)
Fixpoint assoc (k : str) (items : list (str * pyobj)) : option pyobj :=
  match items with
  | [] => None
  | (k', v) :: rest => if decide (k = k') then Some v else assoc k rest
  end.

Definition getitem (o : pyobj) (k : string) : option pyobj :=
  match o with
  | PDict items => assoc (py k) items
  | _ => None
  end.

Definition keys (o : pyobj) : list str :=
  match o with
  | PDict items => map fst items
  | _ => []
  end.

(** ** csv.DictReader *)

Module Csv.

(** What a row dictionary can hold: a field of the line, [restval]
    ([None]) for a column the line is too short for, and under [restkey]
    the list of the fields the line has beyond the header. *)
Inductive cell :=
| CNone
| CStr (s : str)
| CList (l : list str).

(** Keys are the column names, and [restkey], which is [None]. *)
Abbreviation row := (gmap (option str) cell).

Definition restkey : option str := None.
Definition restval : cell := CNone.

(** [dict(zip(fieldnames, fields))]: a later pair overrides an earlier one
    with the same key. *)
Definition dict_zip (fieldnames fields : list str) : row :=
  fold_left (fun d kv => <[Some (fst kv) := CStr (snd kv)]> d)
            (combine fieldnames fields) ∅.

(** The body of [DictReader.__next__] once a non-empty line is found. *)
Definition make_row (fieldnames fields : list str) : row :=
  let d := dict_zip fieldnames fields in
  let lf := length fieldnames in
  let lr := length fields in
  if (lf <? lr)%nat then <[restkey := CList (drop lf fields)]> d
  else if (lr <? lf)%nat then
    fold_left (fun d key => <[Some key := restval]> d) (drop lr fieldnames) d
  else d.

Definition is_blank (fields : list str) : bool :=
  match fields with [] => true | _ => false end.

(** The rows that iterating a [DictReader] yields, from the lines that the
    underlying [csv.reader] yields: the first line is the header, lines
    equal to [[]] are skipped. *)
Definition DictReader (lines : list (list str)) : list row :=
  match lines with
  | [] => []
  | fieldnames :: rest =>
      map (make_row fieldnames) (List.filter (fun l => negb (is_blank l)) rest)
  end.

(** [row.get(key, default)]. *)
Definition get (r : row) (key : string) (default : cell) : cell :=
  match r !! Some (py key) with
  | Some v => v
  | None => default
  end.

(** [row[key]]. *)
Definition item (r : row) (key : string) : result cell :=
  match r !! Some (py key) with
  | Some v => Ok v
  | None => Raise KeyError
  end.

(** Truth value of a cell. *)
Definition truthy (c : cell) : bool :=
  match c with
  | CNone => false
  | CStr [] => false
  | CStr _ => true
  | CList [] => false
  | CList _ => true
  end.

(** The cell as a Python object. *)
Definition obj (c : cell) : pyobj :=
  match c with
  | CNone => PNone
  | CStr s => PStr s
  | CList l => PList (map PStr l)
  end.

(** [c.strip()]: only a [str] has the method. *)
Definition strip_method (c : cell) : result str :=
  match c with
  | CStr s => Ok (strip s)
  | _ => Raise AttributeError
  end.

End Csv.
Import Csv.

(** ** json.dump: the encoder *)

Module Json.

Definition quote : N := 34.
Definition backslash : N := 92.

(** One lower-case hexadecimal digit, and [format(n, '04x')] for the code
    units the encoder passes ([n < 0x10000]). *)
Definition hex_digit (d : N) : N := if d <? 10 then 48 + d else 87 + d.

Definition hex4 (n : N) : str :=
  [hex_digit (n / 4096 mod 16); hex_digit (n / 256 mod 16);
   hex_digit (n / 16 mod 16); hex_digit (n mod 16)].

Definition u_escape (n : N) : str := backslash :: 117 :: hex4 n.

(** [ESCAPE_DCT]: the two-character escapes, and [\u00XX] for the other
    control characters. *)
Definition ESCAPE_DCT (c : N) : option str :=
  if c =? backslash then Some [backslash; backslash]
  else if c =? quote then Some [backslash; quote]
  else if c =? 8 then Some [backslash; 98]
  else if c =? 12 then Some [backslash; 102]
  else if c =? 10 then Some [backslash; 110]
  else if c =? 13 then Some [backslash; 114]
  else if c =? 9 then Some [backslash; 116]
  else if c <? 32 then Some (u_escape c)
  else None.

(** [py_encode_basestring] (ensure_ascii=False): every match of [ESCAPE]
    is replaced through [ESCAPE_DCT]. *)
Definition escape_char (c : N) : str :=
  match ESCAPE_DCT c with
  | Some e => e
  | None => [c]
  end.

Definition encode_basestring (s : str) : str :=
  quote :: flat_map escape_char s ++ [quote].

(** [py_encode_basestring_ascii] (ensure_ascii=True): every match of
    [ESCAPE_ASCII] (a backslash, a quote, or anything outside [' '..'~'])
    is replaced through [ESCAPE_DCT] or, failing that, by [\uXXXX] or a
    surrogate pair. *)
Definition escape_char_ascii (c : N) : str :=
  if (c =? backslash) || (c =? quote) || negb ((32 <=? c) && (c <=? 126)) then
    match ESCAPE_DCT c with
    | Some e => e
    | None =>
        if c <? 65536 then u_escape c
        else
          let n := c - 65536 in
          let s1 := N.lor 55296 (N.land (N.shiftr n 10) 1023) in
          let s2 := N.lor 56320 (N.land n 1023) in
          u_escape s1 ++ u_escape s2
    end
  else [c].

Definition encode_basestring_ascii (s : str) : str :=
  quote :: flat_map escape_char_ascii s ++ [quote].

(** [sep.join(chunks)]. *)
Fixpoint join (sep : str) (chunks : list str) : str :=
  match chunks with
  | [] => []
  | [x] => x
  | x :: rest => x ++ sep ++ join sep rest
  end.

(** ['\n' + ' ' * indent * level]. *)
Definition newline_indent (indent level : nat) : str :=
  10 :: repeat 32 (indent * level)%nat.

Section Encoder.

(** [float.__repr__], a builtin of the interpreter. *)
Variable float_repr : spec_float -> str.

(** [floatstr] of [JSONEncoder.iterencode], with allow_nan=True. *)
Definition floatstr (f : spec_float) : str :=
  match f with
  | S754_nan => py "NaN"
  | S754_infinity false => py "Infinity"
  | S754_infinity true => py "-Infinity"
  | _ => float_repr f
  end.

Variable ensure_ascii : bool.
Variable indent : option nat.

Definition encoder : str -> str :=
  if ensure_ascii then encode_basestring_ascii else encode_basestring.

(** [JSONEncoder.__init__]: the item separator is [', '] unless an indent
    is given, and then [',']. *)
Definition item_separator : str :=
  match indent with
  | Some _ => py ","
  | None => py ", "
  end.

Definition key_separator : str := py ": ".

(** What follows an opening bracket and each separator at nesting depth
    [level], and what precedes the closing bracket. *)
Definition opening (level : nat) : str :=
  match indent with
  | Some n => newline_indent n (S level)
  | None => []
  end.

Definition closing (level : nat) : str :=
  match indent with
  | Some n => newline_indent n level
  | None => []
  end.

(** [_iterencode], [_iterencode_list] and [_iterencode_dict] of
    [_make_iterencode], the chunks concatenated. *)
Fixpoint iterencode (level : nat) (o : pyobj) : str :=
  match o with
  | PNone => py "null"
  | PBool true => py "true"
  | PBool false => py "false"
  | PInt z => int_repr z
  | PFloat f => floatstr f
  | PStr s => encoder s
  | PList [] => py "[]"
  | PList l =>
      py "[" ++ opening level
      ++ join (item_separator ++ opening level)
              (map (iterencode (S level)) l)
      ++ closing level ++ py "]"
  | PDict [] => py "{}"
  | PDict items =>
      py "{" ++ opening level
      ++ join (item_separator ++ opening level)
              (map (fun kv => encoder (fst kv) ++ key_separator
                              ++ iterencode (S level) (snd kv)) items)
      ++ closing level ++ py "}"
  end.

End Encoder.

(** [json.dump(obj, f, ensure_ascii=False, indent=2)]: the text written. *)
Definition dump_pretty (float_repr : spec_float -> str) (o : pyobj) : str :=
  iterencode float_repr false (Some 2%nat) 0 o.

(** [json.dump(obj, f)]: the text written. *)
Definition dump_compact (float_repr : spec_float -> str) (o : pyobj) : str :=
  iterencode float_repr true None 0 o.

(** ** json.load: the decoder *)

(** [WHITESPACE]: space, tab, line feed, carriage return. *)
Definition is_ws (c : N) : bool :=
  (c =? 32) || (c =? 9) || (c =? 10) || (c =? 13).

Fixpoint skip_ws (s : str) : str :=
  match s with
  | c :: r => if is_ws c then skip_ws r else s
  | [] => []
  end.

Definition hex_value (c : N) : option N :=
  if is_digit c then Some (c - 48)
  else if (97 <=? c) && (c <=? 102) then Some (c - 87)
  else if (65 <=? c) && (c <=? 70) then Some (c - 55)
  else None.

(** The four hexadecimal digits of a [\uXXXX] escape. *)
Definition hex4_value (a b c d : N) : option N :=
  match hex_value a, hex_value b, hex_value c, hex_value d with
  | Some x, Some y, Some z, Some t => Some (((x * 16 + y) * 16 + z) * 16 + t)
  | _, _, _, _ => None
  end.

(** [BACKSLASH]: the one-character escapes. *)
Definition BACKSLASH (c : N) : option N :=
  if c =? quote then Some quote
  else if c =? backslash then Some backslash
  else if c =? 47 then Some 47
  else if c =? 98 then Some 8
  else if c =? 102 then Some 12
  else if c =? 110 then Some 10
  else if c =? 114 then Some 13
  else if c =? 116 then Some 9
  else None.

Definition push {A} (c : N) (r : option (str * A)) : option (str * A) :=
  match r with
  | Some (t, rest) => Some (c :: t, rest)
  | None => None
  end.

(** [scanstring] in strict mode, from the character after the opening
    quote: the decoded string and what follows the closing quote.  A high
    surrogate escape followed by a low surrogate escape is one character. *)
Fixpoint scanstring (s : str) : option (str * str) :=
  match s with
  | [] => None
  | c :: r =>
      if c =? quote then Some ([], r)
      else if c =? backslash then
        match r with
        | [] => None
        | esc :: r1 =>
            if esc =? 117 then
              match r1 with
              | h1 :: h2 :: h3 :: h4 :: r2 =>
                  match hex4_value h1 h2 h3 h4 with
                  | None => None
                  | Some uni =>
                      if (55296 <=? uni) && (uni <=? 56319) then
                        match r2 with
                        | 92 :: 117 :: r3 =>
                            match r3 with
                            | g1 :: g2 :: g3 :: g4 :: r4 =>
                                match hex4_value g1 g2 g3 g4 with
                                | None => None
                                | Some uni2 =>
                                    if (56320 <=? uni2) && (uni2 <=? 57343)
                                    then
                                      push (65536
                                            + N.lor
                                                (N.shiftl (uni - 55296) 10)
                                                (uni2 - 56320))
                                           (scanstring r4)
                                    else push uni (scanstring r2)
                                end
                            | _ => None
                            end
                        | _ => push uni (scanstring r2)
                        end
                      else push uni (scanstring r2)
                  end
              | _ => None
              end
            else
              match BACKSLASH esc with
              | Some ch => push ch (scanstring r1)
              | None => None
              end
        end
      else if c <? 32 then None
      else push c (scanstring r)
  end.

(** [NUMBER_RE], group by group: the integer part (an optional minus
    sign, then a zero or a non-zero digit and more digits), the optional
    fraction (a point and digits), the optional exponent ([e] or [E], an
    optional sign, digits). *)
Definition match_int (s : str) : option (str * str) :=
  let (sign, r) :=
    match s with
    | c :: r => if c =? 45 then ([c], r) else ([], s)
    | [] => ([], s)
    end in
  match r with
  | c :: r1 =>
      if c =? 48 then Some (sign ++ [c], r1)
      else if is_digit c then
        let (ds, rest) := span_digits r1 in Some (sign ++ c :: ds, rest)
      else None
  | [] => None
  end.

Definition match_frac (s : str) : str * str :=
  match s with
  | c :: r =>
      if c =? 46 then
        match span_digits r with
        | ([], _) => ([], s)
        | (ds, rest) => (c :: ds, rest)
        end
      else ([], s)
  | [] => ([], s)
  end.

Definition match_exp (s : str) : str * str :=
  match s with
  | c :: r =>
      if (c =? 101) || (c =? 69) then
        let (sign, r1) :=
          match r with
          | c' :: r1 => if (c' =? 43) || (c' =? 45) then ([c'], r1) else ([], r)
          | [] => ([], r)
          end in
        match span_digits r1 with
        | ([], _) => ([], s)
        | (ds, rest) => (c :: sign ++ ds, rest)
        end
      else ([], s)
  | [] => ([], s)
  end.

(** The three groups of a match at the start of [s], and what follows. *)
Definition match_number (s : str) : option (str * str * str * str) :=
  match match_int s with
  | None => None
  | Some (integer, r) =>
      let (frac, r1) := match_frac r in
      let (exp, rest) := match_exp r1 in
      Some (integer, frac, exp, rest)
  end.

(** The whole of [s] is a number with a fraction or an exponent: what the
    decoder hands to [parse_float]. *)
Definition is_float_literal (s : str) : bool :=
  match match_number s with
  | Some (_, [], [], _) => false
  | Some (_, _, _, []) => true
  | _ => false
  end.

(** [s] without the prefix [p], if it starts with it. *)
Fixpoint strip_prefix (p s : str) : option str :=
  match p with
  | [] => Some s
  | c :: p' =>
      match s with
      | c' :: s' => if c =? c' then strip_prefix p' s' else None
      | [] => None
      end
  end.

(** [dict(pairs)]: a key that comes again keeps its place and takes the
    new value. *)
Fixpoint dict_set (k : str) (v : pyobj) (items : list (str * pyobj))
  : list (str * pyobj) :=
  match items with
  | [] => [(k, v)]
  | (k', v') :: rest =>
      if decide (k = k') then (k, v) :: rest else (k', v') :: dict_set k v rest
  end.

Definition dict_of_pairs (pairs : list (str * pyobj)) : list (str * pyobj) :=
  fold_left (fun d kv => dict_set (fst kv) (snd kv) d) pairs [].

Section Decoder.

(** [parse_float], which is [float]. *)
Variable parse_float : str -> option spec_float.

(** [scan_once], [JSONArray] and [JSONObject].  [fuel] bounds the depth
    of the calls; [array_items] scans from the first character of a value,
    [object_items] from the character after the opening quote of a key. *)
Fixpoint scan_once (fuel : nat) (s : str) : option (pyobj * str) :=
  match fuel with
  | O => None
  | S k =>
      match s with
      | [] => None
      | c :: r =>
          if c =? quote then
            match scanstring r with
            | Some (t, rest) => Some (PStr t, rest)
            | None => None
            end
          else if c =? 123 then
            match skip_ws r with
            | c1 :: r1 =>
                if c1 =? 125 then Some (PDict [], r1)
                else if c1 =? quote then
                  match object_items k r1 with
                  | Some (pairs, rest) =>
                      Some (PDict (dict_of_pairs pairs), rest)
                  | None => None
                  end
                else None
            | [] => None
            end
          else if c =? 91 then
            match skip_ws r with
            | c1 :: r1 =>
                if c1 =? 93 then Some (PList [], r1)
                else
                  match array_items k (c1 :: r1) with
                  | Some (values, rest) => Some (PList values, rest)
                  | None => None
                  end
            | [] => None
            end
          else
            match strip_prefix (py "null") s with
            | Some rest => Some (PNone, rest)
            | None =>
            match strip_prefix (py "true") s with
            | Some rest => Some (PBool true, rest)
            | None =>
            match strip_prefix (py "false") s with
            | Some rest => Some (PBool false, rest)
            | None =>
            match match_number s with
            | Some (integer, frac, exp, rest) =>
                match frac, exp with
                | [], [] => Some (PInt (int_of_chars integer), rest)
                | _, _ =>
                    match parse_float (integer ++ frac ++ exp) with
                    | Some f => Some (PFloat f, rest)
                    | None => None
                    end
                end
            | None =>
            match strip_prefix (py "NaN") s with
            | Some rest => Some (PFloat S754_nan, rest)
            | None =>
            match strip_prefix (py "Infinity") s with
            | Some rest => Some (PFloat (S754_infinity false), rest)
            | None =>
            match strip_prefix (py "-Infinity") s with
            | Some rest => Some (PFloat (S754_infinity true), rest)
            | None => None
            end end end end end end end
      end
  end
with array_items (fuel : nat) (s : str) : option (list pyobj * str) :=
  match fuel with
  | O => None
  | S k =>
      match scan_once k s with
      | None => None
      | Some (v, r) =>
          match skip_ws r with
          | c :: r1 =>
              if c =? 93 then Some ([v], r1)
              else if c =? 44 then
                match array_items k (skip_ws r1) with
                | Some (values, rest) => Some (v :: values, rest)
                | None => None
                end
              else None
          | [] => None
          end
      end
  end
with object_items (fuel : nat) (s : str)
  : option (list (str * pyobj) * str) :=
  match fuel with
  | O => None
  | S k =>
      match scanstring s with
      | None => None
      | Some (key, r) =>
          match skip_ws r with
          | c :: r1 =>
              if c =? 58 then
                match scan_once k (skip_ws r1) with
                | None => None
                | Some (v, r2) =>
                    match skip_ws r2 with
                    | c2 :: r3 =>
                        if c2 =? 125 then Some ([(key, v)], r3)
                        else if c2 =? 44 then
                          match skip_ws r3 with
                          | c3 :: r4 =>
                              if c3 =? quote then
                                match object_items k r4 with
                                | Some (pairs, rest) =>
                                    Some ((key, v) :: pairs, rest)
                                | None => None
                                end
                              else None
                          | [] => None
                          end
                        else None
                    | [] => None
                    end
                end
              else None
          | [] => None
          end
      end
  end.

(** [json.loads(s)]: one value, with white space around it and nothing
    else.  The fuel is more than a text of this length can use. *)
Definition loads (s : str) : option pyobj :=
  match scan_once (S (2 * length s)) (skip_ws s) with
  | Some (v, rest) =>
      match skip_ws rest with
      | [] => Some v
      | _ => None
      end
  | None => None
  end.

End Decoder.

End Json.

(** ** The interpreter and library functions that the script calls

    [float] and [float.__repr__] are builtins; [csv.reader] is the
    tokenizer of the [_csv] extension module.  They are not code of the
    script: the script is embedded over any implementation of them. *)

(** What the operating system does with a file that the script opens for
    writing. *)
Inductive access :=
| Granted                  (* the file is opened and takes every write *)
| Denied                   (* [open] raises [OSError]: the file is not touched *)
| Interrupted (n : nat).   (* opened; [OSError] with at most [n] characters in *)

Record runtime := {
  (** [float(s)] on a [str]; [None] stands for [ValueError]. *)
  float_of_str : str -> option spec_float;
  (** [float.__repr__]. *)
  float_repr : spec_float -> str;
  (** [csv.reader] over the decoded text of a file opened with
      [newline='']: the lines it yields, and the exception that ends the
      iteration if one does ([csv.Error], or a decoding error of the
      underlying stream). *)
  csv_reader : str -> list (list str) * option exn;
  (** What a text stream has written of a text when the encoding of one
      of its chunks fails. *)
  written_prefix : str -> str;
  (** [open(path, "w")] and [gzip.open(path, "wt")], and the writes to
      the stream, as the operating system lets them go. *)
  output_access : string -> access
}.

(** ** Files and standard output *)

Inductive file :=
| TextFile (text : str)        (* UTF-8 text *)
| GzipFile (payload : str).    (* a gzip stream of UTF-8 text *)

Record world := {
  files : gmap string file;
  stdout : list str
}.

(** [open(path, encoding='utf-8')] and reading it whole. *)
Definition read_text (w : world) (path : string) : result str :=
  match files w !! path with
  | None => Raise FileNotFoundError
  | Some (TextFile t) => Ok t
  | Some (GzipFile _) => Raise UnicodeDecodeError
  end.

Definition store (w : world) (path : string) (f : file) : world :=
  {| files := <[path := f]> (files w); stdout := stdout w |}.

(** Opening [path] for writing and writing [text] through a stream that
    wraps it by [wrap].  When [open] raises, the file is left as it was;
    otherwise it is created or replaced, and holds what was written by
    the time a write raised: a code point that UTF-8 cannot encode raises
    [UnicodeEncodeError], the operating system raises [OSError]. *)
Definition write_stream (rt : runtime) (wrap : str -> file)
  (w : world) (path : string) (text : str) : world * option exn :=
  match output_access rt path with
  | Denied => (w, Some OSError)
  | Granted =>
      if encodable text then (store w path (wrap text), None)
      else (store w path (wrap (written_prefix rt text)),
            Some UnicodeEncodeError)
  | Interrupted n =>
      if encodable (take n text)
      then (store w path (wrap (take n text)), Some OSError)
      else (store w path (wrap (written_prefix rt text)),
            Some UnicodeEncodeError)
  end.

Definition print (w : world) (line : str) : world :=
  {| files := files w; stdout := stdout w ++ [line] |}.

(** ** The script *)

Definition INPUT : string := "Historical Marker_20251112_113626_6777607.csv".
Definition OUTPUT : string := "tx_historical_markers.json".
Definition ZIP : string := "tx_historical_markers.json.gz".

Section Script.

Variable rt : runtime.

(** [float(c)]. *)
Definition to_float (c : cell) : result spec_float :=
  match c with
  | CStr s =>
      match float_of_str rt s with
      | Some f => Ok f
      | None => Raise ValueError
      end
  | _ => Raise TypeError
  end.

(** [float(row[key]) if row.get(key) else None]. *)
Definition coordinate (r : row) (key : string) : result pyobj :=
  if truthy (get r key CNone) then
    let* c := item r key in
    let* f := to_float c in
    Ok (PFloat f)
  else Ok PNone.

(** The float literal [0.9]: the binary64 value nearest to nine tenths,
    [0x1.ccccccccccccdp-1]. *)
Definition confidence_0_9 : spec_float :=
  S754_finite false 8106479329266893 (-53).

(** The dictionary literal of the loop body; its items are evaluated in
    the order they are written. *)
Definition make_rec (r : row) : result pyobj :=
  let* atlas := strip_method (get r "AtlasNumber" (CStr [])) in
  let* title := strip_method (get r "MarkerTitle" (CStr [])) in
  let* description := strip_method (get r "MarkerText" (CStr [])) in
  let date_installed := get r "YearMarkerErected" (CStr []) in
  let* latitude := coordinate r "Latitude" in
  let* longitude := coordinate r "Longitude" in
  Ok (PDict [
    (py "id", PStr (py "tx-thc-" ++ atlas));
    (py "title", PStr title);
    (py "description", PStr description);
    (py "date_installed", obj date_installed);
    (py "coordinates", PDict [
       (py "latitude", latitude);
       (py "longitude", longitude)]);
    (py "address", PDict [
       (py "city", obj (get r "City" (CStr [])));
       (py "county", obj (get r "County" (CStr [])));
       (py "state", PStr (py "TX"))]);
    (py "images", PList []);
    (py "source", PList [PDict [
       (py "name", PStr (py "Texas Historical Commission"));
       (py "url", PStr (py "https://atlas.thc.texas.gov/Data/DataDownload"));
       (py "source_id", obj (get r "AtlasNumber" (CStr [])))]]);
    (py "type", PStr (py "state marker (TX)"));
    (py "tags", PList []);
    (py "confidence", PFloat confidence_0_9)]).

(** [for row in reader: ... records.append(rec)]: the list [records] is
    threaded through; an exception leaves it as it was at that row. *)
Fixpoint loop (rows : list row) (records : list pyobj)
  : exn * list pyobj + list pyobj :=
  match rows with
  | [] => inr records
  | r :: rest =>
      match make_rec r with
      | Ok rec => loop rest (records ++ [rec])
      | Raise e => inl (e, records)
      end
  end.

(** How a run ends: normally, or by an uncaught exception, with the
    records built so far. *)
Inductive outcome :=
| Finished (records : list pyobj) (w : world)
| Crashed (e : exn) (records : list pyobj) (w : world).

(** [f"Wrote {len(records)} markers to {OUTPUT} and {ZIP}"]. *)
Definition summary (records : list pyobj) : str :=
  py "Wrote " ++ decimal (N.of_nat (length records)) ++ py " markers to "
  ++ py OUTPUT ++ py " and " ++ py ZIP.

Definition main (w : world) : outcome :=
  match read_text w INPUT with
  | Raise e => Crashed e [] w
  | Ok text =>
      let (lines, failure) := csv_reader rt text in
      match loop (DictReader lines) [] with
      | inl (e, records) => Crashed e records w
      | inr records =>
          match failure with
          | Some e => Crashed e records w
          | None =>
              match write_stream rt TextFile w OUTPUT
                      (Json.dump_pretty (float_repr rt) (PList records)) with
              | (w1, Some e) => Crashed e records w1
              | (w1, None) =>
                  match write_stream rt GzipFile w1 ZIP
                          (Json.dump_compact (float_repr rt) (PList records)) with
                  | (w2, Some e) => Crashed e records w2
                  | (w2, None) => Finished records (print w2 (summary records))
                  end
              end
          end
      end
  end.

End Script.

(** ** A reference runtime

    One implementation of [runtime], to run the script on concrete
    inputs.  It stands for the interpreter on the inputs used below, and
    is simpler than the interpreter elsewhere: its [float] reads ASCII
    decimal numerals, rounded to the nearest binary64, and rejects the
    digit-group underscores and the digits beyond ASCII that Python's
    reads; its [repr] writes the exact decimal expansion of a float, not
    the shortest numeral that reads back, as Python's does; its reader
    refuses a text with a quote or a carriage return, and has no limit
    on the size of a field.  No theorem below depends on it: they hold
    of every [runtime]. *)

Module Reference.

Definition prec : Z := 53.
Definition emax : Z := 1024.

(** The binary64 value nearest to [m * 10 ^ e], ties to even. *)
Definition round_decimal (sign : bool) (m : N) (e : Z) : spec_float :=
  match m with
  | N0 => S754_zero sign
  | Npos p =>
      if (0 <=? e)%Z then
        let v := (Zpos p * 10 ^ e)%Z in
        binary_normalize prec emax (if sign then (- v)%Z else v) 0 sign
      else
        let '(q, e', loc) :=
          SFdiv_core_binary prec emax (Zpos p) 0 (10 ^ (- e))%Z 0 in
        binary_round_aux prec emax sign q e' loc
  end.

Definition lower (c : N) : N :=
  if (65 <=? c) && (c <=? 90) then c + 32 else c.

Definition split_sign (s : str) : bool * str :=
  match s with
  | c :: r =>
      if c =? 45 then (true, r) else if c =? 43 then (false, r) else (false, s)
  | [] => (false, s)
  end.

(** The exponent part: empty, or [e] or [E], an optional sign, digits. *)
Definition exponent (s : str) : option Z :=
  match s with
  | [] => Some 0%Z
  | c :: r =>
      if (c =? 101) || (c =? 69) then
        let (neg, r1) := split_sign r in
        match span_digits r1 with
        | ((_ :: _) as ds, []) =>
            let v := Z.of_N (digits_value ds) in
            Some (if neg then (- v)%Z else v)
        | _ => None
        end
      else None
  end.

(** The white space that [float] strips at both ends: that of
    [str.strip] but for the separators U+001C to U+001F, with which
    [float] raises. *)
Definition is_float_space (c : N) : bool :=
  isspace c && negb ((28 <=? c) && (c <=? 31)).

Fixpoint lstrip_float (s : str) : str :=
  match s with
  | c :: s' => if is_float_space c then lstrip_float s' else s
  | [] => []
  end.

Definition strip_float (s : str) : str :=
  rev (lstrip_float (rev (lstrip_float s))).

Definition float_of_str (s : str) : option spec_float :=
  let (sign, body) := split_sign (strip_float s) in
  let name := map lower body in
  if decide (name = py "inf" \/ name = py "infinity") then
    Some (S754_infinity sign)
  else if decide (name = py "nan") then Some S754_nan
  else
    let (ip, r1) := span_digits body in
    let (fp, r2) :=
      match r1 with
      | 46 :: r => span_digits r
      | _ => ([], r1)
      end in
    match ip ++ fp with
    | [] => None
    | ds =>
        match exponent r2 with
        | Some e =>
            Some (round_decimal sign (digits_value ds)
                    (e - Z.of_nat (length fp)))
        | None => None
        end
    end.

Definition sign_chars (sign : bool) : str := if sign then [45] else [].

(** An exact decimal numeral of the value: [m * 2 ^ e] as an integer with
    [.0] when [e >= 0], and [m * 5 ^ -e] with the exponent [e] otherwise. *)
Definition float_repr (f : spec_float) : str :=
  match f with
  | S754_zero s => sign_chars s ++ py "0.0"
  | S754_infinity s => sign_chars s ++ py "inf"
  | S754_nan => py "nan"
  | S754_finite s m e =>
      sign_chars s ++
      if (0 <=? e)%Z then decimal (Npos m * 2 ^ Z.to_N e) ++ py ".0"
      else decimal (Npos m * 5 ^ Z.to_N (- e)) ++ py "e-"
           ++ decimal (Z.to_N (- e))
  end.

(** [s.split(sep)]. *)
Fixpoint split (sep : N) (s : str) : list str :=
  match s with
  | [] => [[]]
  | c :: r =>
      if c =? sep then [] :: split sep r
      else
        match split sep r with
        | f :: fs => (c :: f) :: fs
        | [] => [[c]]
        end
  end.

(** The lines of a text: a final newline ends the last line and does not
    start another one. *)
Definition lines (text : str) : list str :=
  match rev (split 10 text) with
  | [] :: front => rev front
  | _ => split 10 text
  end.

(** [csv.reader] with the default dialect on text that has no quote and
    no carriage return (other text is refused): an empty line yields [[]],
    any other line its comma-separated fields. *)
Definition csv_reader (text : str) : list (list str) * option exn :=
  if existsb (fun c => (c =? 34) || (c =? 13)) text then ([], Some ReaderError)
  else
    (map (fun l => match l with [] => [] | _ => split 44 l end) (lines text),
     None).

(** The longest prefix that can be encoded. *)
Fixpoint written_prefix (text : str) : str :=
  match text with
  | c :: r => if is_scalar c then c :: written_prefix r else []
  | [] => []
  end.

(** The reference runtime lets every output through. *)
Definition rt : runtime :=
  Build_runtime float_of_str float_repr csv_reader written_prefix
                (fun _ => Granted).

(** The same runtime where the operating system treats one path
    otherwise. *)
Definition with_access (path : string) (a : access) : runtime :=
  Build_runtime float_of_str float_repr csv_reader written_prefix
                (fun p => if String.eqb p path then a else Granted).

End Reference.

(** ** The vocabulary of the statements *)

(** The columns that the script reads. *)
Definition columns : list string :=
  ["AtlasNumber"; "MarkerTitle"; "MarkerText"; "YearMarkerErected";
   "Latitude"; "Longitude"; "City"; "County"]%string.

(** The text has no white space at its start and none at its end. *)
Definition tight (s : str) : Prop :=
  (forall c t, s = c :: t -> isspace c = false)
  /\ (forall c, last s = Some c -> isspace c = false).

(** [s] is [raw] without the white space around it. *)
Definition trimmed_of (raw s : str) : Prop :=
  (exists before after,
     raw = before ++ s ++ after
     /\ forallb isspace before = true /\ forallb isspace after = true)
  /\ tight s.

(** [s] is the text of the column [key] of the row without the white
    space around it; the empty string when the header has no such
    column. *)
Definition trimmed_column (r : row) (key : string) (s : str) : Prop :=
  match r !! Some (py key) with
  | Some (CStr raw) => trimmed_of raw s
  | Some _ => False
  | None => s = []
  end.

(** [v] is the column [key] of the row as it was read: the very string,
    [None] for a column beyond the end of a short line, the empty string
    when the header has no such column. *)
Definition raw_column (r : row) (key : string) (v : pyobj) : Prop :=
  match r !! Some (py key) with
  | Some (CStr raw) => v = PStr raw
  | Some CNone => v = PNone
  | Some (CList _) => False
  | None => v = PStr []
  end.



(** The data rows of an input: the lines after the first one, the
    header, that are not empty. *)
Definition data_lines (lines : list (list str)) : list (list str) :=
  List.filter (fun l => match l with [] => false | _ :: _ => true end)
              (tail lines).

(** The cells of the row under column names are strings or [None], as in
    every row that a [DictReader] yields. *)
Definition from_reader (r : row) : Prop :=
  forall k c, r !! Some k = Some c -> c = CNone \/ exists s, c = CStr s.

(** The coordinate under [key] is a non-empty string that [float]
    rejects. *)
Definition unparsable (rt : runtime) (r : row) (key : string) : Prop :=
  exists s, get r key CNone = CStr s /\ s <> [] /\ float_of_str rt s = None.

(** All three stripped columns of the row hold strings. *)
Definition text_columns_are_strings (r : row) : Prop :=
  exists atlas title text,
    get r "AtlasNumber" (CStr []) = CStr atlas
    /\ get r "MarkerTitle" (CStr []) = CStr title
    /\ get r "MarkerText" (CStr []) = CStr text.

(** The keys of a record, in the order of the dictionary literal. *)
Definition schema : list str :=
  map py ["id"; "title"; "description"; "date_installed"; "coordinates";
          "address"; "images"; "source"; "type"; "tags"; "confidence"]%string.

(** A record has the keys of the schema, in its order, at every level. *)
Definition schema_ordered (rec : pyobj) : Prop :=
  keys rec = schema
  /\ (exists c, getitem rec "coordinates" = Some c
                /\ keys c = map py ["latitude"; "longitude"]%string)
  /\ (exists a, getitem rec "address" = Some a
                /\ keys a = map py ["city"; "county"; "state"]%string)
  /\ (exists s, getitem rec "source" = Some (PList [s])
                /\ keys s = map py ["name"; "url"; "source_id"]%string).

(** The row of the Alamo scenario, whatever the order of its columns. *)
Definition is_alamo (r : row) : Prop :=
  r !! Some (py "AtlasNumber") = Some (CStr (py "5535"))
  /\ r !! Some (py "MarkerTitle") = Some (CStr (py " Alamo "))
  /\ r !! Some (py "MarkerText") = Some (CStr (py "Remember the Alamo."))
  /\ r !! Some (py "YearMarkerErected") = Some (CStr (py "1936"))
  /\ r !! Some (py "Latitude") = Some (CStr (py "29.4260"))
  /\ r !! Some (py "Longitude") = Some (CStr (py "-98.4861"))
  /\ r !! Some (py "City") = Some (CStr (py "San Antonio"))
  /\ r !! Some (py "County") = Some (CStr (py "Bexar")).

(** The binary64 values nearest to 29.426 and to -98.4861:
    [0x1.d6d0e56041893p+4] and [-0x1.89f1c432ca57ap+6]. *)
Definition float_29_426 : spec_float :=
  S754_finite false 8282682664687763 (-48).

Definition float_minus_98_4861 : spec_float :=
  S754_finite true 6930343175955834 (-46).

(** The record that the specification lists for the Alamo row. *)
Definition alamo_record : pyobj :=
  PDict [
    (py "id", PStr (py "tx-thc-5535"));
    (py "title", PStr (py "Alamo"));
    (py "description", PStr (py "Remember the Alamo."));
    (py "date_installed", PStr (py "1936"));
    (py "coordinates", PDict [
       (py "latitude", PFloat float_29_426);
       (py "longitude", PFloat float_minus_98_4861)]);
    (py "address", PDict [
       (py "city", PStr (py "San Antonio"));
       (py "county", PStr (py "Bexar"));
       (py "state", PStr (py "TX"))]);
    (py "images", PList []);
    (py "source", PList [PDict [
       (py "name", PStr (py "Texas Historical Commission"));
       (py "url", PStr (py "https://atlas.thc.texas.gov/Data/DataDownload"));
       (py "source_id", PStr (py "5535"))]]);
    (py "type", PStr (py "state marker (TX)"));
    (py "tags", PList []);
    (py "confidence", PFloat confidence_0_9)].

(** The record of a row that has none of the eight columns. *)
Definition blank_record : pyobj :=
  PDict [
    (py "id", PStr (py "tx-thc-"));
    (py "title", PStr []);
    (py "description", PStr []);
    (py "date_installed", PStr []);
    (py "coordinates", PDict [
       (py "latitude", PNone);
       (py "longitude", PNone)]);
    (py "address", PDict [
       (py "city", PStr []);
       (py "county", PStr []);
       (py "state", PStr (py "TX"))]);
    (py "images", PList []);
    (py "source", PList [PDict [
       (py "name", PStr (py "Texas Historical Commission"));
       (py "url", PStr (py "https://atlas.thc.texas.gov/Data/DataDownload"));
       (py "source_id", PStr [])]]);
    (py "type", PStr (py "state marker (TX)"));
    (py "tags", PList []);
    (py "confidence", PFloat confidence_0_9)].

(** The text written to the plain file and the text written through the
    gzip stream, for a list of records. *)
Definition plain_text (rt : runtime) (records : list pyobj) : str :=
  Json.dump_pretty (float_repr rt) (PList records).

Definition gzip_text (rt : runtime) (records : list pyobj) : str :=
  Json.dump_compact (float_repr rt) (PList records).

(** The line that a run prints for [n] records. *)
Definition summary_line (n : nat) : str :=
  py "Wrote " ++ decimal (N.of_nat n)
  ++ py " markers to tx_historical_markers.json and tx_historical_markers.json.gz".

(** The fuel that scanning the text of an object takes. *)
Fixpoint weight (o : pyobj) : nat :=
  match o with
  | PList l => S (length l + list_sum (map weight l))
  | PDict items => S (length items + list_sum (map (fun kv => weight (snd kv)) items))
  | _ => 1
  end.

(** Every string of the object, keys included, can be encoded. *)
Fixpoint jsonable (o : pyobj) : bool :=
  match o with
  | PStr s => encodable s
  | PList l => forallb jsonable l
  | PDict items =>
      forallb (fun kv => encodable (fst kv) && jsonable (snd kv)) items
  | _ => true
  end.

Definition is_finite (f : spec_float) : bool :=
  match f with
  | S754_zero _ | S754_finite _ _ _ => true
  | _ => false
  end.

(** The floats of an object. *)
Fixpoint floats_of (o : pyobj) : list spec_float :=
  match o with
  | PFloat f => [f]
  | PList l => flat_map floats_of l
  | PDict items => flat_map (fun kv => floats_of (snd kv)) items
  | _ => []
  end.

(** No dictionary of the object has a key twice. *)
Fixpoint distinct_keys (o : pyobj) : bool :=
  match o with
  | PList l => forallb distinct_keys l
  | PDict items =>
      bool_decide (NoDup (map fst items))
      && forallb (fun kv => distinct_keys (snd kv)) items
  | _ => true
  end.

(** A printable ASCII character. *)
Definition is_printable (c : N) : bool := (32 <=? c) && (c <=? 126).

Definition printable (s : str) : bool := forallb is_printable s.

(** Every string of the object, keys included, satisfies [q]. *)
Fixpoint all_strings (q : str -> bool) (o : pyobj) : bool :=
  match o with
  | PStr s => q s
  | PList l => forallb (all_strings q) l
  | PDict items =>
      forallb (fun kv => q (fst kv) && all_strings q (snd kv)) items
  | _ => true
  end.

(** The cells of the row under column names are [None] or strings that
    can be encoded. *)
Definition encodable_row (r : row) : Prop :=
  forall k c, r !! Some k = Some c ->
    c = CNone \/ exists s, c = CStr s /\ encodable s = true.

(** [csv.reader] yields fields that can be encoded from a text that can:
    it makes them of characters of the text. *)
Definition reader_keeps_encodable (rt : runtime) : Prop :=
  forall text, encodable text = true ->
    Forall (Forall (fun s => encodable s = true)) (fst (csv_reader rt text)).

(** ** Facts about the loop and the run *)

Section ScriptFacts.

Variable rt : runtime.

(** The rows that the loop of a run iterates over. *)
Definition input_lines (w : world) : list (list str) :=
  match read_text w INPUT with
  | Ok text => fst (csv_reader rt text)
  | Raise _ => []
  end.

Definition input_rows (w : world) : list row := DictReader (input_lines w).

(** The row is converted: [rec] is the dictionary built from [r]. *)
Definition converts (r : row) (rec : pyobj) : Prop := make_rec rt r = Ok rec.

Lemma loop_inr rows acc records :
  loop rt rows acc = inr records ->
  exists new, records = acc ++ new /\ Forall2 converts rows new.
Proof.
  revert acc. induction rows as [|r rows IH]; intros acc H; simpl in H.
  - exists []. split; [|constructor]. inversion H. by rewrite app_nil_r.
  - destruct (make_rec rt r) as [rec|e] eqn:E; [|discriminate].
    destruct (IH _ H) as (new & -> & F).
    exists (rec :: new). split; [by rewrite <- app_assoc|].
    by constructor.
Qed.

Lemma loop_converts rows acc new :
  Forall2 converts rows new -> loop rt rows acc = inr (acc ++ new).
Proof.
  intros F. revert acc. induction F as [|r rec rows new Hc F IH]; intros acc.
  - by rewrite app_nil_r.
  - simpl. rewrite Hc, IH, <- app_assoc. done.
Qed.

(** A row that raises stops the loop at that row, or an earlier row has
    stopped it. *)
Lemma loop_raise rows acc i r e :
  rows !! i = Some r -> make_rec rt r = Raise e ->
  exists e' new,
    loop rt rows acc = inl (e', acc ++ new) /\ (length new <= i)%nat
    /\ Forall2 converts (take (length new) rows) new
    /\ ((forall j r', (j < i)%nat -> rows !! j = Some r' ->
           exists rec, converts r' rec) ->
        length new = i /\ e' = e).
Proof.
  revert acc i. induction rows as [|r0 rows IH]; intros acc i Hi He; [done|].
  simpl. destruct (make_rec rt r0) as [rec|e0] eqn:E.
  - destruct i as [|i]; [simpl in Hi; congruence|]. simpl in Hi.
    destruct (IH (acc ++ [rec]) i Hi He) as (e' & new & Hl & Hn & F & Hall).
    exists e', (rec :: new). rewrite <- app_assoc in Hl.
    split; [done|]. split; [simpl; lia|]. split; [by constructor|].
    intros Hprev. destruct Hall as [Hlen ->]; [|simpl; by rewrite Hlen].
    intros j r' Hj Hr'. apply (Hprev (S j) r'); [lia|done].
  - exists e0, []. rewrite app_nil_r. split; [done|].
    split; [simpl; lia|]. split; [constructor|].
    intros Hprev. destruct i as [|i].
    + simpl in Hi. split; [done|]. congruence.
    + destruct (Hprev 0%nat r0) as [rec Hrec]; [lia|done|].
      unfold converts in Hrec. congruence.
Qed.

Lemma encodable_take (n : nat) (text : str) :
  encodable text = true -> encodable (take n text) = true.
Proof.
  unfold encodable. revert n.
  induction text as [|c text IH]; intros [|n]; simpl; try done.
  intros [-> H]%andb_prop. by apply IH.
Qed.

(** A stream that raises nothing was opened and has written the whole
    text. *)
Lemma write_stream_None wrap w path text w1 :
  write_stream rt wrap w path text = (w1, None) ->
  output_access rt path = Granted /\ encodable text = true
  /\ w1 = store w path (wrap text).
Proof.
  unfold write_stream. destruct (output_access rt path) as [| |n]; [|done|].
  - destruct (encodable text); [|done]. by intros [= <-].
  - by destruct (encodable (take n text)).
Qed.

(** The three ways a stream raises. *)
Lemma write_stream_Some wrap w path text w1 e :
  write_stream rt wrap w path text = (w1, Some e) ->
  (e = OSError /\ output_access rt path = Denied /\ w1 = w)
  \/ (e = OSError
      /\ exists n, output_access rt path = Interrupted n
                   /\ w1 = store w path (wrap (take n text)))
  \/ (e = UnicodeEncodeError /\ encodable text = false
      /\ output_access rt path <> Denied
      /\ w1 = store w path (wrap (written_prefix rt text))).
Proof.
  unfold write_stream. destruct (output_access rt path) as [| |n].
  - destruct (encodable text) eqn:E; [done|]. intros [= <- <-].
    right. right. done.
  - intros [= <- <-]. by left.
  - destruct (encodable (take n text)) eqn:E; intros [= <- <-].
    + right. left. split; [done|]. by exists n.
    + right. right. repeat split; try done.
      destruct (encodable text) eqn:E'; [|done].
      by rewrite encodable_take in E.
Qed.

(** A run that finishes has read the input, converted every row and
    written both files; its world is the initial one with the two files
    stored and the summary printed. *)
Lemma main_Finished w records w' :
  main rt w = Finished records w' ->
  exists text lines,
    read_text w INPUT = Ok text
    /\ csv_reader rt text = (lines, None)
    /\ Forall2 converts (DictReader lines) records
    /\ w' = print
         (store (store w OUTPUT
                   (TextFile (Json.dump_pretty (float_repr rt) (PList records))))
                ZIP (GzipFile (Json.dump_compact (float_repr rt) (PList records))))
         (summary records).
Proof.
  unfold main. intros H.
  destruct (read_text w INPUT) as [text|] eqn:Hr; [|discriminate].
  destruct (csv_reader rt text) as [lines failure] eqn:Hc.
  destruct (loop rt (DictReader lines) []) as [[e recs]|recs] eqn:Hl;
    [discriminate|].
  destruct failure; [discriminate|].
  destruct (write_stream rt TextFile w OUTPUT _) as [w1 [e1|]] eqn:W1;
    [discriminate|].
  destruct (write_stream rt GzipFile w1 ZIP _) as [w2 [e2|]] eqn:W2;
    [discriminate|].
  apply write_stream_None in W1 as (_ & _ & ->).
  apply write_stream_None in W2 as (_ & _ & ->).
  inversion H; subst. exists text, lines.
  apply loop_inr in Hl as (new & -> & F). simpl. done.
Qed.

(** A run that finishes was let through by the operating system on both
    paths, and both texts could be encoded. *)
Lemma main_Finished_streams w records w' :
  main rt w = Finished records w' ->
  output_access rt OUTPUT = Granted /\ output_access rt ZIP = Granted
  /\ encodable (Json.dump_pretty (float_repr rt) (PList records)) = true
  /\ encodable (Json.dump_compact (float_repr rt) (PList records)) = true.
Proof.
  unfold main. intros H.
  destruct (read_text w INPUT) as [text|] eqn:Hr; [|discriminate].
  destruct (csv_reader rt text) as [lines failure] eqn:Hc.
  destruct (loop rt (DictReader lines) []) as [[e recs]|recs] eqn:Hl;
    [discriminate|].
  destruct failure; [discriminate|].
  destruct (write_stream rt TextFile w OUTPUT _) as [w1 [e1|]] eqn:W1;
    [discriminate|].
  destruct (write_stream rt GzipFile w1 ZIP _) as [w2 [e2|]] eqn:W2;
    [discriminate|].
  apply write_stream_None in W1 as (A1 & E1 & _).
  apply write_stream_None in W2 as (A2 & E2 & _).
  by injection H as <- _.
Qed.

Lemma main_Finished_rows w records w' :
  main rt w = Finished records w' ->
  Forall2 converts (input_rows w) records.
Proof.
  intros H. apply main_Finished in H as (text & lines & Hr & Hc & F & _).
  unfold input_rows, input_lines. by rewrite Hr, Hc.
Qed.

Lemma main_Finished_row w records w' i r :
  main rt w = Finished records w' ->
  input_rows w !! i = Some r ->
  exists rec, records !! i = Some rec /\ converts r rec.
Proof.
  intros H Hi. apply main_Finished_rows in H.
  destruct (Forall2_lookup_l _ _ _ _ _ H Hi) as (rec & ? & ?). eauto.
Qed.

(** A row that raises crashes the run before anything is written. *)
Lemma main_raise w i r e :
  input_rows w !! i = Some r -> make_rec rt r = Raise e ->
  exists e' records,
    main rt w = Crashed e' records w /\ (length records <= i)%nat
    /\ Forall2 converts (take (length records) (input_rows w)) records
    /\ ((forall j r', (j < i)%nat -> input_rows w !! j = Some r' ->
           exists rec, converts r' rec) ->
        length records = i /\ e' = e).
Proof.
  unfold input_rows, input_lines, main. intros Hi He.
  destruct (read_text w INPUT) as [text|]; [|done].
  destruct (csv_reader rt text) as [lines failure]. simpl in *.
  destruct (loop_raise _ [] _ _ _ Hi He) as (e' & new & -> & ?).
  exists e', new. done.
Qed.

End ScriptFacts.

(** ** Facts about the rows of [csv.DictReader] *)

Section RowFacts.

Lemma combine_fst_take (h f : list str) :
  map fst (combine h f) = take (length f) h.
Proof.
  revert f. induction h as [|x h IH]; intros [|y f]; simpl; try done.
  by rewrite IH.
Qed.

(** Under a column name, [dict(zip(...))] holds nothing or a field. *)
Lemma fold_zip_None (l : list (str * str)) (d : row) (k : str) :
  fold_left (fun d kv => <[Some (fst kv) := CStr (snd kv)]> d) l d !! Some k
  = None <-> (k ∉ map fst l) /\ d !! Some k = None.
Proof.
  revert d. induction l as [|[k' s] l IH]; intros d; simpl.
  - split; [intros; split; [apply not_elem_of_nil|done] | by intros [_ ?]].
  - rewrite IH, not_elem_of_cons. destruct (decide (k' = k)) as [->|Hne].
    + rewrite lookup_insert_eq. split; [by intros [_ ?]|by intros [[? _] _]].
    + rewrite lookup_insert_ne by congruence.
      split; [intros [? ?]; repeat split; congruence|by intros [[_ ?] ?]].
Qed.

Lemma fold_zip_Some (l : list (str * str)) (d : row) (k : str) (c : cell) :
  fold_left (fun d kv => <[Some (fst kv) := CStr (snd kv)]> d) l d !! Some k
  = Some c -> (exists s, c = CStr s) \/ d !! Some k = Some c.
Proof.
  revert d. induction l as [|[k' s] l IH]; intros d; simpl; [by right|].
  intros H. destruct (IH _ H) as [?|H']; [by left|].
  destruct (decide (k' = k)) as [->|Hne].
  - rewrite lookup_insert_eq in H'. left. exists s. congruence.
  - rewrite lookup_insert_ne in H' by congruence. by right.
Qed.

(** The [restval] loop: the columns it runs over end up [None], the other
    keys are untouched. *)
Lemma fold_restval (ks : list str) (d : row) (k : option str) :
  fold_left (fun d key => <[Some key := restval]> d) ks d !! k
  = match k with
    | Some k' => if decide (k' ∈ ks) then Some CNone else d !! k
    | None => d !! k
    end.
Proof.
  revert d. induction ks as [|k0 ks IH]; intros d.
  - destruct k as [k'|]; [|done].
    destruct (decide (k' ∈ [])) as [H|]; [|done].
    by apply elem_of_nil in H.
  - simpl. rewrite IH. destruct k as [k'|].
    + destruct (decide (k' ∈ ks)) as [Hin|Hnin].
      * rewrite decide_True; [done|by right].
      * destruct (decide (k0 = k')) as [->|Hne].
        -- rewrite lookup_insert_eq, decide_True; [done|by left].
        -- rewrite lookup_insert_ne by congruence.
           rewrite decide_False; [done|].
           rewrite elem_of_cons. by intros [?|?].
    + by rewrite lookup_insert_ne.
Qed.

(** A line shorter than the header: every column beyond the line maps to
    [None]. *)
Lemma make_row_short (fieldnames fields : list str) (k : str) :
  (length fields < length fieldnames)%nat ->
  k ∈ drop (length fields) fieldnames ->
  make_row fieldnames fields !! Some k = Some CNone.
Proof.
  intros Hlt Hk. unfold make_row.
  destruct (Nat.ltb_spec (length fieldnames) (length fields)); [lia|].
  destruct (Nat.ltb_spec (length fields) (length fieldnames)); [|lia].
  rewrite fold_restval. by rewrite decide_True.
Qed.

(** A key is missing from a row exactly when it is not a column of the
    header. *)
Lemma make_row_None (fieldnames fields : list str) (k : str) :
  make_row fieldnames fields !! Some k = None <-> k ∉ fieldnames.
Proof.
  unfold make_row, dict_zip.
  destruct (Nat.ltb_spec (length fieldnames) (length fields)) as [Hlt|Hge].
  - rewrite lookup_insert_ne by done.
    rewrite fold_zip_None, combine_fst_take, lookup_empty.
    rewrite take_ge by lia. split; [by intros [? _]|done].
  - destruct (Nat.ltb_spec (length fields) (length fieldnames)) as [Hlt|Hge'].
    + rewrite fold_restval.
      rewrite <- (take_drop (length fields) fieldnames) at 3.
      rewrite not_elem_of_app.
      destruct (decide (k ∈ drop (length fields) fieldnames));
        [split; [done|by intros [_ ?]]|].
      rewrite fold_zip_None, combine_fst_take, lookup_empty.
      split; [by intros [? _]|by intros [? _]].
    + rewrite fold_zip_None, combine_fst_take, lookup_empty.
      rewrite take_ge by lia. split; [by intros [? _]|done].
Qed.

(** Under a column name a row holds a field or [None], never a list. *)
Lemma make_row_cell (fieldnames fields : list str) (k : str) (c : cell) :
  make_row fieldnames fields !! Some k = Some c ->
  c = CNone \/ exists s, c = CStr s.
Proof.
  unfold make_row, dict_zip.
  destruct (length fieldnames <? length fields)%nat.
  - rewrite lookup_insert_ne by done. intros H.
    apply fold_zip_Some in H as [?|H]; [by right|]. by rewrite lookup_empty in H.
  - destruct (length fields <? length fieldnames)%nat.
    + rewrite fold_restval. case_decide; [left; congruence|].
      intros Hc. apply fold_zip_Some in Hc as [?|Hc]; [by right|].
      by rewrite lookup_empty in Hc.
    + intros H. apply fold_zip_Some in H as [?|H]; [by right|].
      by rewrite lookup_empty in H.
Qed.

Lemma DictReader_row (lines : list (list str)) (i : nat) (r : row) :
  DictReader lines !! i = Some r ->
  exists fieldnames rest fields,
    lines = fieldnames :: rest /\ fields ∈ rest /\ fields <> []
    /\ r = make_row fieldnames fields.
Proof.
  destruct lines as [|fieldnames rest]; simpl; [done|].
  intros H. apply list_lookup_fmap_Some in H as (fields & -> & H).
  apply list_elem_of_lookup_2 in H. apply list_elem_of_In, filter_In in H.
  destruct H as [Hin Hnb]. exists fieldnames, rest, fields.
  split; [done|]. split; [by apply list_elem_of_In|]. split; [|done].
  by destruct fields.
Qed.

End RowFacts.

(** ** Facts about the record of one row *)

Section RecordFacts.

Variable rt : runtime.

Lemma item_get (r : row) (key : string) (c : cell) :
  truthy (get r key CNone) = true -> item r key = Ok (get r key CNone).
Proof.
  unfold get, item. by destruct (r !! Some (py key)).
Qed.

(** The two ways a coordinate is built. *)
Lemma coordinate_Ok (r : row) (key : string) (v : pyobj) :
  coordinate rt r key = Ok v ->
  (truthy (get r key CNone) = false /\ v = PNone)
  \/ (exists s f, get r key CNone = CStr s /\ s <> []
                  /\ float_of_str rt s = Some f /\ v = PFloat f).
Proof.
  unfold coordinate. destruct (truthy (get r key CNone)) eqn:T.
  - rewrite (item_get _ _ CNone T). simpl.
    destruct (get r key CNone) as [|s|l]; simpl; try discriminate.
    destruct (float_of_str rt s) as [f|] eqn:F; simpl; [|discriminate].
    intros [= <-]. right. exists s, f. repeat split; try done.
    intros ->. discriminate.
  - intros [= <-]. by left.
Qed.

(** A coordinate that is present and does not parse raises. *)
Lemma coordinate_ValueError (r : row) (key : string) (s : str) :
  get r key CNone = CStr s -> s <> [] -> float_of_str rt s = None ->
  coordinate rt r key = Raise ValueError.
Proof.
  intros G Hs F. unfold coordinate.
  assert (T : truthy (get r key CNone) = true)
    by (rewrite G; by destruct s).
  rewrite T, (item_get _ _ CNone T), G. simpl. by rewrite F.
Qed.

(** A coordinate cell that is a field or [None] yields a value or
    [ValueError]. *)
Lemma coordinate_cases (r : row) (key : string) :
  (forall l, get r key CNone <> CList l) ->
  (exists v, coordinate rt r key = Ok v)
  \/ coordinate rt r key = Raise ValueError.
Proof.
  intros Hl. unfold coordinate.
  destruct (truthy (get r key CNone)) eqn:T; [|by left; eexists].
  rewrite (item_get _ _ CNone T). simpl.
  destruct (get r key CNone) as [|s|l]; simpl; try discriminate.
  - destruct (float_of_str rt s); simpl; [left; by eexists|by right].
  - by destruct (Hl l).
Qed.

(** What a row that converts holds, and the record built from it. *)
Lemma make_rec_Ok (r : row) (rec : pyobj) :
  make_rec rt r = Ok rec ->
  exists atlas title text latitude longitude,
    get r "AtlasNumber" (CStr []) = CStr atlas
    /\ get r "MarkerTitle" (CStr []) = CStr title
    /\ get r "MarkerText" (CStr []) = CStr text
    /\ coordinate rt r "Latitude" = Ok latitude
    /\ coordinate rt r "Longitude" = Ok longitude
    /\ rec = PDict [
         (py "id", PStr (py "tx-thc-" ++ strip atlas));
         (py "title", PStr (strip title));
         (py "description", PStr (strip text));
         (py "date_installed", obj (get r "YearMarkerErected" (CStr [])));
         (py "coordinates", PDict [
            (py "latitude", latitude);
            (py "longitude", longitude)]);
         (py "address", PDict [
            (py "city", obj (get r "City" (CStr [])));
            (py "county", obj (get r "County" (CStr [])));
            (py "state", PStr (py "TX"))]);
         (py "images", PList []);
         (py "source", PList [PDict [
            (py "name", PStr (py "Texas Historical Commission"));
            (py "url",
             PStr (py "https://atlas.thc.texas.gov/Data/DataDownload"));
            (py "source_id", PStr atlas)]]);
         (py "type", PStr (py "state marker (TX)"));
         (py "tags", PList []);
         (py "confidence", PFloat confidence_0_9)].
Proof.
  unfold make_rec. intros H.
  destruct (get r "AtlasNumber" (CStr [])) as [|atlas|] eqn:G1;
    simpl in H; try discriminate.
  destruct (get r "MarkerTitle" (CStr [])) as [|title|] eqn:G2;
    simpl in H; try discriminate.
  destruct (get r "MarkerText" (CStr [])) as [|text|] eqn:G3;
    simpl in H; try discriminate.
  destruct (coordinate rt r "Latitude") as [latitude|] eqn:C1;
    simpl in H; try discriminate.
  destruct (coordinate rt r "Longitude") as [longitude|] eqn:C2;
    simpl in H; try discriminate.
  exists atlas, title, text, latitude, longitude.
  repeat split; try done. injection H as <-. reflexivity.
Qed.

(** [None] where a string is stripped raises. *)
Lemma make_rec_AttributeError (r : row) :
  get r "AtlasNumber" (CStr []) = CNone
  \/ get r "MarkerTitle" (CStr []) = CNone
  \/ get r "MarkerText" (CStr []) = CNone ->
  make_rec rt r = Raise AttributeError.
Proof.
  unfold make_rec. intros [H|[H|H]].
  - by rewrite H.
  - rewrite H. by destruct (get r "AtlasNumber" (CStr [])).
  - rewrite H. destruct (get r "AtlasNumber" (CStr [])); try done.
    by destruct (get r "MarkerTitle" (CStr [])).
Qed.

End RecordFacts.

(** ** Concrete inputs *)

Module Scenario.

Definition header : list str :=
  map py ["AtlasNumber"; "MarkerTitle"; "MarkerText"; "YearMarkerErected";
          "Latitude"; "Longitude"; "City"; "County"]%string.

(** The Alamo row of the specification. *)
Definition alamo : list str :=
  map py ["5535"; " Alamo "; "Remember the Alamo."; "1936";
          "29.4260"; "-98.4861"; "San Antonio"; "Bexar"]%string.

(** A row whose latitude is not a number. *)
Definition no_latitude : list str :=
  map py ["77"; "Mission"; "Old mission."; "1968";
          "N/A"; "-97.1"; "Goliad"; "Goliad"]%string.

(** A row with padded fields and no coordinates. *)
Definition padded : list str :=
  map py [" 12 "; "Depot "; " A depot."; " 1970 ";
          ""; ""; " Waco "; " McLennan "]%string.

(** A line that stops after the longitude: two fields short. *)
Definition short : list str :=
  map py ["9"; "Fort"; "A fort."; "1936"; "31.5"; "-100.25"]%string.

(** A row whose coordinates are numbers, but of no place on Earth. *)
Definition far_away : list str :=
  map py ["88"; "Far"; "Far away."; "2001";
          "123.5"; "-500"; "Nowhere"; "None"]%string.

(** A line that stops after the atlas number. *)
Definition very_short : list str := map py ["10"]%string.

(** The text of a CSV file with these lines. *)
Definition csv (lines : list (list str)) : str :=
  flat_map (fun l => Json.join [44] l ++ [10]) lines.

Definition world_of (lines : list (list str)) : world :=
  {| files := {[ INPUT := TextFile (csv lines) ]}; stdout := [] |}.

Definition good : world := world_of [header; alamo; padded; short].
Definition far : world := world_of [header; far_away].
Definition bad_latitude : world := world_of [header; alamo; no_latitude; padded].
Definition truncated_line : world := world_of [header; alamo; very_short].

Definition records_of (o : outcome) : list pyobj :=
  match o with
  | Finished records _ => records
  | Crashed _ records _ => records
  end.

Definition world_after (o : outcome) : world :=
  match o with
  | Finished _ w => w
  | Crashed _ _ w => w
  end.

Definition good_records : list pyobj := records_of (main Reference.rt good).
Definition good_after : world := world_after (main Reference.rt good).

Lemma good_finishes :
  main Reference.rt good = Finished good_records good_after.
Proof. vm_compute. apply eq_refl. Qed.

Lemma good_rows :
  input_rows Reference.rt good
  = [make_row header alamo; make_row header padded; make_row header short].
Proof. reflexivity. Qed.

End Scenario.

(** A world whose input holds a title with characters beyond ASCII, one
    of them beyond the basic plane. *)
Definition accented : world :=
  Scenario.world_of
    [Scenario.header;
     [py "71"; [67; 97; 102; 233; 32; 128512]; py "A marker.";
      py "1999"; py "30.5"; py "-97.25"; py "Austin"; py "Travis"]].

(** ** Facts about [strip] *)

Section StripFacts.

Lemma lstrip_forallb (p : N -> bool) (s : str) :
  forallb p s = true -> forallb p (lstrip s) = true.
Proof.
  induction s as [|c s IH]; [done|]. simpl.
  destruct (isspace c); [|done]. by intros [_ H]%andb_prop; apply IH.
Qed.

Lemma rev_forallb (p : N -> bool) (s : str) :
  forallb p s = true -> forallb p (rev s) = true.
Proof.
  induction s as [|c s IH]; [done|]. simpl. intros [Hc Hs]%andb_prop.
  rewrite forallb_app, (IH Hs). simpl. by rewrite Hc.
Qed.

Lemma lstrip_split (s : str) :
  exists before, s = before ++ lstrip s /\ forallb isspace before = true.
Proof.
  induction s as [|c s (b & E & Hb)]; [by exists []|]. simpl.
  destruct (isspace c) eqn:Hc; [|by exists []].
  exists (c :: b). simpl. rewrite Hc, Hb. split; [by rewrite <- E|done].
Qed.

Lemma rstrip_split (s : str) :
  exists after, s = rstrip s ++ after /\ forallb isspace after = true.
Proof.
  destruct (lstrip_split (rev s)) as (b & E & Hb). exists (rev b).
  split; [|by apply rev_forallb]. unfold rstrip.
  rewrite <- rev_app_distr, <- E. by rewrite rev_involutive.
Qed.

Lemma lstrip_head (s : str) (c : N) (t : str) :
  lstrip s = c :: t -> isspace c = false.
Proof.
  induction s as [|x s IH]; simpl; [done|].
  destruct (isspace x) eqn:E; [done|]. by intros [= <- <-].
Qed.

Lemma lstrip_snoc (s : str) (c : N) :
  isspace c = false -> lstrip (s ++ [c]) = lstrip s ++ [c].
Proof.
  intros Hc. induction s as [|x s IH]; simpl; [by rewrite Hc|].
  by destruct (isspace x).
Qed.

Lemma rstrip_head (c : N) (t : str) :
  isspace c = false -> exists t', rstrip (c :: t) = c :: t'.
Proof.
  intros Hc. unfold rstrip. simpl. rewrite (lstrip_snoc _ _ Hc).
  rewrite rev_app_distr. simpl. by eexists.
Qed.

Lemma rstrip_last (s : str) (c : N) :
  last (rstrip s) = Some c -> isspace c = false.
Proof.
  unfold rstrip. destruct (lstrip (rev s)) as [|x t] eqn:E; [done|].
  simpl. rewrite last_snoc. intros [= <-]. by eapply lstrip_head.
Qed.

(** What [strip] returns neither starts nor ends with white space. *)
Lemma strip_is_tight (s : str) : tight (strip s).
Proof.
  unfold strip. split.
  - intros c t H. destruct (lstrip s) as [|x u] eqn:E; [done|].
    pose proof (lstrip_head _ _ _ E) as Hx.
    destruct (rstrip_head x u Hx) as [t' Ht]. rewrite Ht in H.
    by injection H as <- _.
  - apply rstrip_last.
Qed.

(** [strip] takes white space away at both ends, all of it and nothing
    else. *)
Lemma strip_trimmed (s : str) : trimmed_of s (strip s).
Proof.
  split; [|apply strip_is_tight].
  destruct (lstrip_split s) as (b & E1 & Hb).
  destruct (rstrip_split (lstrip s)) as (a & E2 & Ha).
  exists b, a. split; [|done]. unfold strip. by rewrite <- E2.
Qed.

End StripFacts.

(** ** Facts about the columns of a row *)

Section ColumnFacts.

Variable rt : runtime.

Lemma input_row_cell w i r k c :
  input_rows rt w !! i = Some r -> r !! Some k = Some c ->
  c = CNone \/ exists s, c = CStr s.
Proof.
  intros Hi Hk. apply DictReader_row in Hi as (h & rest & f & _ & _ & _ & ->).
  by eapply make_row_cell.
Qed.

Lemma input_rows_from_reader (w : world) (i : nat) (r : row) :
  input_rows rt w !! i = Some r -> from_reader r.
Proof. intros H k c. by eapply input_row_cell. Qed.

Lemma Forall2_map_l {A B C} (P : B -> C -> Prop) (f : A -> B)
  (l : list A) (k : list C) :
  Forall2 P (map f l) k -> Forall2 (fun x y => P (f x) y) l k.
Proof.
  revert k. induction l as [|x l IH]; intros k H; inversion H; subst;
    constructor; [done|by apply IH].
Qed.

(** The rows of a [DictReader] are the data lines under the header. *)
Lemma DictReader_data_lines (lines : list (list str)) :
  DictReader lines = map (make_row (hd [] lines)) (data_lines lines).
Proof.
  destruct lines as [|fieldnames rest]; [done|]. unfold data_lines. simpl.
  f_equal. induction rest as [|[|c l] rest IH]; simpl; by rewrite ?IH.
Qed.

Lemma get_trimmed_column (r : row) (key : string) (raw : str) :
  get r key (CStr []) = CStr raw -> trimmed_column r key (strip raw).
Proof.
  unfold get, trimmed_column.
  destruct (r !! Some (py key)) as [[|s|l]|]; try done.
  - intros [= ->]. apply strip_trimmed.
  - by intros [= <-].
Qed.

Lemma get_raw_column (r : row) (key : string) :
  from_reader r -> raw_column r key (obj (get r key (CStr []))).
Proof.
  intros Hr. unfold get, raw_column.
  destruct (r !! Some (py key)) as [[|s|l]|] eqn:E; try done.
  by destruct (Hr _ _ E) as [?|[? ?]].
Qed.





End ColumnFacts.

(** ** The claims about single records *)

(** C1.  In a run that finishes, the record at position [i] is built from
    the row at position [i], and its [id] is ["tx-thc-"] followed by the
    text of the row's [AtlasNumber] column without the white space around
    it: the column's text is white space, this suffix, white space, and
    the suffix neither starts nor ends with white space.  The suffix is
    empty when the header has no such column. *)
Theorem C1_id_is_prefix_and_trimmed_atlas_number
  (rt : runtime) (w w' : world) (records : list pyobj) (i : nat) (r : row) :
  main rt w = Finished records w' ->
  input_rows rt w !! i = Some r ->
  exists rec suffix,
    records !! i = Some rec
    /\ getitem rec "id" = Some (PStr (py "tx-thc-" ++ suffix))
    /\ trimmed_column r "AtlasNumber" suffix.
Proof.
  intros Hmain Hrow.
  destruct (main_Finished_row rt _ _ _ _ _ Hmain Hrow) as (rec & Hrec & Hc).
  apply make_rec_Ok in Hc
    as (atlas & title & text & lat & lon & Ga & _ & _ & _ & _ & ->).
  eexists; exists (strip atlas). split; [exact Hrec|].
  split; [reflexivity|]. by apply get_trimmed_column.
Qed.

Lemma C1_witness :
  exists rec suffix,
    Scenario.good_records !! 1%nat = Some rec
    /\ getitem rec "id" = Some (PStr (py "tx-thc-" ++ suffix))
    /\ trimmed_column (make_row Scenario.header Scenario.padded)
         "AtlasNumber" suffix.
Proof.
  apply (C1_id_is_prefix_and_trimmed_atlas_number
           Reference.rt Scenario.good Scenario.good_after).
  - vm_compute. apply eq_refl.
  - reflexivity.
Defined.



(** A latitude of 123.5 and a longitude of -500 are no place on Earth;
    the run keeps them as they are.  An empty coordinate gives null. *)
Example out_of_range_coordinates_are_kept :
  (exists rec,
     Scenario.records_of (main Reference.rt Scenario.far) = [rec]
     /\ getitem rec "coordinates"
        = Some (PDict [
            (py "latitude", PFloat (S754_finite false 8690539905941504 (-46)));
            (py "longitude",
             PFloat (S754_finite true 8796093022208000 (-44)))]))
  /\ (exists rec,
        Scenario.good_records !! 1%nat = Some rec
        /\ getitem rec "coordinates"
           = Some (PDict [(py "latitude", PNone); (py "longitude", PNone)])).
Proof.
  split; eexists; split; vm_compute; apply eq_refl.
Qed.

(** C5.  In a run that finishes, three fields of a record are trimmed:
    [id] (after its prefix), [title] and [description] are the texts of
    [AtlasNumber], [MarkerTitle] and [MarkerText] without the white space
    around them.  [date_installed], [city], [county] and [source_id] are
    the columns [YearMarkerErected], [City], [County] and [AtlasNumber]
    as they were read, white space included. *)
Theorem C5_only_three_fields_are_trimmed
  (rt : runtime) (w w' : world) (records : list pyobj) (i : nat) (r : row) :
  main rt w = Finished records w' ->
  input_rows rt w !! i = Some r ->
  exists rec suffix title description date_installed
         address city county source source_id,
    records !! i = Some rec
    /\ getitem rec "id" = Some (PStr (py "tx-thc-" ++ suffix))
    /\ trimmed_column r "AtlasNumber" suffix
    /\ getitem rec "title" = Some (PStr title)
    /\ trimmed_column r "MarkerTitle" title
    /\ getitem rec "description" = Some (PStr description)
    /\ trimmed_column r "MarkerText" description
    /\ getitem rec "date_installed" = Some date_installed
    /\ raw_column r "YearMarkerErected" date_installed
    /\ getitem rec "address" = Some address
    /\ getitem address "city" = Some city
    /\ raw_column r "City" city
    /\ getitem address "county" = Some county
    /\ raw_column r "County" county
    /\ getitem rec "source" = Some (PList [source])
    /\ getitem source "source_id" = Some source_id
    /\ raw_column r "AtlasNumber" source_id.
Proof.
  intros Hmain Hrow. pose proof (input_rows_from_reader rt _ _ _ Hrow) as Hr.
  destruct (main_Finished_row rt _ _ _ _ _ Hmain Hrow) as (rec & Hrec & Hc).
  apply make_rec_Ok in Hc
    as (atlas & title & text & lat & lon & Ga & Gt & Gx & _ & _ & ->).
  pose proof (get_raw_column r "AtlasNumber" Hr) as Hraw. rewrite Ga in Hraw.
  eexists; exists (strip atlas), (strip title), (strip text).
  do 6 eexists. split; [exact Hrec|].
  repeat split; try reflexivity;
    first [by apply get_trimmed_column | by apply get_raw_column | exact Hraw].
Qed.

Lemma C5_witness :
  exists rec suffix title description date_installed
         address city county source source_id,
    Scenario.good_records !! 1%nat = Some rec
    /\ getitem rec "id" = Some (PStr (py "tx-thc-" ++ suffix))
    /\ trimmed_column (make_row Scenario.header Scenario.padded)
         "AtlasNumber" suffix
    /\ getitem rec "title" = Some (PStr title)
    /\ trimmed_column (make_row Scenario.header Scenario.padded)
         "MarkerTitle" title
    /\ getitem rec "description" = Some (PStr description)
    /\ trimmed_column (make_row Scenario.header Scenario.padded)
         "MarkerText" description
    /\ getitem rec "date_installed" = Some date_installed
    /\ raw_column (make_row Scenario.header Scenario.padded)
         "YearMarkerErected" date_installed
    /\ getitem rec "address" = Some address
    /\ getitem address "city" = Some city
    /\ raw_column (make_row Scenario.header Scenario.padded) "City" city
    /\ getitem address "county" = Some county
    /\ raw_column (make_row Scenario.header Scenario.padded) "County" county
    /\ getitem rec "source" = Some (PList [source])
    /\ getitem source "source_id" = Some source_id
    /\ raw_column (make_row Scenario.header Scenario.padded)
         "AtlasNumber" source_id.
Proof.
  apply (C5_only_three_fields_are_trimmed
           Reference.rt Scenario.good Scenario.good_after).
  - vm_compute. apply eq_refl.
  - reflexivity.
Defined.

(** The padded row of the scenario: the three stripped fields lose their
    padding, the others keep it. *)
Example padded_record :
  Scenario.good_records !! 1%nat
  = Some (PDict [
      (py "id", PStr (py "tx-thc-12"));
      (py "title", PStr (py "Depot"));
      (py "description", PStr (py "A depot."));
      (py "date_installed", PStr (py " 1970 "));
      (py "coordinates", PDict [
         (py "latitude", PNone);
         (py "longitude", PNone)]);
      (py "address", PDict [
         (py "city", PStr (py " Waco "));
         (py "county", PStr (py " McLennan "));
         (py "state", PStr (py "TX"))]);
      (py "images", PList []);
      (py "source", PList [PDict [
         (py "name", PStr (py "Texas Historical Commission"));
         (py "url", PStr (py "https://atlas.thc.texas.gov/Data/DataDownload"));
         (py "source_id", PStr (py " 12 "))]]);
      (py "type", PStr (py "state marker (TX)"));
      (py "tags", PList []);
      (py "confidence", PFloat confidence_0_9)]).
Proof. vm_compute. apply eq_refl. Qed.

(** C6.  In a run that finishes, the [source] of a record is a list of
    exactly one dictionary: the name and the URL are constants, and
    [source_id] is the row's [AtlasNumber] as it was read, white space
    included, while [id] is built from the same column without the white
    space around it. *)
Theorem C6_source_is_one_entry_with_the_raw_atlas_number
  (rt : runtime) (w w' : world) (records : list pyobj) (i : nat) (r : row) :
  main rt w = Finished records w' ->
  input_rows rt w !! i = Some r ->
  exists rec source_id suffix,
    records !! i = Some rec
    /\ getitem rec "source"
       = Some (PList [PDict [
           (py "name", PStr (py "Texas Historical Commission"));
           (py "url",
            PStr (py "https://atlas.thc.texas.gov/Data/DataDownload"));
           (py "source_id", source_id)]])
    /\ raw_column r "AtlasNumber" source_id
    /\ getitem rec "id" = Some (PStr (py "tx-thc-" ++ suffix))
    /\ trimmed_column r "AtlasNumber" suffix.
Proof.
  intros Hmain Hrow. pose proof (input_rows_from_reader rt _ _ _ Hrow) as Hr.
  destruct (main_Finished_row rt _ _ _ _ _ Hmain Hrow) as (rec & Hrec & Hc).
  apply make_rec_Ok in Hc
    as (atlas & title & text & lat & lon & Ga & _ & _ & _ & _ & ->).
  pose proof (get_raw_column r "AtlasNumber" Hr) as Hraw. rewrite Ga in Hraw.
  eexists; exists (PStr atlas), (strip atlas). split; [exact Hrec|].
  split; [reflexivity|]. split; [exact Hraw|]. split; [reflexivity|].
  by apply get_trimmed_column.
Qed.

Lemma C6_witness :
  exists rec source_id suffix,
    Scenario.good_records !! 1%nat = Some rec
    /\ getitem rec "source"
       = Some (PList [PDict [
           (py "name", PStr (py "Texas Historical Commission"));
           (py "url",
            PStr (py "https://atlas.thc.texas.gov/Data/DataDownload"));
           (py "source_id", source_id)]])
    /\ raw_column (make_row Scenario.header Scenario.padded)
         "AtlasNumber" source_id
    /\ getitem rec "id" = Some (PStr (py "tx-thc-" ++ suffix))
    /\ trimmed_column (make_row Scenario.header Scenario.padded)
         "AtlasNumber" suffix.
Proof.
  apply (C6_source_is_one_entry_with_the_raw_atlas_number
           Reference.rt Scenario.good Scenario.good_after).
  - vm_compute. apply eq_refl.
  - reflexivity.
Defined.

Lemma get_lookup (r : row) (key : string) (c default : cell) :
  r !! Some (py key) = Some c -> get r key default = c.
Proof. unfold get. by intros ->. Qed.

Lemma make_rec_alamo (rt : runtime) (r : row) :
  is_alamo r ->
  float_of_str rt (py "29.4260") = Some float_29_426 ->
  float_of_str rt (py "-98.4861") = Some float_minus_98_4861 ->
  make_rec rt r = Ok alamo_record.
Proof.
  intros (Ha & Ht & Hx & Hy & Hlat & Hlon & Hc & Hk) Flat Flon.
  unfold make_rec, coordinate, item.
  rewrite (get_lookup _ _ _ _ Ha), (get_lookup _ _ _ _ Ht),
    (get_lookup _ _ _ _ Hx), (get_lookup _ _ _ _ Hy),
    (get_lookup _ _ _ _ Hlat), (get_lookup _ _ _ _ Hlon),
    (get_lookup _ _ _ _ Hc), (get_lookup _ _ _ _ Hk), Hlat, Hlon.
  simpl. rewrite Flat, Flon. reflexivity.
Qed.

(** C7.  In a run that finishes, every record has [images] and [tags]
    empty lists, [type] the string ["state marker (TX)"], [confidence]
    the float 0.9 and [address.state] the string ["TX"]; and the record of
    the Alamo row is the one the specification lists, provided [float]
    returns the nearest binary64 values for the two coordinates. *)
Theorem C7_constant_fields_and_the_alamo_record
  (rt : runtime) (w w' : world) (records : list pyobj) (i : nat) (r : row) :
  main rt w = Finished records w' ->
  input_rows rt w !! i = Some r ->
  exists rec address,
    records !! i = Some rec
    /\ getitem rec "images" = Some (PList [])
    /\ getitem rec "tags" = Some (PList [])
    /\ getitem rec "type" = Some (PStr (py "state marker (TX)"))
    /\ getitem rec "confidence" = Some (PFloat confidence_0_9)
    /\ getitem rec "address" = Some address
    /\ getitem address "state" = Some (PStr (py "TX"))
    /\ (is_alamo r ->
        float_of_str rt (py "29.4260") = Some float_29_426 ->
        float_of_str rt (py "-98.4861") = Some float_minus_98_4861 ->
        rec = alamo_record).
Proof.
  intros Hmain Hrow.
  destruct (main_Finished_row rt _ _ _ _ _ Hmain Hrow) as (rec & Hrec & Hc).
  pose proof Hc as Hc'. apply make_rec_Ok in Hc'
    as (atlas & title & text & lat & lon & _ & _ & _ & _ & _ & Heq).
  exists rec. eexists. split; [exact Hrec|]. subst rec.
  repeat split; try reflexivity.
  intros Hr Flat Flon. unfold converts in Hc.
  rewrite (make_rec_alamo rt r Hr Flat Flon) in Hc. congruence.
Qed.

Lemma C7_witness :
  exists rec address,
    Scenario.good_records !! 0%nat = Some rec
    /\ getitem rec "images" = Some (PList [])
    /\ getitem rec "tags" = Some (PList [])
    /\ getitem rec "type" = Some (PStr (py "state marker (TX)"))
    /\ getitem rec "confidence" = Some (PFloat confidence_0_9)
    /\ getitem rec "address" = Some address
    /\ getitem address "state" = Some (PStr (py "TX"))
    /\ (is_alamo (make_row Scenario.header Scenario.alamo) ->
        float_of_str Reference.rt (py "29.4260") = Some float_29_426 ->
        float_of_str Reference.rt (py "-98.4861") = Some float_minus_98_4861 ->
        rec = alamo_record).
Proof.
  apply (C7_constant_fields_and_the_alamo_record
           Reference.rt Scenario.good Scenario.good_after).
  - vm_compute. apply eq_refl.
  - reflexivity.
Defined.

(** The Alamo scenario on the reference runtime: the premises of C7 hold
    and the record is the listed one; the literal [0.9] of the script is
    what [float] makes of ["0.9"]. *)
Example alamo_scenario :
  is_alamo (make_row Scenario.header Scenario.alamo)
  /\ float_of_str Reference.rt (py "29.4260") = Some float_29_426
  /\ float_of_str Reference.rt (py "-98.4861") = Some float_minus_98_4861
  /\ float_of_str Reference.rt (py "0.9") = Some confidence_0_9
  /\ Scenario.good_records !! 0%nat = Some alamo_record.
Proof. repeat split; vm_compute; apply eq_refl. Qed.

(** ** The claims about whole runs *)

Lemma make_rec_unparsable rt r :
  (forall k c, r !! Some k = Some c -> c = CNone \/ exists s, c = CStr s) ->
  unparsable rt r "Latitude" \/ unparsable rt r "Longitude" ->
  exists e, make_rec rt r = Raise e
            /\ (e = ValueError \/ e = AttributeError)
            /\ (text_columns_are_strings r -> e = ValueError).
Proof.
  intros Hcell Hbad.
  assert (Hnl : forall key l, get r key CNone <> CList l).
  { intros key l. unfold get. destruct (r !! Some (py key)) as [c|] eqn:E; [|done].
    destruct (Hcell _ _ E) as [->|[s ->]]; done. }
  assert (Hlat : coordinate rt r "Latitude" = Raise ValueError
                 \/ exists v, coordinate rt r "Latitude" = Ok v
                              /\ coordinate rt r "Longitude" = Raise ValueError).
  { destruct Hbad as [(s & G & Hs & F)|(s & G & Hs & F)].
    - left. by eapply coordinate_ValueError.
    - destruct (coordinate_cases rt r "Latitude" (Hnl _)) as [[v Hv]|Hv];
        [right|by left].
      exists v. split; [done|]. by eapply coordinate_ValueError. }
  unfold make_rec, text_columns_are_strings.
  destruct (get r "AtlasNumber" (CStr [])) as [|a|] eqn:Ga; simpl;
    try (exists AttributeError; split; [done|split; [by right|]];
         by intros (? & ? & ? & ? & _)).
  destruct (get r "MarkerTitle" (CStr [])) as [|t|] eqn:Gt; simpl;
    try (exists AttributeError; split; [done|split; [by right|]];
         by intros (? & ? & ? & _ & ? & _)).
  destruct (get r "MarkerText" (CStr [])) as [|x|] eqn:Gx; simpl;
    try (exists AttributeError; split; [done|split; [by right|]];
         by intros (? & ? & ? & _ & _ & ?)).
  exists ValueError. split; [|split; [by left|done]].
  destruct Hlat as [->|(v & -> & ->)]; done.
Qed.

(** C3.  If the latitude or the longitude of a row is a non-empty string
    that [float] rejects, the run ends with an uncaught exception and in
    the world it started in: nothing was written, neither file was opened
    for writing.  The records built by then are those of the rows before
    the one that raised, which is this row or an earlier one; when every
    earlier row converts it is this row, and the exception is [ValueError]
    unless one of the stripped columns is [None], which raises first. *)
Theorem C3_unparsable_coordinate_aborts_before_any_write
  (rt : runtime) (w : world) (i : nat) (r : row) :
  input_rows rt w !! i = Some r ->
  unparsable rt r "Latitude" \/ unparsable rt r "Longitude" ->
  exists e records,
    main rt w = Crashed e records w
    /\ (length records <= i)%nat
    /\ Forall2 (converts rt) (take (length records) (input_rows rt w)) records
    /\ ((forall j r', (j < i)%nat -> input_rows rt w !! j = Some r' ->
           exists rec, converts rt r' rec) ->
        length records = i
        /\ (e = ValueError \/ e = AttributeError)
        /\ (text_columns_are_strings r -> e = ValueError)).
Proof.
  intros Hi Hbad.
  destruct (make_rec_unparsable rt r) as (e0 & He0 & Hor & Hstr); [|done|].
  { intros k c. by eapply input_row_cell. }
  destruct (main_raise rt w i r e0 Hi He0) as (e & records & Hm & Hle & F & Hp).
  exists e, records. repeat split; try done.
  - by apply Hp.
  - destruct (Hp H) as [_ ->]. done.
  - intros Hs. destruct (Hp H) as [_ ->]. by apply Hstr.
Qed.

Lemma C3_witness :
  exists e records,
    main Reference.rt Scenario.bad_latitude
    = Crashed e records Scenario.bad_latitude
    /\ (length records <= 1)%nat
    /\ Forall2 (converts Reference.rt)
         (take (length records) (input_rows Reference.rt Scenario.bad_latitude))
         records
    /\ ((forall j r', (j < 1)%nat ->
           input_rows Reference.rt Scenario.bad_latitude !! j = Some r' ->
           exists rec, converts Reference.rt r' rec) ->
        length records = 1%nat
        /\ (e = ValueError \/ e = AttributeError)
        /\ (text_columns_are_strings
              (make_row Scenario.header Scenario.no_latitude) ->
            e = ValueError)).
Proof.
  apply (C3_unparsable_coordinate_aborts_before_any_write
           Reference.rt Scenario.bad_latitude 1).
  - reflexivity.
  - left. exists (py "N/A"). repeat split; vm_compute; congruence.
Defined.

(** The malformed-coordinate scenario: the second row has the latitude
    ["N/A"]; the run raises [ValueError] with one record built, and the
    file system holds the input file only. *)
Example malformed_coordinate_scenario :
  main Reference.rt Scenario.bad_latitude
  = Crashed ValueError [alamo_record] Scenario.bad_latitude
  /\ files Scenario.bad_latitude !! OUTPUT = None
  /\ files Scenario.bad_latitude !! ZIP = None.
Proof. repeat split; vm_compute; apply eq_refl. Qed.

Lemma make_rec_schema rt r rec :
  make_rec rt r = Ok rec -> schema_ordered rec.
Proof.
  intros H. apply make_rec_Ok in H as (a & t & x & lat & lon & _ & _ & _ & _ & _ & ->).
  repeat split; try (eexists; split; reflexivity).
Qed.

(** The outcome of a run depends on the world through the input file
    only: two worlds with the same input file end the same way, with the
    same records. *)
Lemma main_input_only rt w1 w2 :
  files w1 !! INPUT = files w2 !! INPUT ->
  match main rt w1, main rt w2 with
  | Finished r1 _, Finished r2 _ => r1 = r2
  | Crashed e1 r1 _, Crashed e2 r2 _ => e1 = e2 /\ r1 = r2
  | _, _ => False
  end.
Proof.
  intros H. unfold main, read_text, write_stream. rewrite <- H.
  destruct (files w1 !! INPUT) as [[text|]|]; try done.
  destruct (csv_reader rt text) as [lines failure].
  destruct (loop rt (DictReader lines) []) as [[e recs]|recs]; [done|].
  destruct failure; [done|].
  destruct (output_access rt OUTPUT) as [| |n]; [|done|].
  - destruct (encodable (Json.dump_pretty _ _)); [|done].
    destruct (output_access rt ZIP) as [| |m]; [|done|].
    + destruct (encodable (Json.dump_compact _ _)); done.
    + by destruct (encodable (take m _)).
  - by destruct (encodable (take n _)).
Qed.

(** C9.  The plain JSON file is a function of the input file: a run that
    finishes, repeated in any world with the same input file (in
    particular in the world that the first run left), finishes with the
    same records and leaves the same text in the plain JSON file; and
    every record has the keys of the schema in the order of the schema,
    which is the order the encoder writes them in. *)
Theorem C9_same_input_same_plain_output_in_schema_order
  (rt : runtime) (w1 w2 w1' : world) (records : list pyobj) :
  main rt w1 = Finished records w1' ->
  files w2 !! INPUT = files w1 !! INPUT ->
  (exists w2', main rt w2 = Finished records w2'
               /\ files w2' !! OUTPUT = files w1' !! OUTPUT)
  /\ (exists w1'', main rt w1' = Finished records w1''
                   /\ files w1'' !! OUTPUT = files w1' !! OUTPUT)
  /\ files w1' !! OUTPUT
     = Some (TextFile (Json.dump_pretty (float_repr rt) (PList records)))
  /\ Forall schema_ordered records.
Proof.
  intros Hmain Hin.
  assert (Hsame : forall w, files w !! INPUT = files w1 !! INPUT ->
            exists w', main rt w = Finished records w'
                       /\ files w' !! OUTPUT = files w1' !! OUTPUT).
  { intros w Hw. pose proof (main_input_only rt w w1 Hw) as Hm.
    rewrite Hmain in Hm. destruct (main rt w) as [r2 w'|] eqn:E; [|done].
    subst r2. exists w'. split; [done|].
    apply main_Finished in E as (? & ? & _ & _ & _ & ->).
    apply main_Finished in Hmain as (? & ? & _ & _ & _ & ->). simpl.
    rewrite !(lookup_insert_ne _ ZIP OUTPUT) by done.
    by rewrite !lookup_insert_eq. }
  split; [by apply Hsame|]. split; [|split].
  - apply Hsame.
    pose proof Hmain as Hm. apply main_Finished in Hm as (? & ? & _ & _ & _ & ->).
    simpl. by rewrite !lookup_insert_ne.
  - apply main_Finished in Hmain as (? & ? & _ & _ & _ & ->). simpl.
    rewrite lookup_insert_ne by done. by rewrite lookup_insert_eq.
  - apply main_Finished_rows in Hmain.
    apply Forall_lookup_2. intros j rec Hj.
    destruct (Forall2_lookup_r _ _ _ _ _ Hmain Hj) as (r & _ & Hc).
    by eapply make_rec_schema.
Qed.

Lemma C9_witness :
  (exists w2', main Reference.rt Scenario.good_after
               = Finished Scenario.good_records w2'
               /\ files w2' !! OUTPUT = files Scenario.good_after !! OUTPUT)
  /\ (exists w1'', main Reference.rt Scenario.good_after
                   = Finished Scenario.good_records w1''
                   /\ files w1'' !! OUTPUT = files Scenario.good_after !! OUTPUT)
  /\ files Scenario.good_after !! OUTPUT
     = Some (TextFile (Json.dump_pretty (float_repr Reference.rt)
                         (PList Scenario.good_records)))
  /\ Forall schema_ordered Scenario.good_records.
Proof.
  apply (C9_same_input_same_plain_output_in_schema_order
           Reference.rt Scenario.good Scenario.good_after Scenario.good_after).
  - vm_compute. apply eq_refl.
  - reflexivity.
Defined.

(** The keys reach the text in the order of the dictionary: the encoder
    maps over the items from first to last. *)
Example keys_are_written_in_order :
  Json.dump_compact (float_repr Reference.rt)
    (PDict [(py "id", PStr (py "x")); (py "title", PNone);
            (py "confidence", PFloat (S754_zero false))])
  = [123; 34; 105; 100; 34; 58; 32; 34; 120; 34; 44; 32;
     34; 116; 105; 116; 108; 101; 34; 58; 32; 110; 117; 108; 108; 44; 32;
     34; 99; 111; 110; 102; 105; 100; 101; 110; 99; 101; 34; 58; 32;
     48; 46; 48; 125].
Proof. vm_compute. apply eq_refl. Qed.

(** C10.  The default of [row.get] applies to a column that the header
    does not have, and to no other: for a line with fewer fields than the
    header, the row maps every column beyond the line to [None].  When
    [AtlasNumber], [MarkerTitle] or [MarkerText] is such a column,
    [.strip()] raises [AttributeError] and the run crashes in the world it
    started in; when [YearMarkerErected], [City] or [County] is, the
    record holds [None] there, which is written as [null]. *)
Theorem C10_short_line_maps_missing_columns_to_None
  (rt : runtime) (w : world) (i : nat) (fieldnames fields : list str) :
  input_rows rt w !! i = Some (make_row fieldnames fields) ->
  (length fields < length fieldnames)%nat ->
  let r := make_row fieldnames fields in
  let missing := drop (length fields) fieldnames in
  (forall k, k ∈ missing -> r !! Some k = Some CNone)
  /\ (forall k, r !! Some k = None <-> k ∉ fieldnames)
  /\ (py "AtlasNumber" ∈ missing \/ py "MarkerTitle" ∈ missing
      \/ py "MarkerText" ∈ missing ->
      make_rec rt r = Raise AttributeError
      /\ exists e records,
           main rt w = Crashed e records w /\ (length records <= i)%nat
           /\ ((forall j r', (j < i)%nat -> input_rows rt w !! j = Some r' ->
                  exists rec, converts rt r' rec) ->
               length records = i /\ e = AttributeError))
  /\ (forall rec, make_rec rt r = Ok rec ->
        (py "YearMarkerErected" ∈ missing ->
         getitem rec "date_installed" = Some PNone)
        /\ (exists address,
              getitem rec "address" = Some address
              /\ (py "City" ∈ missing -> getitem address "city" = Some PNone)
              /\ (py "County" ∈ missing ->
                  getitem address "county" = Some PNone)))
  /\ (forall ensure_ascii indent level,
        Json.iterencode (float_repr rt) ensure_ascii indent level PNone
        = py "null").
Proof.
  intros Hi Hlt r missing.
  assert (Hmiss : forall k, k ∈ missing -> r !! Some k = Some CNone)
    by (intros k; by apply make_row_short).
  assert (Hget : forall key, py key ∈ missing -> get r key (CStr []) = CNone).
  { intros key Hk. unfold get. by rewrite (Hmiss _ Hk). }
  split; [done|]. split; [intros k; apply make_row_None|].
  split; [|split; [|done]].
  - intros Hk.
    assert (He : make_rec rt r = Raise AttributeError).
    { apply make_rec_AttributeError.
      destruct Hk as [Hk|[Hk|Hk]]; rewrite (Hget _ Hk); tauto. }
    split; [done|].
    destruct (main_raise rt w i r _ Hi He) as (e & records & Hm & Hle & _ & Hp).
    by exists e, records.
  - intros rec Hrec.
    apply make_rec_Ok in Hrec as (a & t & x & lat & lon & _ & _ & _ & _ & _ & ->).
    split.
    + intros Hk. simpl. by rewrite (Hget _ Hk).
    + eexists. split; [reflexivity|]. split; intros Hk; simpl;
        by rewrite (Hget _ Hk).
Qed.

Lemma C10_witness :
  let r := make_row Scenario.header Scenario.short in
  let missing := drop (length Scenario.short) Scenario.header in
  (forall k, k ∈ missing -> r !! Some k = Some CNone)
  /\ (forall k, r !! Some k = None <-> k ∉ Scenario.header)
  /\ (py "AtlasNumber" ∈ missing \/ py "MarkerTitle" ∈ missing
      \/ py "MarkerText" ∈ missing ->
      make_rec Reference.rt r = Raise AttributeError
      /\ exists e records,
           main Reference.rt Scenario.good = Crashed e records Scenario.good
           /\ (length records <= 2)%nat
           /\ ((forall j r', (j < 2)%nat ->
                  input_rows Reference.rt Scenario.good !! j = Some r' ->
                  exists rec, converts Reference.rt r' rec) ->
               length records = 2%nat /\ e = AttributeError))
  /\ (forall rec, make_rec Reference.rt r = Ok rec ->
        (py "YearMarkerErected" ∈ missing ->
         getitem rec "date_installed" = Some PNone)
        /\ (exists address,
              getitem rec "address" = Some address
              /\ (py "City" ∈ missing -> getitem address "city" = Some PNone)
              /\ (py "County" ∈ missing ->
                  getitem address "county" = Some PNone)))
  /\ (forall ensure_ascii indent level,
        Json.iterencode (float_repr Reference.rt) ensure_ascii indent level
          PNone
        = py "null").
Proof.
  apply (C10_short_line_maps_missing_columns_to_None
           Reference.rt Scenario.good 2 Scenario.header Scenario.short).
  - reflexivity.
  - vm_compute. lia.
Defined.

(** A line that stops after the longitude: [City] and [County] are
    [None] in the row and in the record.  A line that stops after the
    atlas number: [.strip()] is called on [None] and the run crashes with
    nothing written. *)
Example short_line_scenarios :
  (rec ← Scenario.good_records !! 2%nat;
   address ← getitem rec "address";
   Some (getitem address "city", getitem address "county"))
  = Some (Some PNone, Some PNone)
  /\ main Reference.rt Scenario.truncated_line
     = Crashed AttributeError [alamo_record] Scenario.truncated_line.
Proof. split; vm_compute; apply eq_refl. Qed.

(** ** Facts about decimal numerals *)

Section NumeralFacts.

#[local] Arguments is_digit : simpl never.

(** No digit follows: the text is empty or starts with another
    character. *)
Definition no_digit_ahead (s : str) : bool :=
  match s with
  | [] => true
  | c :: _ => negb (is_digit c)
  end.

Lemma span_digits_app (s ds r rest : str) :
  span_digits s = (ds, r) ->
  r <> [] \/ no_digit_ahead rest = true ->
  span_digits (s ++ rest) = (ds, r ++ rest).
Proof.
  revert ds r. induction s as [|c s IH]; intros ds r H Hr; simpl in *.
  - injection H as <- <-. destruct Hr as [?|Hr]; [done|].
    destruct rest as [|c rest]; [done|]. simpl in *.
    by destruct (is_digit c).
  - destruct (is_digit c) eqn:D.
    + destruct (span_digits s) as [ds' r'] eqn:E. injection H as <- <-.
      by rewrite (IH _ _ eq_refl Hr).
    + by injection H as <- <-.
Qed.

Lemma span_digits_all (ds rest : str) :
  forallb is_digit ds = true -> no_digit_ahead rest = true ->
  span_digits (ds ++ rest) = (ds, rest).
Proof.
  intros Hd Hr. induction ds as [|c ds IH]; simpl in *.
  - destruct rest as [|c rest]; [done|]. simpl in *. by destruct (is_digit c).
  - apply andb_prop in Hd as [-> Hd]. by rewrite (IH Hd).
Qed.

Lemma uint_chars_digits (u : Decimal.uint) :
  forallb is_digit (uint_chars u) = true.
Proof. induction u; simpl; done. Qed.

Lemma chars_uint_chars (u : Decimal.uint) : chars_uint (uint_chars u) = u.
Proof. induction u; simpl; by rewrite ?IHu. Qed.

Lemma digits_value_decimal (n : N) : digits_value (decimal n) = n.
Proof.
  unfold digits_value, decimal. rewrite chars_uint_chars.
  apply DecimalN.Unsigned.of_to.
Qed.

(** A numeral is [0] or starts with a digit that is not [0]. *)
Definition starts_nonzero (s : str) : bool :=
  match s with
  | c :: _ => is_digit c && negb (c =? 48)
  | [] => false
  end.

Lemma unorm_fixpoint (u : Decimal.uint) :
  Decimal.unorm u = u ->
  u = Decimal.zero \/ starts_nonzero (uint_chars u) = true.
Proof.
  destruct u as [|u| | | | | | | | |]; try (by right).
  intros H. left. rewrite unorm_D0 in H.
  assert (Hu : u = Decimal.Nil \/ u <> Decimal.Nil)
    by (destruct u; [by left|by right..]).
  destruct Hu as [->|Hu]; [done|].
  pose proof (nb_digits_unorm u Hu) as Hn.
  rewrite H in Hn. simpl in Hn. lia.
Qed.

Lemma decimal_shape (n : N) :
  decimal n = [48] \/ starts_nonzero (decimal n) = true.
Proof.
  unfold decimal.
  destruct (unorm_fixpoint (N.to_uint n)) as [->|H]; [|by left|by right].
  pose proof (DecimalN.Unsigned.to_of (N.to_uint n)) as H.
  by rewrite DecimalN.Unsigned.of_to in H.
Qed.

Lemma decimal_pos_shape (p : positive) :
  starts_nonzero (decimal (Npos p)) = true.
Proof.
  destruct (decimal_shape (Npos p)) as [H|H]; [|done].
  pose proof (digits_value_decimal (Npos p)) as V. by rewrite H in V.
Qed.

Lemma decimal_digits (n : N) : forallb is_digit (decimal n) = true.
Proof. apply uint_chars_digits. Qed.

Lemma int_of_chars_digit (c : N) (s : str) :
  is_digit c = true ->
  int_of_chars (c :: s) = Z.of_N (digits_value (c :: s)).
Proof.
  intros H. assert (Hc : c <> 45) by (intros ->; done).
  unfold int_of_chars.
  repeat match goal with
         | |- context [match ?p with _ => _ end] => destruct p; try done
         end.
Qed.

Lemma int_of_chars_repr (z : Z) : int_of_chars (int_repr z) = z.
Proof.
  destruct z as [|p|p]; unfold int_repr.
  - done.
  - change (Z.to_N (Z.pos p)) with (Npos p).
    pose proof (decimal_pos_shape p) as H.
    pose proof (digits_value_decimal (Npos p)) as V.
    destruct (decimal (Npos p)) as [|c s]; [done|].
    apply andb_prop in H as [H _].
    by rewrite (int_of_chars_digit c s H), V.
  - unfold int_of_chars. by rewrite digits_value_decimal.
Qed.

End NumeralFacts.

(** ** Facts about string escapes *)

Section EscapeFacts.

Import Json.

Lemma hex_value_digit (d : N) : d < 16 -> hex_value (hex_digit d) = Some d.
Proof.
  intros H.
  assert (Hd : d = 0 \/ d = 1 \/ d = 2 \/ d = 3 \/ d = 4 \/ d = 5 \/ d = 6
               \/ d = 7 \/ d = 8 \/ d = 9 \/ d = 10 \/ d = 11 \/ d = 12
               \/ d = 13 \/ d = 14 \/ d = 15) by lia.
  repeat (destruct Hd as [->|Hd]; [done|]). by subst.
Qed.

Lemma hex4_value_hex4 (n : N) (t : str) :
  n < 65536 ->
  exists a b c d, hex4 n ++ t = a :: b :: c :: d :: t
                  /\ hex4_value a b c d = Some n.
Proof.
  intros H. unfold hex4. do 4 eexists. split; [reflexivity|].
  unfold hex4_value.
  rewrite !hex_value_digit by (apply N.mod_upper_bound; lia).
  f_equal.
  pose proof (N.div_mod n 16). pose proof (N.div_mod (n / 16) 16).
  pose proof (N.div_mod (n / 256) 16). pose proof (N.div_mod (n / 4096) 16).
  assert (n / 16 / 16 = n / 256) by (rewrite N.Div0.div_div by lia; done).
  assert (n / 256 / 16 = n / 4096) by (rewrite N.Div0.div_div by lia; done).
  assert (n / 4096 / 16 = 0).
  { rewrite N.Div0.div_div by lia. apply N.div_small. lia. }
  assert (n / 16 / 16 / 16 = n / 4096) by congruence.
  lia.
Qed.

(** The bits of [lo] lie below those of [hi] shifted by [k]: the
    bitwise or is the sum. *)
Lemma lor_shiftl_add (hi lo k : N) :
  lo < 2 ^ k -> N.lor (N.shiftl hi k) lo = hi * 2 ^ k + lo.
Proof.
  intros H. rewrite <- N.shiftl_mul_pow2.
  assert (L : N.land (N.shiftl hi k) lo = 0).
  { apply N.bits_inj. intros i. rewrite N.land_spec, N.bits_0.
    destruct (N.lt_ge_cases i k) as [Hi|Hi].
    - by rewrite N.shiftl_spec_low.
    - destruct (N.eq_dec lo 0) as [->|Hlo];
        [by rewrite N.bits_0, andb_false_r|].
      rewrite (N.bits_above_log2 lo i), andb_false_r; [done|].
      apply N.log2_lt_pow2; [lia|].
      eapply N.lt_le_trans; [exact H|]. by apply N.pow_le_mono_r. }
  by rewrite <- N.lxor_lor, <- N.add_nocarry_lxor.
Qed.

(** The surrogate pair of a character beyond the basic plane, and the
    character it decodes to. *)
Lemma surrogate_pair (c : N) :
  65536 <= c -> c < 1114112 ->
  let n := c - 65536 in
  let s1 := N.lor 55296 (N.land (N.shiftr n 10) 1023) in
  let s2 := N.lor 56320 (N.land n 1023) in
  (55296 <= s1 /\ s1 <= 56319) /\ (56320 <= s2 /\ s2 <= 57343)
  /\ 65536 + N.lor (N.shiftl (s1 - 55296) 10) (s2 - 56320) = c.
Proof.
  intros H1 H2 n s1 s2.
  assert (Hn : n < 1048576) by (unfold n; lia).
  assert (Hhi : N.land (N.shiftr n 10) 1023 = n / 1024).
  { change 1023 with (N.ones 10). rewrite N.land_ones, N.shiftr_div_pow2.
    change (2 ^ 10) with 1024. apply N.mod_small.
    apply N.Div0.div_lt_upper_bound; lia. }
  assert (Hlo : N.land n 1023 = n mod 1024).
  { change 1023 with (N.ones 10). by rewrite N.land_ones. }
  assert (B1 : n / 1024 < 1024) by (apply N.Div0.div_lt_upper_bound; lia).
  assert (B2 : n mod 1024 < 1024) by (apply N.mod_upper_bound; lia).
  assert (E1 : s1 = 55296 + n / 1024).
  { unfold s1. rewrite Hhi. exact (lor_shiftl_add 54 (n / 1024) 10 B1). }
  assert (E2 : s2 = 56320 + n mod 1024).
  { unfold s2. rewrite Hlo. exact (lor_shiftl_add 55 (n mod 1024) 10 B2). }
  repeat split; try lia.
  replace (s1 - 55296) with (n / 1024) by lia.
  replace (s2 - 56320) with (n mod 1024) by lia.
  rewrite (lor_shiftl_add _ _ 10 B2). change (2 ^ 10) with 1024.
  pose proof (N.div_mod n 1024). unfold n in *. lia.
Qed.

End EscapeFacts.

(** ** Scanning what the string encoders write *)

Section ScanString.

Import Json.

Definition high_surrogate (n : N) : bool := (55296 <=? n) && (n <=? 56319).
Definition low_surrogate (n : N) : bool := (56320 <=? n) && (n <=? 57343).

Lemma scanstring_u (a b c d : N) (r2 : str) :
  scanstring (backslash :: 117 :: a :: b :: c :: d :: r2)
  = match hex4_value a b c d with
    | None => None
    | Some uni =>
        if high_surrogate uni then
          match r2 with
          | 92 :: 117 :: g1 :: g2 :: g3 :: g4 :: r4 =>
              match hex4_value g1 g2 g3 g4 with
              | None => None
              | Some uni2 =>
                  if low_surrogate uni2 then
                    push (65536 + N.lor (N.shiftl (uni - 55296) 10)
                                        (uni2 - 56320))
                         (scanstring r4)
                  else push uni (scanstring r2)
              end
          | 92 :: 117 :: _ => None
          | _ => push uni (scanstring r2)
          end
        else push uni (scanstring r2)
    end.
Proof.
  change (scanstring (backslash :: 117 :: a :: b :: c :: d :: r2)) with
    (match hex4_value a b c d with
     | None => None
     | Some uni =>
         if (55296 <=? uni) && (uni <=? 56319) then
           match r2 with
           | 92 :: 117 :: r3 =>
               match r3 with
               | g1 :: g2 :: g3 :: g4 :: r4 =>
                   match hex4_value g1 g2 g3 g4 with
                   | None => None
                   | Some uni2 =>
                       if (56320 <=? uni2) && (uni2 <=? 57343) then
                         push (65536 + N.lor (N.shiftl (uni - 55296) 10)
                                             (uni2 - 56320))
                              (scanstring r4)
                       else push uni (scanstring r2)
                   end
               | _ => None
               end
           | _ => push uni (scanstring r2)
           end
         else push uni (scanstring r2)
     end).
  destruct (hex4_value a b c d) as [uni|]; [|done].
  unfold high_surrogate. destruct ((55296 <=? uni) && (uni <=? 56319)); [|done].
  destruct r2 as [|x r2]; [done|].
  destruct x as [|p]; [done|].
  repeat (destruct p as [p|p|]; try done);
    destruct r2 as [|y r2]; try done;
    destruct y as [|q]; try done;
    repeat (destruct q as [q|q|]; try done);
    destruct r2 as [|? [|? [|? [|? ?]]]]; done.
Qed.

Lemma scanstring_u_escape (n : N) (t : str) :
  n < 65536 -> high_surrogate n = false ->
  scanstring (u_escape n ++ t) = push n (scanstring t).
Proof.
  intros H Hs. destruct (hex4_value_hex4 n t H) as (a & b & c & d & E & V).
  unfold u_escape. rewrite <- !app_comm_cons, E, scanstring_u, V. by rewrite Hs.
Qed.

Lemma scanstring_pair (s1 s2 : N) (t : str) :
  s1 < 65536 -> s2 < 65536 ->
  high_surrogate s1 = true -> low_surrogate s2 = true ->
  scanstring (u_escape s1 ++ u_escape s2 ++ t)
  = push (65536 + N.lor (N.shiftl (s1 - 55296) 10) (s2 - 56320))
         (scanstring t).
Proof.
  intros H1 H2 Hs1 Hs2.
  destruct (hex4_value_hex4 s1 (u_escape s2 ++ t) H1)
    as (a & b & c & d & E & V).
  destruct (hex4_value_hex4 s2 t H2) as (a' & b' & c' & d' & E' & V').
  unfold u_escape at 1. rewrite <- !app_comm_cons, E, scanstring_u, V, Hs1.
  unfold u_escape. rewrite <- !app_comm_cons, E'. unfold backslash.
  by rewrite V', Hs2.
Qed.

Lemma scanstring_plain (c : N) (t : str) :
  c <> quote -> c <> backslash -> 32 <= c ->
  scanstring (c :: t) = push c (scanstring t).
Proof.
  intros Hq Hb Hc. simpl.
  destruct (N.eqb_spec c quote); [done|].
  destruct (N.eqb_spec c backslash); [done|].
  destruct (N.ltb_spec c 32); [lia|done].
Qed.

Lemma ESCAPE_DCT_None (c : N) :
  ESCAPE_DCT c = None -> c <> quote /\ c <> backslash /\ 32 <= c.
Proof.
  unfold ESCAPE_DCT.
  destruct (N.eqb_spec c backslash); [done|].
  destruct (N.eqb_spec c quote); [done|].
  repeat match goal with
         | |- context [?x =? ?y] => destruct (x =? y); [done|]
         end.
  by destruct (N.ltb_spec c 32).
Qed.

Lemma ESCAPE_DCT_Some (c : N) (e : str) :
  ESCAPE_DCT c = Some e -> c <= 92.
Proof.
  unfold ESCAPE_DCT.
  repeat match goal with
         | |- context [?x =? ?y] =>
             destruct (N.eqb_spec x y); [unfold backslash, quote in *; lia|]
         end.
  destruct (N.ltb_spec c 32); [lia|done].
Qed.

Lemma scanstring_ESCAPE_DCT (c : N) (e t : str) :
  ESCAPE_DCT c = Some e -> scanstring (e ++ t) = push c (scanstring t).
Proof.
  unfold ESCAPE_DCT.
  repeat match goal with
         | |- context [?x =? ?y] =>
             destruct (N.eqb_spec x y); [subst; by intros [= <-]|]
         end.
  destruct (N.ltb_spec c 32); [|done]. intros [= <-].
  apply scanstring_u_escape; [lia|].
  unfold high_surrogate. destruct (N.leb_spec 55296 c); [lia|done].
Qed.

Lemma scanstring_escape_char (c : N) (t : str) :
  scanstring (escape_char c ++ t) = push c (scanstring t).
Proof.
  unfold escape_char. destruct (ESCAPE_DCT c) as [e|] eqn:E.
  - by apply scanstring_ESCAPE_DCT.
  - apply ESCAPE_DCT_None in E as (? & ? & ?). by apply scanstring_plain.
Qed.

Lemma scanstring_escape_char_ascii (c : N) (t : str) :
  is_scalar c = true ->
  scanstring (escape_char_ascii c ++ t) = push c (scanstring t).
Proof.
  intros Hc. unfold escape_char_ascii.
  destruct ((c =? backslash) || (c =? quote)
            || negb ((32 <=? c) && (c <=? 126))) eqn:M.
  - destruct (ESCAPE_DCT c) as [e|] eqn:E; [by apply scanstring_ESCAPE_DCT|].
    unfold is_scalar in Hc.
    destruct (N.ltb_spec c 65536) as [Hlt|Hge].
    + apply scanstring_u_escape; [done|]. unfold high_surrogate.
      destruct (N.leb_spec 55296 c); [|done].
      destruct (N.leb_spec c 56319); [|done].
      destruct (N.ltb_spec c 55296); [lia|].
      destruct (N.ltb_spec 57343 c); [lia|done].
    + assert (c < 1114112).
      { destruct (N.ltb_spec c 55296); [lia|].
        destruct (N.ltb_spec 57343 c); [|done].
        by destruct (N.ltb_spec c 1114112). }
      destruct (surrogate_pair c Hge) as ((L1 & U1) & (L2 & U2) & Hjoin);
        [done|].
      rewrite <- app_assoc, scanstring_pair.
      * by rewrite Hjoin.
      * lia.
      * lia.
      * unfold high_surrogate.
        apply andb_true_intro; split; by apply N.leb_le.
      * unfold low_surrogate.
        apply andb_true_intro; split; by apply N.leb_le.
  - apply orb_false_elim in M as [M1 M3].
    apply orb_false_elim in M1 as [M1 M2].
    apply negb_false_iff, andb_prop in M3 as [M3 _].
    apply scanstring_plain.
    + by apply N.eqb_neq.
    + by apply N.eqb_neq.
    + by apply N.leb_le.
Qed.

(** Both encoders write a quote, a body and a quote, and scanning the
    body up to the closing quote gives the string back. *)
Lemma scanstring_body (ensure_ascii : bool) (s rest : str) :
  (ensure_ascii = true -> encodable s = true) ->
  exists body,
    encoder ensure_ascii s ++ rest = quote :: body
    /\ scanstring body = Some (s, rest).
Proof.
  intros Hs. unfold encoder.
  exists (flat_map (if ensure_ascii then escape_char_ascii else escape_char) s
          ++ quote :: rest).
  split.
  - destruct ensure_ascii; unfold encode_basestring_ascii, encode_basestring;
      by rewrite <- app_comm_cons, <- app_assoc.
  - destruct ensure_ascii.
    + specialize (Hs eq_refl). induction s as [|c s IH]; [done|].
      simpl in *. apply andb_prop in Hs as [Hc Hs].
      by rewrite <- app_assoc, scanstring_escape_char_ascii, (IH Hs).
    + clear Hs. induction s as [|c s IH]; [done|]. simpl.
      by rewrite <- app_assoc, scanstring_escape_char, IH.
Qed.

(** A text that can be encoded spells a string that can. *)
Lemma encodable_escape (s : str) :
  encodable (flat_map escape_char s) = true -> encodable s = true.
Proof.
  unfold encodable. induction s as [|c s IH]; [done|]. simpl.
  rewrite forallb_app. intros [Hc Hs]%andb_prop.
  rewrite (IH Hs), andb_true_r.
  unfold escape_char in Hc. destruct (ESCAPE_DCT c) as [e|] eqn:E.
  - apply ESCAPE_DCT_Some in E. unfold is_scalar.
    destruct (N.ltb_spec c 55296); [done|lia].
  - simpl in Hc. by rewrite andb_true_r in Hc.
Qed.

End ScanString.

(** ** Scanning numbers *)

Section ScanNumber.

Import Json.

#[local] Arguments is_digit : simpl never.

(** What follows a value in the text that the encoder writes: nothing,
    a comma, a line feed or a closing bracket. *)
Definition stops (rest : str) : bool :=
  match rest with
  | [] => true
  | c :: _ => (c =? 44) || (c =? 10) || (c =? 93) || (c =? 125)
  end.

Lemma stops_cases (rest : str) :
  stops rest = true ->
  rest = [] \/ exists c t, rest = c :: t
                           /\ (c = 44 \/ c = 10 \/ c = 93 \/ c = 125).
Proof.
  destruct rest as [|c t]; [by left|]. simpl. intros H. right. exists c, t.
  split; [done|].
  repeat (apply orb_prop in H as [H|H]);
    apply N.eqb_eq in H; tauto.
Qed.

Lemma stops_no_digit (rest : str) :
  stops rest = true -> no_digit_ahead rest = true.
Proof.
  intros H. destruct (stops_cases _ H) as [->|(c & t & -> & Hc)]; [done|].
  by destruct Hc as [-> | [-> | [-> | ->]]].
Qed.

Lemma match_frac_stops (rest : str) :
  stops rest = true -> match_frac rest = ([], rest).
Proof.
  intros H. destruct (stops_cases _ H) as [->|(c & t & -> & Hc)]; [done|].
  by destruct Hc as [-> | [-> | [-> | ->]]].
Qed.

Lemma match_exp_stops (rest : str) :
  stops rest = true -> match_exp rest = ([], rest).
Proof.
  intros H. destruct (stops_cases _ H) as [->|(c & t & -> & Hc)]; [done|].
  by destruct Hc as [-> | [-> | [-> | ->]]].
Qed.

Lemma span_digits_concat (s ds r : str) :
  span_digits s = (ds, r) -> s = ds ++ r.
Proof.
  revert ds r. induction s as [|c s IH]; intros ds r; simpl.
  - by intros [= <- <-].
  - destruct (is_digit c); [|by intros [= <- <-]].
    destruct (span_digits s) as [ds' r']. intros [= <- <-].
    by rewrite (IH _ _ eq_refl).
Qed.

Lemma match_int_app (s i r rest : str) :
  match_int s = Some (i, r) ->
  r <> [] \/ no_digit_ahead rest = true ->
  match_int (s ++ rest) = Some (i, r ++ rest).
Proof.
  unfold match_int. intros H Hr.
  assert (Hgen : forall sign u,
    match u with
    | c :: r1 =>
        if c =? 48 then Some (sign ++ [c], r1)
        else if is_digit c then
          let (ds, rest) := span_digits r1 in Some (sign ++ c :: ds, rest)
        else None
    | [] => None
    end = Some (i, r) ->
    match u ++ rest with
    | c :: r1 =>
        if c =? 48 then Some (sign ++ [c], r1)
        else if is_digit c then
          let (ds, rest) := span_digits r1 in Some (sign ++ c :: ds, rest)
        else None
    | [] => None
    end = Some (i, r ++ rest)).
  { intros sign [|c u]; [done|]. simpl.
    destruct (c =? 48); [by intros [= <- <-]|].
    destruct (is_digit c); [|done].
    destruct (span_digits u) as [ds r'] eqn:E. intros [= <- <-].
    by rewrite (span_digits_app _ _ _ _ E Hr). }
  destruct s as [|c s]; [done|]. rewrite <- app_comm_cons.
  destruct (c =? 45).
  - exact (Hgen [c] s H).
  - exact (Hgen [] (c :: s) H).
Qed.

Lemma match_int_concat (s i r : str) :
  match_int s = Some (i, r) -> s = i ++ r.
Proof.
  unfold match_int.
  assert (Hgen : forall sign u,
    match u with
    | c :: r1 =>
        if c =? 48 then Some (sign ++ [c], r1)
        else if is_digit c then
          let (ds, rest) := span_digits r1 in Some (sign ++ c :: ds, rest)
        else None
    | [] => None
    end = Some (i, r) -> sign ++ u = i ++ r).
  { intros sign [|c u]; [done|].
    destruct (c =? 48); [intros [= <- <-]; by rewrite <- app_assoc|].
    destruct (is_digit c); [|done].
    destruct (span_digits u) as [ds r'] eqn:E. intros [= <- <-].
    rewrite (span_digits_concat _ _ _ E), <- app_assoc. done. }
  destruct s as [|c s]; [done|].
  destruct (c =? 45); intros H.
  - by apply (Hgen [c] s).
  - by apply (Hgen [] (c :: s)).
Qed.

Lemma match_int_head (s i r : str) :
  match_int s = Some (i, r) ->
  exists c t, s = c :: t /\ (c = 45 \/ is_digit c = true).
Proof.
  unfold match_int. destruct s as [|c s]; [done|]. intros H.
  exists c, s. split; [done|].
  destruct (N.eqb_spec c 45); [by left|right].
  destruct (N.eqb_spec c 48); [by subst|].
  by destruct (is_digit c).
Qed.

Lemma match_frac_concat (s f r : str) :
  match_frac s = (f, r) -> s = f ++ r.
Proof.
  unfold match_frac. destruct s as [|c s]; [by intros [= <- <-]|].
  destruct (c =? 46); [|by intros [= <- <-]].
  destruct (span_digits s) as [[|d ds] r'] eqn:E; intros [= <- <-]; [done|].
  by rewrite (span_digits_concat _ _ _ E).
Qed.

Lemma match_exp_concat (s e r : str) :
  match_exp s = (e, r) -> s = e ++ r.
Proof.
  unfold match_exp. destruct s as [|c s]; [by intros [= <- <-]|].
  destruct ((c =? 101) || (c =? 69)); [|by intros [= <- <-]].
  destruct s as [|c' s].
  - simpl. by intros [= <- <-].
  - destruct ((c' =? 43) || (c' =? 45)).
    + destruct (span_digits s) as [[|d ds] r'] eqn:E; intros [= <- <-]; [done|].
      by rewrite (span_digits_concat _ _ _ E).
    + destruct (span_digits (c' :: s)) as [[|d ds] r'] eqn:E;
        intros [= <- <-]; [done|].
      by rewrite (span_digits_concat _ _ _ E).
Qed.

Lemma match_number_concat (s i f e r : str) :
  match_number s = Some (i, f, e, r) -> s = i ++ f ++ e ++ r.
Proof.
  unfold match_number. destruct (match_int s) as [[i' r0]|] eqn:I; [|done].
  destruct (match_frac r0) as [f' r1] eqn:F.
  destruct (match_exp r1) as [e' r2] eqn:E. intros [= <- <- <- <-].
  by rewrite (match_int_concat _ _ _ I), (match_frac_concat _ _ _ F),
    (match_exp_concat _ _ _ E).
Qed.

Lemma match_frac_app (s f r rest : str) :
  match_frac s = (f, r) -> stops rest = true ->
  match_frac (s ++ rest) = (f, r ++ rest).
Proof.
  unfold match_frac. intros H Hr. destruct s as [|c s].
  - injection H as <- <-. by apply match_frac_stops.
  - simpl. destruct (c =? 46); [|by injection H as <- <-].
    destruct (span_digits s) as [ds r'] eqn:E.
    rewrite (span_digits_app _ _ _ rest E (or_intror (stops_no_digit _ Hr))).
    destruct ds; by injection H as <- <-.
Qed.

Lemma match_exp_app (s e r rest : str) :
  match_exp s = (e, r) -> stops rest = true ->
  match_exp (s ++ rest) = (e, r ++ rest).
Proof.
  unfold match_exp. intros H Hr. destruct s as [|c s].
  - injection H as <- <-. by apply match_exp_stops.
  - simpl. destruct ((c =? 101) || (c =? 69)); [|by injection H as <- <-].
    assert (Hspan : forall sg u ds r',
      span_digits u = (ds, r') ->
      match ds with
      | [] => ([], c :: s)
      | _ :: _ => (c :: sg ++ ds, r')
      end = (e, r) ->
      match span_digits (u ++ rest) with
      | ([], _) => ([], c :: s ++ rest)
      | (ds, rest') => (c :: sg ++ ds, rest')
      end = (e, r ++ rest)).
    { intros sg u ds r' E H'.
      rewrite (span_digits_app _ _ _ rest E (or_intror (stops_no_digit _ Hr))).
      destruct ds; by injection H' as <- <-. }
    destruct s as [|c' s].
    + simpl in *. injection H as <- <-.
      destruct (stops_cases _ Hr) as [->|(x & t & -> & Hx)]; [done|].
      by destruct Hx as [-> | [-> | [-> | ->]]].
    + simpl. destruct ((c' =? 43) || (c' =? 45)).
      * destruct (span_digits s) as [ds r'] eqn:E.
        exact (Hspan [c'] s ds r' E H).
      * destruct (span_digits (c' :: s)) as [ds r'] eqn:E.
        exact (Hspan [] (c' :: s) ds r' E H).
Qed.

(** A float literal is matched whole when something that stops the
    number follows it. *)
Lemma match_number_literal (s rest : str) :
  is_float_literal s = true -> stops rest = true ->
  exists i f e,
    match_number (s ++ rest) = Some (i, f, e, rest)
    /\ s = i ++ f ++ e /\ (f <> [] \/ e <> []).
Proof.
  unfold is_float_literal. intros H Hr.
  destruct (match_number s) as [[[[i f] e] r]|] eqn:M; [|done].
  assert (Hfe : (f <> [] \/ e <> []) /\ r = []).
  { destruct f, e, r; try done; split; try done; first [by left|by right]. }
  destruct Hfe as [Hfe ->]. clear H.
  exists i, f, e. split; [|split; [|done]].
  - pose proof (match_number_concat _ _ _ _ _ M) as Hcat.
    unfold match_number in *.
    destruct (match_int s) as [[i' r0]|] eqn:I; [|done].
    destruct (match_frac r0) as [f' r1] eqn:F.
    destruct (match_exp r1) as [e' r2] eqn:E.
    injection M as -> -> -> ->.
    pose proof (match_frac_concat _ _ _ F) as HF.
    pose proof (match_exp_concat _ _ _ E) as HE.
    rewrite app_nil_r in HE. subst r1.
    rewrite (match_int_app _ _ _ rest I (or_intror (stops_no_digit _ Hr))).
    rewrite (match_frac_app _ _ _ rest F Hr).
    by rewrite (match_exp_app _ _ _ rest E Hr).
  - apply match_number_concat in M. by rewrite !app_nil_r in M.
Qed.

Lemma is_float_literal_head (s : str) :
  is_float_literal s = true ->
  exists c t, s = c :: t /\ (c = 45 \/ is_digit c = true).
Proof.
  unfold is_float_literal, match_number. intros H.
  destruct (match_int s) as [[i r]|] eqn:I; [|done].
  by eapply match_int_head.
Qed.

Lemma decimal_head (n : N) :
  exists c ds, decimal n = c :: ds /\ is_digit c = true.
Proof.
  destruct (decimal_shape n) as [->|H]; [by exists 48, []|].
  destruct (decimal n) as [|c ds]; [done|]. exists c, ds.
  by apply andb_prop in H as [-> _].
Qed.

(** The integer part of a text that starts with a numeral. *)
Lemma match_int_decimal (n : N) (sign rest : str) :
  sign = [] \/ sign = [45] -> no_digit_ahead rest = true ->
  match_int (sign ++ decimal n ++ rest) = Some (sign ++ decimal n, rest).
Proof.
  intros Hsign Hr. unfold match_int.
  assert (Hd : match decimal n ++ rest with
    | c :: r1 =>
        if c =? 48 then Some (sign ++ [c], r1)
        else if is_digit c then
          let (ds, rest) := span_digits r1 in Some (sign ++ c :: ds, rest)
        else None
    | [] => None
    end = Some (sign ++ decimal n, rest)).
  { destruct (decimal_shape n) as [->|H]; [done|].
    pose proof (decimal_digits n) as D.
    destruct (decimal n) as [|c ds]; [done|]. simpl in *.
    apply andb_prop in H as [H1 H2]. apply andb_prop in D as [_ D].
    apply negb_true_iff in H2. rewrite H2, H1.
    by rewrite (span_digits_all ds rest D Hr). }
  destruct Hsign as [-> | ->]; [|done]. simpl.
  destruct (decimal_head n) as (c & ds & E & D). rewrite E in *. simpl in *.
  assert ((c =? 45) = false) as -> by
    (apply N.eqb_neq; intros ->; done).
  done.
Qed.

(** An integer is matched whole, with no fraction and no exponent. *)
Lemma match_number_int (z : Z) (rest : str) :
  stops rest = true ->
  match_number (int_repr z ++ rest) = Some (int_repr z, [], [], rest).
Proof.
  intros Hr.
  assert (Hnat : forall n sign,
    (sign = [] \/ sign = [45]) ->
    match_number (sign ++ decimal n ++ rest)
    = Some (sign ++ decimal n, [], [], rest)).
  { intros n sign Hsign. unfold match_number.
    rewrite (match_int_decimal n sign rest Hsign (stops_no_digit _ Hr)).
    by rewrite (match_frac_stops _ Hr), (match_exp_stops _ Hr). }
  destruct z as [|p|p]; unfold int_repr.
  - apply (Hnat 0 []). by left.
  - apply (Hnat (Z.to_N (Z.pos p)) []). by left.
  - apply (Hnat (Npos p) [45]). by right.
Qed.

End ScanNumber.

(** ** Decoding what the encoder writes *)

(** Induction on Python objects, through lists and dictionaries. *)
Lemma pyobj_induction (P : pyobj -> Prop) :
  P PNone -> (forall b, P (PBool b)) -> (forall z, P (PInt z)) ->
  (forall f, P (PFloat f)) -> (forall s, P (PStr s)) ->
  (forall l, Forall P l -> P (PList l)) ->
  (forall items, Forall (fun kv => P (snd kv)) items -> P (PDict items)) ->
  forall o, P o.
Proof.
  intros HN HB HI HF HS HL HD. fix IH 1.
  intros [|b|z|f|s|l|items];
    [apply HN|apply HB|apply HI|apply HF|apply HS| |].
  - apply HL. induction l as [|x l IHl]; constructor; [apply IH|exact IHl].
  - apply HD. induction items as [|[k v] items IHi]; constructor;
      [apply IH|exact IHi].
Qed.

Section Roundtrip.

Import Json.

Variable float_repr : spec_float -> str.
Variable parse_float : str -> option spec_float.

(** [float.__repr__] of a finite number is a JSON number with a fraction
    or an exponent, and [float] accepts it. *)
Hypothesis repr_literal :
  forall f, is_finite f = true -> is_float_literal (float_repr f) = true.
Hypothesis repr_parses :
  forall f, is_finite f = true -> is_Some (parse_float (float_repr f)).

(** What [float] makes of the text of a float. *)
Definition reparse (f : spec_float) : spec_float :=
  if is_finite f then
    match parse_float (float_repr f) with
    | Some f' => f'
    | None => f
    end
  else f.

(** What decoding the text of an object yields. *)
Fixpoint decoded (o : pyobj) : pyobj :=
  match o with
  | PFloat f => PFloat (reparse f)
  | PList l => PList (map decoded l)
  | PDict items =>
      PDict (dict_of_pairs (map (fun kv => (fst kv, decoded (snd kv))) items))
  | _ => o
  end.

(** A character that a value can start with. *)
Definition value_start (c : N) : bool :=
  (c =? 34) || (c =? 123) || (c =? 91) || (c =? 110) || (c =? 116)
  || (c =? 102) || (c =? 78) || (c =? 73) || (c =? 45) || is_digit c.

Lemma value_start_skip (c : N) (t : str) :
  value_start c = true -> skip_ws (c :: t) = c :: t.
Proof.
  intros H. simpl. assert (is_ws c = false) as ->; [|done].
  unfold value_start, is_digit in H. unfold is_ws.
  repeat match goal with
         | |- context [c =? ?y] => destruct (N.eqb_spec c y); [by subst|]
         end.
  done.
Qed.

Lemma value_start_not_close (c : N) :
  value_start c = true -> c <> 93 /\ c <> 125.
Proof. intros H. split; by intros ->. Qed.

Lemma digit_cases (c : N) :
  is_digit c = true ->
  c = 48 \/ c = 49 \/ c = 50 \/ c = 51 \/ c = 52 \/ c = 53 \/ c = 54
  \/ c = 55 \/ c = 56 \/ c = 57.
Proof.
  unfold is_digit. intros [H1 H2]%andb_prop.
  apply N.leb_le in H1, H2. lia.
Qed.

Lemma number_start (c : N) :
  c = 45 \/ is_digit c = true -> value_start c = true.
Proof.
  intros [-> | H]; [done|]. unfold value_start. rewrite H.
  by rewrite !orb_true_r.
Qed.

Section Modes.

Variable ensure_ascii : bool.
Variable indent : option nat.

Abbreviation enc := (iterencode float_repr ensure_ascii indent).

(** The text of a value starts with a character that only a value starts
    with. *)
Lemma enc_start (level : nat) (o : pyobj) :
  exists c t, enc level o = c :: t /\ value_start c = true.
Proof.
  destruct o as [|[|]|z|f|s|[|x l]|[|kv items]];
    try (by do 2 eexists; split; [reflexivity|]).
  - destruct z as [|p|p]; unfold iterencode, int_repr.
    + by exists 48, [].
    + pose proof (decimal_pos_shape p) as H.
      change (Z.to_N (Z.pos p)) with (Npos p).
      destruct (decimal (Npos p)) as [|c t]; [done|]. exists c, t.
      split; [done|]. apply number_start. right.
      by apply andb_prop in H as [-> _].
    + by do 2 eexists.
  - assert (Hfin : is_finite f = true ->
              exists c t, float_repr f = c :: t /\ value_start c = true).
    { intros Hf.
      destruct (is_float_literal_head _ (repr_literal f Hf))
        as (c & t & E & Hc).
      exists c, t. split; [exact E|by apply number_start]. }
    destruct f as [s| [|] | |s m e];
      try (by do 2 eexists; split; [reflexivity|]); by apply Hfin.
  - unfold iterencode, encoder.
    destruct ensure_ascii; by do 2 eexists.
Qed.

Lemma skip_ws_enc (level : nat) (o : pyobj) (rest : str) :
  skip_ws (enc level o ++ rest) = enc level o ++ rest.
Proof.
  destruct (enc_start level o) as (c & t & -> & H).
  by apply value_start_skip.
Qed.

Lemma skip_ws_newline_indent (n level : nat) (t : str) :
  skip_ws (newline_indent n level ++ t) = skip_ws t.
Proof.
  unfold newline_indent. simpl.
  induction (n * level)%nat as [|k IH]; [done|]. exact IH.
Qed.

Lemma skip_ws_opening (level : nat) (t : str) :
  skip_ws (opening indent level ++ t) = skip_ws t.
Proof.
  unfold opening. destruct indent; [apply skip_ws_newline_indent|done].
Qed.

Lemma skip_ws_closing (level : nat) (t : str) :
  skip_ws (closing indent level ++ t) = skip_ws t.
Proof.
  unfold closing. destruct indent; [apply skip_ws_newline_indent|done].
Qed.

Lemma stops_closing (level : nat) (c : N) (t : str) :
  c = 93 \/ c = 125 -> stops (closing indent level ++ c :: t) = true.
Proof.
  unfold closing. destruct indent; [done|]. by intros [-> | ->].
Qed.

Lemma item_separator_eq :
  exists sp, item_separator indent = 44 :: sp /\ forall t, skip_ws (sp ++ t) = skip_ws t.
Proof.
  unfold item_separator. destruct indent.
  - by exists [].
  - by exists [32].
Qed.

(** [sep] before every chunk: what [join] adds after its first chunk. *)
Fixpoint join_tail (sep : str) (chunks : list str) : str :=
  match chunks with
  | [] => []
  | x :: rest => sep ++ x ++ join_tail sep rest
  end.

Lemma join_cons (sep x : str) (chunks : list str) :
  join sep (x :: chunks) = x ++ join_tail sep chunks.
Proof.
  revert x. induction chunks as [|y chunks IH]; intros x.
  - by rewrite app_nil_r.
  - change (join sep (x :: y :: chunks)) with (x ++ sep ++ join sep (y :: chunks)).
    by rewrite IH.
Qed.

Lemma scan_once_number (k : nat) (s : str) :
  (exists c t, s = c :: t /\ (c = 45 \/ is_digit c = true)) ->
  scan_once parse_float (S k) s
  = match match_number s with
    | Some (integer, frac, exp, rest) =>
        match frac, exp with
        | [], [] => Some (PInt (int_of_chars integer), rest)
        | _, _ =>
            match parse_float (integer ++ frac ++ exp) with
            | Some f => Some (PFloat f, rest)
            | None => None
            end
        end
    | None =>
        match strip_prefix (py "NaN") s with
        | Some rest => Some (PFloat S754_nan, rest)
        | None =>
        match strip_prefix (py "Infinity") s with
        | Some rest => Some (PFloat (S754_infinity false), rest)
        | None =>
        match strip_prefix (py "-Infinity") s with
        | Some rest => Some (PFloat (S754_infinity true), rest)
        | None => None
        end end end
    end.
Proof.
  intros (c & t & -> & Hc).
  assert (H : c = 45 \/ c = 48 \/ c = 49 \/ c = 50 \/ c = 51 \/ c = 52
              \/ c = 53 \/ c = 54 \/ c = 55 \/ c = 56 \/ c = 57).
  { destruct Hc as [?|Hc]; [by left|right]. by apply digit_cases. }
  repeat (destruct H as [->|H]; [reflexivity|]). subst. reflexivity.
Qed.

(** A value that is neither a list nor a dictionary. *)
Definition is_atom (o : pyobj) : bool :=
  match o with
  | PList _ | PDict _ => false
  | _ => true
  end.

Lemma scan_atom (o : pyobj) (level k : nat) (rest : str) :
  is_atom o = true -> jsonable o = true -> stops rest = true ->
  scan_once parse_float (S k) (enc level o ++ rest) = Some (decoded o, rest).
Proof.
  intros Ha Hj Hr. destruct o as [|[|]|z|f|s|l|items]; try done.
  - rewrite scan_once_number.
    + cbn [iterencode]. by rewrite (match_number_int z rest Hr), int_of_chars_repr.
    + destruct (enc_start level (PInt z)) as (c & t & E & Hc).
      cbn [iterencode] in *.
      assert (Hz : exists c' t', int_repr z = c' :: t'
                                 /\ (c' = 45 \/ is_digit c' = true)).
      { destruct z as [|p|p]; unfold int_repr.
        - exists 48, []. split; [done|by right].
        - change (Z.to_N (Z.pos p)) with (Npos p).
          pose proof (decimal_pos_shape p) as H.
          destruct (decimal (Npos p)) as [|c' t']; [done|]. exists c', t'.
          split; [done|right]. by apply andb_prop in H as [-> _].
        - exists 45, (decimal (Npos p)). split; [done|by left]. }
      destruct Hz as (c' & t' & -> & Hc'). by exists c', (t' ++ rest).
  - assert (Hfin : is_finite f = true ->
      scan_once parse_float (S k) (float_repr f ++ rest)
      = Some (PFloat (reparse f), rest)).
    { intros Hf.
      destruct (match_number_literal _ rest (repr_literal f Hf) Hr)
        as (i & fr & ex & M & E & Hfe).
      destruct (is_float_literal_head _ (repr_literal f Hf))
        as (c & t & Ec & Hc).
      rewrite scan_once_number, M.
      - rewrite <- E. unfold reparse. rewrite Hf.
        destruct (repr_parses f Hf) as [f' ->].
        destruct fr, ex; try done. by destruct Hfe.
      - rewrite Ec. by exists c, (t ++ rest). }
    destruct f as [s| [|] | |s m e]; try reflexivity; by apply Hfin.
  - cbn [iterencode jsonable decoded] in *.
    destruct (scanstring_body ensure_ascii s rest (fun _ => Hj))
      as (body & -> & Hb).
    change (scan_once parse_float (S k) (quote :: body)) with
      (match scanstring body with
       | Some (t, rest) => Some (PStr t, rest)
       | None => None
       end).
    by rewrite Hb.
Qed.

Lemma array_items_eq (k : nat) (s : str) :
  array_items parse_float (S k) s
  = match scan_once parse_float k s with
    | None => None
    | Some (v, r) =>
        match skip_ws r with
        | c :: r1 =>
            if c =? 93 then Some ([v], r1)
            else if c =? 44 then
              match array_items parse_float k (skip_ws r1) with
              | Some (values, rest) => Some (v :: values, rest)
              | None => None
              end
            else None
        | [] => None
        end
    end.
Proof. reflexivity. Qed.

Lemma object_items_eq (k : nat) (s : str) :
  object_items parse_float (S k) s
  = match scanstring s with
    | None => None
    | Some (key, r) =>
        match skip_ws r with
        | c :: r1 =>
            if c =? 58 then
              match scan_once parse_float k (skip_ws r1) with
              | None => None
              | Some (v, r2) =>
                  match skip_ws r2 with
                  | c2 :: r3 =>
                      if c2 =? 125 then Some ([(key, v)], r3)
                      else if c2 =? 44 then
                        match skip_ws r3 with
                        | c3 :: r4 =>
                            if c3 =? quote then
                              match object_items parse_float k r4 with
                              | Some (pairs, rest) =>
                                  Some ((key, v) :: pairs, rest)
                              | None => None
                              end
                            else None
                        | [] => None
                        end
                      else None
                  | [] => None
                  end
              end
            else None
        | [] => None
        end
    end.
Proof. reflexivity. Qed.

Lemma scan_once_array_eq (k : nat) (r : str) :
  scan_once parse_float (S k) (91 :: r)
  = match skip_ws r with
    | c1 :: r1 =>
        if c1 =? 93 then Some (PList [], r1)
        else
          match array_items parse_float k (c1 :: r1) with
          | Some (values, rest) => Some (PList values, rest)
          | None => None
          end
    | [] => None
    end.
Proof. reflexivity. Qed.

Lemma scan_once_object_eq (k : nat) (r : str) :
  scan_once parse_float (S k) (123 :: r)
  = match skip_ws r with
    | c1 :: r1 =>
        if c1 =? 125 then Some (PDict [], r1)
        else if c1 =? quote then
          match object_items parse_float k r1 with
          | Some (pairs, rest) => Some (PDict (dict_of_pairs pairs), rest)
          | None => None
          end
        else None
    | [] => None
    end.
Proof. reflexivity. Qed.

(** Scanning the text of [o], at any depth and before anything that
    stops a value, yields the decoded object and leaves what follows. *)
Definition scans (o : pyobj) : Prop :=
  forall level rest fuel,
    jsonable o = true -> (weight o <= fuel)%nat -> stops rest = true ->
    scan_once parse_float fuel (enc level o ++ rest) = Some (decoded o, rest).

Abbreviation separator level := (item_separator indent ++ opening indent level).

Lemma scan_array_items (level : nat) (xs : list pyobj) :
  Forall scans xs ->
  forall x rest fuel,
    scans x -> jsonable x = true -> forallb jsonable xs = true ->
    (S (weight x) + (length xs + list_sum (map weight xs)) <= fuel)%nat ->
    stops rest = true ->
    array_items parse_float fuel
      (enc (S level) x
       ++ join_tail (separator level) (map (enc (S level)) xs)
       ++ closing indent level ++ 93 :: rest)
    = Some (decoded x :: map decoded xs, rest).
Proof.
  induction 1 as [|y ys Hy Hys IH]; intros x rest fuel Hx Jx Jxs Hfuel Hr;
    (destruct fuel as [|k]; [lia|]); rewrite array_items_eq.
  - cbn [map join_tail app length list_sum] in *.
    rewrite (Hx (S level) _ k Jx); [|lia|by apply stops_closing; left].
    rewrite skip_ws_closing. by cbn.
  - destruct item_separator_eq as (sp & Esep & Hsp).
    set (sep := item_separator indent ++ opening indent level) in *.
    assert (Hsep : forall t, sep ++ t = 44 :: sp ++ opening indent level ++ t)
      by (intros t; unfold sep; by rewrite Esep, <- !app_assoc).
    cbn [map join_tail length list_sum forallb] in *.
    apply andb_prop in Jxs as [Jy Jys].
    rewrite <- !app_assoc, Hsep.
    rewrite (Hx (S level) _ k Jx); [|lia|done].
    cbn. rewrite Hsp, skip_ws_opening, skip_ws_enc.
    rewrite (IH y rest k Hy Jy Jys); [done|simpl in Hfuel; lia|done].
Qed.

(** The text of one item of a dictionary. *)
Definition item_text (level : nat) (kv : str * pyobj) : str :=
  encoder ensure_ascii (fst kv) ++ key_separator
  ++ enc (S level) (snd kv).

Lemma object_item_head (level k : nat) (key : str) (v : pyobj)
  (tail body : str) :
  encodable key = true -> scans v -> jsonable v = true ->
  (weight v <= k)%nat -> stops tail = true ->
  encoder ensure_ascii key ++ key_separator ++ enc (S level) v ++ tail
  = quote :: body ->
  object_items parse_float (S k) body
  = match skip_ws tail with
    | c2 :: r3 =>
        if c2 =? 125 then Some ([(key, decoded v)], r3)
        else if c2 =? 44 then
          match skip_ws r3 with
          | c3 :: r4 =>
              if c3 =? quote then
                match object_items parse_float k r4 with
                | Some (pairs, rest) => Some ((key, decoded v) :: pairs, rest)
                | None => None
                end
              else None
          | [] => None
          end
        else None
    | [] => None
    end.
Proof.
  intros Jk Hv Jv Hfuel Ht Hbody.
  destruct (scanstring_body ensure_ascii key
              (key_separator ++ enc (S level) v ++ tail) (fun _ => Jk))
    as (body' & Ebody & Hscan).
  rewrite Ebody in Hbody. injection Hbody as <-.
  rewrite object_items_eq, Hscan.
  change (skip_ws (key_separator ++ enc (S level) v ++ tail))
    with (58 :: 32 :: enc (S level) v ++ tail).
  change (58 =? 58) with true. cbv iota.
  change (skip_ws (32 :: enc (S level) v ++ tail))
    with (skip_ws (enc (S level) v ++ tail)).
  by rewrite skip_ws_enc, (Hv (S level) tail k Jv Hfuel Ht).
Qed.

Lemma scan_object_items (level : nat) (xs : list (str * pyobj)) :
  Forall (fun kv => scans (snd kv)) xs ->
  forall x rest fuel body,
    scans (snd x) ->
    encodable (fst x) && jsonable (snd x) = true ->
    forallb (fun kv => encodable (fst kv) && jsonable (snd kv)) xs = true ->
    (S (weight (snd x))
     + (length xs + list_sum (map (fun kv => weight (snd kv)) xs)) <= fuel)%nat ->
    stops rest = true ->
    item_text level x
    ++ join_tail (separator level) (map (item_text level) xs)
    ++ closing indent level ++ 125 :: rest = quote :: body ->
    object_items parse_float fuel body
    = Some ((fst x, decoded (snd x))
            :: map (fun kv => (fst kv, decoded (snd kv))) xs, rest).
Proof.
  induction 1 as [|y ys Hy Hys IH];
    intros [key v] rest fuel body Hx Jx Jxs Hfuel Hr Hbody;
    (destruct fuel as [|k]; [lia|]);
    cbn [fst snd] in *; apply andb_prop in Jx as [Jk Jv];
    unfold item_text at 1 in Hbody; cbn [fst snd] in Hbody;
    rewrite <- !app_assoc in Hbody.
  - cbn [map join_tail app length list_sum] in *.
    lazymatch type of Hbody with
    | _ ++ _ ++ _ ++ ?t = _ =>
        rewrite (object_item_head level k key v t body Jk Hx Jv);
          [|lia|by apply stops_closing; right|exact Hbody]
    end.
    rewrite skip_ws_closing. by cbn.
  - destruct item_separator_eq as (sp & Esep & Hsp).
    set (sep := item_separator indent ++ opening indent level) in *.
    assert (Hsep : forall t, sep ++ t = 44 :: sp ++ opening indent level ++ t)
      by (intros t; unfold sep; by rewrite Esep, <- !app_assoc).
    cbn [map join_tail length list_sum forallb] in *.
    rewrite <- !app_assoc, Hsep in Hbody.
    lazymatch type of Hbody with
    | _ ++ _ ++ _ ++ ?t = _ =>
        rewrite (object_item_head level k key v t body Jk Hx Jv);
          [|simpl in Hfuel; lia|done|exact Hbody]
    end.
    cbn. rewrite Hsp, skip_ws_opening.
    apply andb_prop in Jxs as [Jy Jys].
    destruct (scanstring_body ensure_ascii (fst y)
                (key_separator ++ enc (S level) (snd y)
                 ++ join_tail sep (map (item_text level) ys)
                 ++ closing indent level ++ 125 :: rest)
                (fun _ => proj1 (andb_prop _ _ Jy)))
      as (body' & Ebody & _).
    assert (Etext : item_text level y
              ++ join_tail sep (map (item_text level) ys)
              ++ closing indent level ++ 125 :: rest = quote :: body').
    { unfold item_text at 1. by rewrite <- !app_assoc. }
    rewrite Etext. cbn.
    rewrite (IH y rest k body' Hy Jy Jys); [done|simpl in Hfuel; lia|done|done].
Qed.

(** Every object scans. *)
Lemma scans_all (o : pyobj) : scans o.
Proof.
  induction o as [|b|z|f|s|l IH|items IH] using pyobj_induction;
    intros level rest fuel Hj Hf Hr;
    try (destruct fuel as [|k]; [simpl in Hf; lia|]; by apply scan_atom).
  - destruct fuel as [|k]; [simpl in Hf; lia|].
    destruct l as [|x xs]; [reflexivity|].
    change (enc level (PList (x :: xs))) with
      (py "[" ++ opening indent level
       ++ join (separator level) (map (enc (S level)) (x :: xs))
       ++ closing indent level ++ py "]").
    cbn [map]. rewrite join_cons, <- !app_assoc.
    change (py "[" ++ ?t) with (91 :: t).
    change (py "]" ++ rest) with (93 :: rest).
    rewrite scan_once_array_eq, skip_ws_opening, skip_ws_enc.
    inversion IH as [|? ? Hx Hxs]; subst.
    cbn [jsonable forallb] in Hj. apply andb_prop in Hj as [Jx Jxs].
    pose proof (scan_array_items level xs Hxs x rest k Hx Jx Jxs) as Hitems.
    destruct (enc_start (S level) x) as (c & t & E & Hc).
    rewrite E in *. rewrite <- app_comm_cons in *.
    destruct (value_start_not_close c Hc) as [Hc1 _].
    apply N.eqb_neq in Hc1. rewrite Hc1, Hitems; [done| |done].
    simpl in Hf. lia.
  - destruct fuel as [|k]; [simpl in Hf; lia|].
    destruct items as [|x xs]; [reflexivity|].
    change (enc level (PDict (x :: xs))) with
      (py "{" ++ opening indent level
       ++ join (separator level) (map (item_text level) (x :: xs))
       ++ closing indent level ++ py "}").
    cbn [map]. rewrite join_cons, <- !app_assoc.
    change (py "{" ++ ?t) with (123 :: t).
    change (py "}" ++ rest) with (125 :: rest).
    rewrite scan_once_object_eq, skip_ws_opening.
    inversion IH as [|? ? Hx Hxs]; subst.
    cbn [jsonable forallb] in Hj. apply andb_prop in Hj as [Jx Jxs].
    destruct (scanstring_body ensure_ascii (fst x)
                (key_separator ++ enc (S level) (snd x)
                 ++ join_tail (separator level) (map (item_text level) xs)
                 ++ closing indent level ++ 125 :: rest)
                (fun _ => proj1 (andb_prop _ _ Jx)))
      as (body & Ebody & _).
    assert (Etext : item_text level x
              ++ join_tail (separator level) (map (item_text level) xs)
              ++ closing indent level ++ 125 :: rest = quote :: body).
    { unfold item_text at 1. by rewrite <- !app_assoc. }
    rewrite Etext. cbn.
    rewrite (scan_object_items level xs Hxs x rest k body Hx Jx Jxs);
      [done| |done|done].
    simpl in Hf. lia.
Qed.

Lemma length_item_separator : (1 <= length (separator 0))%nat.
Proof. unfold item_separator. destruct indent; simpl; lia. Qed.

Lemma weight_join_tail (level : nat) (sep : str) (xs : list pyobj) :
  (1 <= length sep)%nat ->
  Forall (fun o => forall level,
            (weight o <= S (2 * length (enc level o)))%nat) xs ->
  (length xs + list_sum (map weight xs)
   <= 2 * length (join_tail sep (map (enc level) xs)))%nat.
Proof.
  intros Hsep. induction 1 as [|x xs Hx _ IH]; simpl; [lia|].
  rewrite !length_app. specialize (Hx level). clear -Hsep Hx IH. lia.
Qed.

Lemma weight_join_tail_items (level : nat) (sep : str)
  (xs : list (str * pyobj)) :
  (1 <= length sep)%nat ->
  Forall (fun kv => forall level,
            (weight (snd kv) <= S (2 * length (enc level (snd kv))))%nat) xs ->
  (length xs + list_sum (map (fun kv => weight (snd kv)) xs)
   <= 2 * length (join_tail sep (map (item_text level) xs)))%nat.
Proof.
  intros Hsep. induction 1 as [|x xs Hx _ IH]; simpl; [lia|].
  assert (Hi : (length (enc (S level) (snd x))
                <= length (item_text level x))%nat)
    by (unfold item_text; rewrite !length_app; lia).
  rewrite !length_app. specialize (Hx (S level)).
  clear -Hsep Hx IH Hi. lia.
Qed.

Lemma length_separator (level : nat) : (1 <= length (separator level))%nat.
Proof.
  rewrite length_app. unfold item_separator. destruct indent; simpl; lia.
Qed.

(** The fuel of [loads] is enough for the text of any object. *)
Lemma weight_bound (o : pyobj) (level : nat) :
  (weight o <= S (2 * length (enc level o)))%nat.
Proof.
  revert level.
  induction o as [|b|z|f|s|l IH|items IH] using pyobj_induction;
    intros level; try (simpl; lia).
  - destruct l as [|x xs]; [simpl; lia|].
    change (enc level (PList (x :: xs))) with
      (py "[" ++ opening indent level
       ++ join (separator level) (map (enc (S level)) (x :: xs))
       ++ closing indent level ++ py "]").
    cbn [map]. rewrite join_cons, !length_app.
    inversion IH as [|? ? Hx Hxs]; subst.
    pose proof (weight_join_tail (S level) (separator level) xs
                  (length_separator level) Hxs).
    specialize (Hx (S level)). simpl. lia.
  - destruct items as [|x xs]; [simpl; lia|].
    change (enc level (PDict (x :: xs))) with
      (py "{" ++ opening indent level
       ++ join (separator level) (map (item_text level) (x :: xs))
       ++ closing indent level ++ py "}").
    cbn [map]. rewrite join_cons, !length_app.
    inversion IH as [|? ? Hx Hxs]; subst.
    pose proof (weight_join_tail_items level (separator level) xs
                  (length_separator level) Hxs).
    specialize (Hx (S level)).
    assert (Hi : (length (enc (S level) (snd x))
                  <= length (item_text level x))%nat)
      by (unfold item_text; rewrite !length_app; lia).
    simpl. lia.
Qed.

(** Decoding the text of an object yields the decoded object. *)
Lemma loads_enc (o : pyobj) :
  jsonable o = true ->
  loads parse_float (enc 0 o) = Some (decoded o).
Proof.
  intros Hj. unfold loads.
  pose proof (skip_ws_enc 0 o []) as Hs. rewrite app_nil_r in Hs. rewrite Hs.
  pose proof (scans_all o 0%nat [] (S (2 * length (enc 0 o))) Hj
                (weight_bound o 0) eq_refl) as H.
  rewrite app_nil_r in H. by rewrite H.
Qed.

End Modes.

Lemma encodable_app (s t : str) :
  encodable (s ++ t) = encodable s && encodable t.
Proof. apply forallb_app. Qed.

Lemma encodable_join_tail (sep : str) (chunks : list str) :
  encodable (join_tail sep chunks) = true ->
  Forall (fun t => encodable t = true) chunks.
Proof.
  induction chunks as [|x chunks IH]; simpl; [constructor|].
  rewrite !encodable_app. intros [_ [Hx H]%andb_prop]%andb_prop.
  constructor; [done|by apply IH].
Qed.

(** A text without escapes of characters beyond ASCII can be encoded only
    if every string of the object can. *)
Lemma encodable_jsonable (indent : option nat) (o : pyobj) (level : nat) :
  encodable (iterencode float_repr false indent level o) = true ->
  jsonable o = true.
Proof.
  revert level.
  induction o as [|b|z|f|s|l IH|items IH] using pyobj_induction;
    intros level H; try done.
  - cbn [iterencode jsonable] in *. unfold encoder, encode_basestring in H.
    rewrite app_comm_cons, encodable_app in H.
    apply andb_prop in H as [H _]. cbn in H. by apply encodable_escape.
  - destruct l as [|x xs]; [done|].
    change (iterencode float_repr false indent level (PList (x :: xs))) with
      (py "[" ++ opening indent level
       ++ join (item_separator indent ++ opening indent level)
            (map (iterencode float_repr false indent (S level)) (x :: xs))
       ++ closing indent level ++ py "]") in H.
    cbn [map] in H. rewrite join_cons, !encodable_app in H.
    apply andb_prop in H as [_ H]. apply andb_prop in H as [_ H].
    apply andb_prop in H as [H _]. apply andb_prop in H as [Hx Hxs].
    apply encodable_join_tail in Hxs.
    cbn [jsonable]. apply forallb_forall. intros y Hy.
    apply list_elem_of_In in Hy.
    rewrite Forall_forall in IH. apply (IH y Hy (S level)).
    apply elem_of_cons in Hy as [->|Hy]; [done|].
    rewrite Forall_forall in Hxs. apply Hxs.
    by apply list_elem_of_fmap_2.
  - destruct items as [|x xs]; [done|].
    change (iterencode float_repr false indent level (PDict (x :: xs))) with
      (py "{" ++ opening indent level
       ++ join (item_separator indent ++ opening indent level)
            (map (item_text false indent level) (x :: xs))
       ++ closing indent level ++ py "}") in H.
    cbn [map] in H. rewrite join_cons, !encodable_app in H.
    apply andb_prop in H as [_ H]. apply andb_prop in H as [_ H].
    apply andb_prop in H as [H _]. apply andb_prop in H as [Hx Hxs].
    apply encodable_join_tail in Hxs.
    assert (Hall : Forall (fun t => encodable t = true)
                     (map (item_text false indent level) (x :: xs)))
      by (by constructor).
    cbn [jsonable]. apply forallb_forall. intros y Hy.
    apply list_elem_of_In in Hy.
    rewrite Forall_forall in Hall.
    specialize (Hall _ (list_elem_of_fmap_2 _ _ _ Hy)).
    unfold item_text in Hall. rewrite !encodable_app in Hall.
    apply andb_prop in Hall as [Hk Hv]. apply andb_prop in Hv as [_ Hv].
    apply andb_true_intro. split.
    + unfold encoder, encode_basestring in Hk.
      rewrite app_comm_cons, encodable_app in Hk.
      apply andb_prop in Hk as [Hk _]. cbn in Hk. by apply encodable_escape.
    + rewrite Forall_forall in IH. by apply (IH y Hy (S level)).
Qed.

End Roundtrip.

(** ** The reference runtime writes floats that it reads back *)

Section ReferenceFacts.

Import Json.

#[local] Arguments is_digit : simpl never.

Lemma digit_not_space (c : N) : is_digit c = true -> isspace c = false.
Proof.
  intros H. destruct (digit_cases c H)
    as [->|[->|[->|[->|[->|[->|[->|[->|[->| ->]]]]]]]]]; done.
Qed.

Lemma strip_tight (c d : N) (t : str) :
  isspace c = false -> isspace d = false ->
  Reference.strip_float (c :: t ++ [d]) = c :: t ++ [d].
Proof.
  intros Hc Hd. unfold Reference.strip_float.
  assert (Fc : Reference.is_float_space c = false)
    by (unfold Reference.is_float_space; by rewrite Hc).
  assert (Fd : Reference.is_float_space d = false)
    by (unfold Reference.is_float_space; by rewrite Hd).
  simpl. rewrite Fc.
  rewrite (app_comm_cons t [d] c), rev_app_distr. simpl. rewrite Fd.
  change (d :: rev t ++ [c]) with (rev [d] ++ rev (c :: t)).
  by rewrite <- rev_app_distr, rev_involutive, <- app_comm_cons.
Qed.

(** The numeral of a finite number: an optional sign, the digits of a
    positive mantissa, and a fraction or an exponent. *)
Inductive numeral : str -> Prop :=
| numeral_point sign n :
    sign = [] \/ sign = [45] ->
    numeral (sign ++ decimal n ++ py ".0")
| numeral_exp sign n k :
    sign = [] \/ sign = [45] ->
    numeral (sign ++ decimal n ++ py "e-" ++ decimal k).

Lemma float_repr_numeral (f : spec_float) :
  is_finite f = true -> numeral (Reference.float_repr f).
Proof.
  assert (Hsign : forall s, Reference.sign_chars s = []
                            \/ Reference.sign_chars s = [45])
    by (intros [|]; [by right|by left]).
  destruct f as [s| | |s m e]; try done; intros _; unfold Reference.float_repr.
  - apply (numeral_point _ 0). apply Hsign.
  - destruct (0 <=? e)%Z.
    + by apply numeral_point.
    + by apply numeral_exp.
Qed.

Lemma numeral_literal (s : str) : numeral s -> is_float_literal s = true.
Proof.
  intros [sign n Hs|sign n k Hs]; unfold is_float_literal, match_number.
  - by rewrite (match_int_decimal n sign _ Hs).
  - rewrite (match_int_decimal n sign _ Hs); [|done].
    destruct (decimal_head k) as (c & ds & E & D).
    pose proof (decimal_digits k) as Dk.
    change (match_frac (py "e-" ++ decimal k)) with
      (@nil N, py "e-" ++ decimal k).
    cbv iota beta.
    change (match_exp (py "e-" ++ decimal k)) with
      (match span_digits (decimal k) with
       | ([], _) => ([], py "e-" ++ decimal k)
       | (ds, rest) => (101 :: [45] ++ ds, rest)
       end).
    pose proof (span_digits_all (decimal k) [] Dk eq_refl) as Hspan.
    rewrite app_nil_r in Hspan. rewrite Hspan, E.
    by destruct (sign ++ decimal n).
Qed.

Lemma numeral_parses (s : str) :
  numeral s -> is_Some (Reference.float_of_str s).
Proof.
  intros Hs.
  assert (Hshape : exists sign n tail,
    s = sign ++ decimal n ++ tail /\ (sign = [] \/ sign = [45])
    /\ ((tail = py ".0")
        \/ exists k, tail = py "e-" ++ decimal k)).
  { destruct Hs as [sign n H|sign n k H].
    - exists sign, n, (py ".0"). split; [done|]. split; [done|by left].
    - exists sign, n, (py "e-" ++ decimal k). split; [done|].
      split; [done|right; by exists k]. }
  destruct Hshape as (sign & n & tail & -> & Hsign & Htail).
  destruct (decimal_head n) as (c & ds & E & D).
  pose proof (decimal_digits n) as Dn.
  (* The text has no white space at either end. *)
  assert (Hstrip : Reference.strip_float (sign ++ decimal n ++ tail)
                   = sign ++ decimal n ++ tail).
  { assert (Hlast : exists t d, decimal n ++ tail = c :: t ++ [d]
                                /\ isspace d = false).
    { rewrite E. destruct Htail as [->|[k ->]].
      - exists (ds ++ [46]), 48. split; [|done].
        by rewrite <- app_comm_cons, <- app_assoc.
      - destruct (decimal_head k) as (c' & ds' & E' & D').
        pose proof (decimal_digits k) as Dk.
        destruct (exists_last (l := decimal k)) as (t' & d & Ek);
          [by rewrite E'|].
        exists (ds ++ py "e-" ++ t'), d. split.
        + rewrite Ek, <- app_comm_cons, <- !app_assoc. done.
        + apply digit_not_space. rewrite Ek, forallb_app in Dk.
          apply andb_prop in Dk as [_ Dk]. simpl in Dk.
          by apply andb_prop in Dk as [-> _]. }
    destruct Hlast as (t & d & Et & Hd). rewrite Et.
    destruct Hsign as [-> | ->].
    - apply strip_tight; [by apply digit_not_space|done].
    - change ([45] ++ c :: t ++ [d]) with (45 :: (c :: t) ++ [d]).
      by apply strip_tight. }
  unfold Reference.float_of_str. rewrite Hstrip.
  assert (Hsplit : exists sg,
            Reference.split_sign (sign ++ decimal n ++ tail)
            = (sg, decimal n ++ tail)).
  { destruct Hsign as [-> | ->]; [|by exists true].
    exists false. rewrite E. simpl.
    assert ((c =? 45) = false) as -> by (apply N.eqb_neq; intros ->; done).
    assert ((c =? 43) = false) as -> by (apply N.eqb_neq; intros ->; done).
    done. }
  destruct Hsplit as (sg & ->).
  destruct (decide _); [by eexists|]. destruct (decide _); [by eexists|].
  assert (Htail_nd : no_digit_ahead tail = true)
    by (destruct Htail as [->|[k ->]]; done).
  rewrite (span_digits_all (decimal n) tail Dn Htail_nd).
  destruct Htail as [->|[k ->]].
  - change (span_digits [48]) with ([48], @nil N). cbv iota beta.
    rewrite E. by eexists.
  - change (py "e-" ++ decimal k) with (101 :: 45 :: decimal k).
    cbv iota beta. rewrite app_nil_r, E.
    destruct (decimal_head k) as (c' & ds' & E' & D').
    pose proof (decimal_digits k) as Dk.
    pose proof (span_digits_all (decimal k) [] Dk eq_refl) as Hspan.
    rewrite app_nil_r in Hspan.
    change (Reference.exponent (101 :: 45 :: decimal k)) with
      (match span_digits (decimal k) with
       | ((_ :: _) as ds, []) =>
           Some (- Z.of_N (digits_value ds))%Z
       | _ => None
       end).
    rewrite Hspan, E'. by eexists.
Qed.

Lemma reference_repr_literal (f : spec_float) :
  is_finite f = true -> is_float_literal (Reference.float_repr f) = true.
Proof. intros H. by apply numeral_literal, float_repr_numeral. Qed.

Lemma reference_repr_parses (f : spec_float) :
  is_finite f = true ->
  is_Some (Reference.float_of_str (Reference.float_repr f)).
Proof. intros H. by apply numeral_parses, float_repr_numeral. Qed.

End ReferenceFacts.

(** ** Facts about the output files and about crashes *)

(** A loop that stops has converted the rows before the one that raised. *)
Lemma loop_inl rt rows acc e records :
  loop rt rows acc = inl (e, records) ->
  exists new r,
    records = acc ++ new
    /\ rows !! length new = Some r
    /\ make_rec rt r = Raise e
    /\ Forall2 (converts rt) (take (length new) rows) new.
Proof.
  revert acc. induction rows as [|r0 rows IH]; intros acc H; [done|].
  simpl in H. destruct (make_rec rt r0) as [rec|e0] eqn:E.
  - destruct (IH _ H) as (new & r & -> & Hr & He & F).
    exists (rec :: new), r. rewrite <- app_assoc.
    split; [done|]. split; [done|]. split; [done|]. by constructor.
  - injection H as <- <-. exists [], r0. rewrite app_nil_r.
    split; [done|]. split; [done|]. split; [done|]. constructor.
Qed.

(** How a run crashes: before the output files are opened, with the
    world as it was; or in one of the two output streams, once every row
    is converted and the reader has raised nothing. *)
Lemma main_Crashed_cases rt w e records w' :
  main rt w = Crashed e records w' ->
  (w' = w
   /\ ((read_text w INPUT = Raise e /\ records = [])
       \/ exists text lines failure,
            read_text w INPUT = Ok text
            /\ csv_reader rt text = (lines, failure)
            /\ (loop rt (DictReader lines) [] = inl (e, records)
                \/ (loop rt (DictReader lines) [] = inr records
                    /\ failure = Some e))))
  \/ (exists text lines,
        read_text w INPUT = Ok text
        /\ csv_reader rt text = (lines, None)
        /\ loop rt (DictReader lines) [] = inr records
        /\ (write_stream rt TextFile w OUTPUT (plain_text rt records)
            = (w', Some e)
            \/ exists w1,
                 write_stream rt TextFile w OUTPUT (plain_text rt records)
                 = (w1, None)
                 /\ write_stream rt GzipFile w1 ZIP (gzip_text rt records)
                    = (w', Some e))).
Proof.
  unfold main, plain_text, gzip_text. intros H.
  destruct (read_text w INPUT) as [text|e0] eqn:R;
    [|injection H as <- <- <-; left; split; [done|by left]].
  destruct (csv_reader rt text) as [lines failure] eqn:C.
  destruct (loop rt (DictReader lines) []) as [[e0 recs]|recs] eqn:L.
  { injection H as <- <- <-. left. split; [done|]. right.
    exists text, lines, failure. split; [done|]. split; [done|]. by left. }
  destruct failure as [e0|].
  { injection H as <- <- <-. left. split; [done|]. right.
    exists text, lines, (Some e0). split; [done|]. split; [done|]. by right. }
  right. exists text, lines.
  destruct (write_stream rt TextFile w OUTPUT _) as [w1 [e1|]] eqn:W1.
  { injection H as <- <- <-. repeat split; try done. by left. }
  destruct (write_stream rt GzipFile w1 ZIP _) as [w2 [e2|]] eqn:W2; [|done].
  injection H as <- <- <-. repeat split; try done. right. by exists w1.
Qed.

(** How a run that crashes leaves the world: as it found it; or with
    the plain file opened and holding what was written of its text; or
    with the plain file whole and the gzip file opened and holding what
    was written of its text. *)
Lemma main_Crashed rt w e records w' :
  main rt w = Crashed e records w' ->
  w' = w
  \/ (exists written, w' = store w OUTPUT (TextFile written))
  \/ (exists written,
        w' = store (store w OUTPUT (TextFile (plain_text rt records))) ZIP
               (GzipFile written)).
Proof.
  intros H. apply main_Crashed_cases in H
    as [[-> _]|(text & lines & _ & _ & _ & [W|(w1 & W1 & W2)])].
  - by left.
  - apply write_stream_Some in W
      as [(_ & _ & ->)|[(_ & n & _ & ->)|(_ & _ & _ & ->)]];
      [by left|right; left; by eexists..].
  - apply write_stream_None in W1 as (_ & _ & ->).
    apply write_stream_Some in W2
      as [(_ & _ & ->)|[(_ & n & _ & ->)|(_ & _ & _ & ->)]];
      [right; left; by eexists|right; right; by eexists..].
Qed.

Lemma main_Finished_encodable rt w records w' :
  main rt w = Finished records w' ->
  encodable (plain_text rt records) = true
  /\ encodable (gzip_text rt records) = true.
Proof. intros H. by apply main_Finished_streams in H as (_ & _ & ? & ?). Qed.

Section OutputFacts.

Import Json.

Lemma dict_set_fresh (k : str) (v : pyobj) (items : list (str * pyobj)) :
  k ∉ map fst items -> dict_set k v items = items ++ [(k, v)].
Proof.
  induction items as [|[k' v'] items IH]; simpl; [done|].
  intros H. apply not_elem_of_cons in H as [H1 H2].
  destruct (decide (k = k')); [done|]. by rewrite IH.
Qed.

Lemma fold_dict_set_NoDup (items acc : list (str * pyobj)) :
  NoDup (map fst (acc ++ items)) ->
  fold_left (fun d kv => dict_set (fst kv) (snd kv) d) items acc
  = acc ++ items.
Proof.
  revert acc. induction items as [|[k v] items IH]; intros acc H; simpl.
  - by rewrite app_nil_r.
  - rewrite dict_set_fresh.
    + rewrite IH; rewrite <- app_assoc; done.
    + rewrite map_app in H. apply NoDup_app in H as (_ & H & _).
      intros Hk. apply (H k Hk). simpl. left.
Qed.

(** [dict] of pairs with distinct keys is the list of the pairs. *)
Lemma dict_of_pairs_NoDup (items : list (str * pyobj)) :
  NoDup (map fst items) -> dict_of_pairs items = items.
Proof. intros H. unfold dict_of_pairs. by rewrite fold_dict_set_NoDup. Qed.

Lemma decoded_fixed (float_repr : spec_float -> str)
  (parse_float : str -> option spec_float) (o : pyobj) :
  distinct_keys o = true ->
  Forall (fun f => is_finite f = true ->
                   parse_float (float_repr f) = Some f) (floats_of o) ->
  decoded float_repr parse_float o = o.
Proof.
  induction o as [|b|z|f|s|l IH|items IH] using pyobj_induction;
    intros Hk Hf; try done.
  - simpl. unfold reparse. apply Forall_cons in Hf as [Hf _].
    destruct (is_finite f); [|done]. by rewrite Hf.
  - simpl in *. f_equal.
    induction l as [|x l IHl]; [done|]. simpl in *.
    apply Forall_cons in IH as [IHx IH]. apply andb_prop in Hk as [Hx Hk].
    apply Forall_app in Hf as [Fx Hf].
    rewrite IHx by done. by rewrite IHl.
  - simpl in *. apply andb_prop in Hk as [Hn Hk].
    apply bool_decide_eq_true in Hn. f_equal.
    assert (E : map (fun kv => (fst kv, decoded float_repr parse_float (snd kv)))
                  items = items).
    { clear Hn. induction items as [|[k v] items IHi]; [done|]. simpl in *.
      apply Forall_cons in IH as [IHx IH]. apply andb_prop in Hk as [Hx Hk].
      apply Forall_app in Hf as [Fx Hf]. simpl in IHx.
      rewrite IHx by done. by rewrite IHi. }
    rewrite E. by apply dict_of_pairs_NoDup.
Qed.

Lemma obj_distinct_keys (c : cell) : distinct_keys (obj c) = true.
Proof.
  destruct c as [|s|l]; try done. simpl.
  induction l as [|x l IH]; done.
Qed.

Lemma coordinate_distinct_keys (rt : runtime) (r : row) (key : string)
  (v : pyobj) :
  coordinate rt r key = Ok v -> distinct_keys v = true.
Proof.
  intros H. by apply coordinate_Ok in H as [[_ ->]|(s & f & _ & _ & _ & ->)].
Qed.

(** The dictionaries of a record have no key twice. *)
Lemma make_rec_distinct_keys (rt : runtime) (r : row) (rec : pyobj) :
  make_rec rt r = Ok rec -> distinct_keys rec = true.
Proof.
  intros H. apply make_rec_Ok in H
    as (atlas & title & text & lat & lon & _ & _ & _ & Hlat & Hlon & ->).
  apply coordinate_distinct_keys in Hlat, Hlon.
  cbn [distinct_keys forallb fst snd map].
  rewrite Hlat, Hlon, !obj_distinct_keys. vm_compute. apply eq_refl.
Qed.

Lemma loop_distinct_keys (rt : runtime) (rows : list row)
  (acc records : list pyobj) :
  loop rt rows acc = inr records ->
  forallb distinct_keys acc = true ->
  forallb distinct_keys records = true.
Proof.
  revert acc. induction rows as [|r rows IH]; intros acc H Hacc; simpl in H.
  - by injection H as <-.
  - destruct (make_rec rt r) as [rec|e] eqn:E; [|done].
    apply (IH _ H). rewrite forallb_app, Hacc. simpl.
    by rewrite (make_rec_distinct_keys _ _ _ E).
Qed.

Lemma main_Finished_distinct_keys (rt : runtime) (w w' : world)
  (records : list pyobj) :
  main rt w = Finished records w' -> distinct_keys (PList records) = true.
Proof.
  intros H. unfold main in H.
  destruct (read_text w INPUT) as [text|]; [|done].
  destruct (csv_reader rt text) as [lines failure].
  destruct (loop rt (DictReader lines) []) as [[e0 recs]|recs] eqn:Hl; [done|].
  destruct failure; [done|].
  destruct (write_stream _ _ _ _ _) as [w1 [e1|]]; [done|].
  destruct (write_stream _ _ _ _ _) as [w2 [e2|]]; [done|].
  injection H as <- _. simpl. by eapply loop_distinct_keys.
Qed.

Lemma main_Finished_files (rt : runtime) (w w' : world)
  (records : list pyobj) :
  main rt w = Finished records w' ->
  files w' !! OUTPUT = Some (TextFile (plain_text rt records))
  /\ files w' !! ZIP = Some (GzipFile (gzip_text rt records)).
Proof.
  intros H. apply main_Finished in H as (text & lines & _ & _ & _ & ->).
  simpl. rewrite lookup_insert_ne by done. by rewrite !lookup_insert_eq.
Qed.

End OutputFacts.

(** ** The claims about the output files *)

(** C2.  In a run that finishes there is one record per data row, that
    is, per line after the header that is not empty, and the records are
    in the order of these lines: the record at a position is the one
    built from the line at that position.  Both files hold this list:
    the plain file the text of the first [json.dump], the gzip file the
    text of the second, and [json.load] gives the list of the records
    back from either, in the same order, when [repr] writes a finite
    float as a JSON number from which [float] gives the float back. *)
Theorem C2_one_record_per_row_in_input_order
  (rt : runtime) (w w' : world) (records : list pyobj) :
  main rt w = Finished records w' ->
  length records = length (data_lines (input_lines rt w))
  /\ Forall2 (fun fields rec =>
                make_rec rt (make_row (hd [] (input_lines rt w)) fields)
                = Ok rec)
             (data_lines (input_lines rt w)) records
  /\ exists plain payload,
       files w' !! OUTPUT = Some (TextFile plain)
       /\ files w' !! ZIP = Some (GzipFile payload)
       /\ plain = Json.dump_pretty (float_repr rt) (PList records)
       /\ payload = Json.dump_compact (float_repr rt) (PList records)
       /\ ((forall f, is_finite f = true ->
                      Json.is_float_literal (float_repr rt f) = true) ->
           (forall f, is_finite f = true ->
                      is_Some (float_of_str rt (float_repr rt f))) ->
           Forall (fun f => is_finite f = true ->
                            float_of_str rt (float_repr rt f) = Some f)
                  (floats_of (PList records)) ->
           Json.loads (float_of_str rt) plain = Some (PList records)
           /\ Json.loads (float_of_str rt) payload = Some (PList records)).
Proof.
  intros Hmain. pose proof (main_Finished_rows rt _ _ _ Hmain) as F.
  unfold input_rows in F. rewrite DictReader_data_lines in F.
  apply Forall2_map_l in F.
  split; [symmetry; exact (Forall2_length _ _ _ F)|]. split; [exact F|].
  destruct (main_Finished_files _ _ _ _ Hmain) as [F1 F2].
  exists (plain_text rt records), (gzip_text rt records).
  repeat (split; [done|]). intros Hlit Hparse Hround.
  destruct (main_Finished_encodable _ _ _ _ Hmain) as [E1 _].
  apply encodable_jsonable in E1.
  pose proof (main_Finished_distinct_keys _ _ _ _ Hmain) as Hk.
  unfold plain_text, gzip_text, Json.dump_pretty, Json.dump_compact.
  rewrite !(loads_enc _ _ Hlit Hparse) by done.
  by rewrite (decoded_fixed _ _ _ Hk Hround).
Qed.

Lemma C2_witness :
  length Scenario.good_records
  = length (data_lines (input_lines Reference.rt Scenario.good))
  /\ Forall2 (fun fields rec =>
                make_rec Reference.rt
                  (make_row (hd [] (input_lines Reference.rt Scenario.good))
                            fields)
                = Ok rec)
             (data_lines (input_lines Reference.rt Scenario.good))
             Scenario.good_records
  /\ exists plain payload,
       files Scenario.good_after !! OUTPUT = Some (TextFile plain)
       /\ files Scenario.good_after !! ZIP = Some (GzipFile payload)
       /\ Json.loads Reference.float_of_str plain
          = Some (PList Scenario.good_records)
       /\ Json.loads Reference.float_of_str payload
          = Some (PList Scenario.good_records).
Proof.
  destruct (C2_one_record_per_row_in_input_order Reference.rt Scenario.good
              Scenario.good_after Scenario.good_records)
    as (Hlen & Hrows & plain & payload & F1 & F2 & _ & _ & Hload).
  { vm_compute. apply eq_refl. }
  split; [exact Hlen|]. split; [exact Hrows|].
  exists plain, payload. split; [exact F1|]. split; [exact F2|].
  apply Hload;
    [exact reference_repr_literal|exact reference_repr_parses|].
  let l := eval vm_compute in (floats_of (PList Scenario.good_records)) in
  assert (E : floats_of (PList Scenario.good_records) = l)
    by (vm_compute; apply eq_refl);
  rewrite E.
  repeat (apply Forall_cons; split; [intros _; vm_compute; apply eq_refl|]).
  constructor.
Defined.

(** A blank line between two rows is not a row: the run on the scenario
    with an empty line added yields the same records. *)
Example blank_lines_are_skipped :
  Scenario.records_of
    (main Reference.rt
       (Scenario.world_of [Scenario.header; Scenario.alamo; [];
                           Scenario.padded; Scenario.short]))
  = Scenario.good_records.
Proof. vm_compute. apply eq_refl. Qed.

(** C8.  After a run that finishes, [json.load] of what the plain file
    holds and [json.load] of what the gzip file unzips to both succeed
    and give the same list, with one element per record; it is the list
    of the records itself when [float] gives every finite float of the
    records back from its [repr].  The runtime is assumed to write a
    finite float as a JSON number that [float] accepts. *)
Theorem C8_decoding_either_file_gives_the_same_data
  (rt : runtime) (w w' : world) (records : list pyobj)
  (plain payload : str) :
  (forall f, is_finite f = true ->
             Json.is_float_literal (float_repr rt f) = true) ->
  (forall f, is_finite f = true ->
             is_Some (float_of_str rt (float_repr rt f))) ->
  main rt w = Finished records w' ->
  files w' !! OUTPUT = Some (TextFile plain) ->
  files w' !! ZIP = Some (GzipFile payload) ->
  exists data,
    Json.loads (float_of_str rt) plain = Some (PList data)
    /\ Json.loads (float_of_str rt) payload = Some (PList data)
    /\ length data = length records
    /\ (Forall (fun f => is_finite f = true ->
                         float_of_str rt (float_repr rt f) = Some f)
               (floats_of (PList records)) ->
        data = records).
Proof.
  intros Hlit Hparse H F1 F2.
  destruct (main_Finished_files _ _ _ _ H) as [F1' F2'].
  rewrite F1' in F1. rewrite F2' in F2.
  injection F1 as <-. injection F2 as <-.
  destruct (main_Finished_encodable _ _ _ _ H) as [E1 _].
  apply encodable_jsonable in E1.
  pose proof (main_Finished_distinct_keys _ _ _ _ H) as Hk.
  exists (map (decoded (float_repr rt) (float_of_str rt)) records).
  unfold plain_text, gzip_text, Json.dump_pretty, Json.dump_compact.
  rewrite !(loads_enc _ _ Hlit Hparse) by done.
  repeat (split; [done|]). split; [by rewrite length_map|].
  intros Hround.
  pose proof (decoded_fixed _ _ _ Hk Hround) as E. by injection E.
Qed.

Lemma C8_witness :
  exists data,
    Json.loads Reference.float_of_str
      (plain_text Reference.rt Scenario.good_records) = Some (PList data)
    /\ Json.loads Reference.float_of_str
         (gzip_text Reference.rt Scenario.good_records) = Some (PList data)
    /\ length data = length Scenario.good_records
    /\ (Forall (fun f => is_finite f = true ->
                         Reference.float_of_str (Reference.float_repr f)
                         = Some f)
               (floats_of (PList Scenario.good_records)) ->
        data = Scenario.good_records).
Proof.
  apply (C8_decoding_either_file_gives_the_same_data Reference.rt
           Scenario.good Scenario.good_after Scenario.good_records
           (plain_text Reference.rt Scenario.good_records)
           (gzip_text Reference.rt Scenario.good_records)
           reference_repr_literal reference_repr_parses).
  - vm_compute. apply eq_refl.
  - vm_compute. apply eq_refl.
  - vm_compute. apply eq_refl.
Defined.

(** ** Whole runs: what is printed and what is written *)

(** X1.  A finished run prints one line, with the number of records, which
    is the number of rows; a crashed run prints nothing. *)
Theorem summary_is_printed_once_and_only_on_success
  (rt : runtime) (w : world) :
  match main rt w with
  | Finished records w' =>
      stdout w' = stdout w ++ [summary_line (length records)]
      /\ length records = length (input_rows rt w)
  | Crashed _ _ w' => stdout w' = stdout w
  end.
Proof.
  destruct (main rt w) as [records w'|e records w'] eqn:H.
  - pose proof (main_Finished_rows rt _ _ _ H) as F.
    apply main_Finished in H as (text & lines & _ & _ & _ & ->).
    split; [reflexivity|]. symmetry. by eapply Forall2_length.
  - apply main_Crashed in H as [-> | [[? ->]|[? ->]]]; done.
Qed.

(** X2.  A run touches no file but the two output files; the input file in
    particular is left as it was. *)
Theorem only_the_two_output_files_are_written
  (rt : runtime) (w : world) (path : string) :
  path <> OUTPUT -> path <> ZIP ->
  files (Scenario.world_after (main rt w)) !! path = files w !! path.
Proof.
  intros H1 H2. destruct (main rt w) as [records w'|e records w'] eqn:H; simpl.
  - apply main_Finished in H as (text & lines & _ & _ & _ & ->). simpl.
    by rewrite !lookup_insert_ne.
  - apply main_Crashed in H as [-> | [[? ->]|[? ->]]]; simpl;
      by rewrite ?lookup_insert_ne.
Qed.

Lemma only_the_two_output_files_are_written_witness :
  files (Scenario.world_after (main Reference.rt Scenario.good)) !! INPUT
  = files Scenario.good !! INPUT.
Proof.
  apply (only_the_two_output_files_are_written Reference.rt Scenario.good INPUT);
    [vm_compute; discriminate|vm_compute; discriminate].
Defined.

(** X3.  Nothing is written before every row is converted.  A run that
    raises having changed anything had converted every row, the reader
    had raised nothing, and the exception is that of an output stream:
    [UnicodeEncodeError], or [OSError] from the operating system.  The
    gzip file is as it was unless the plain file is whole. *)
Theorem nothing_is_written_before_every_row_is_converted
  (rt : runtime) (w w' : world) (e : exn) (records : list pyobj) :
  main rt w = Crashed e records w' ->
  w' <> w ->
  Forall2 (converts rt) (input_rows rt w) records
  /\ (exists text,
        read_text w INPUT = Ok text /\ snd (csv_reader rt text) = None)
  /\ (e = UnicodeEncodeError \/ e = OSError)
  /\ (files w' !! ZIP = files w !! ZIP
      \/ files w' !! OUTPUT = Some (TextFile (plain_text rt records))).
Proof.
  intros H Hw. apply main_Crashed_cases in H
    as [[-> _]|(text & lines & R & C & L & W)]; [done|].
  split.
  { unfold input_rows, input_lines. rewrite R, C. simpl.
    by apply loop_inr in L as (new & -> & F). }
  split; [exists text; by rewrite C|].
  destruct W as [W|(w1 & W1 & W2)].
  - apply write_stream_Some in W
      as [(-> & _ & ->)|[(-> & n & _ & ->)|(-> & _ & _ & ->)]]; [done|..];
      (split; [by auto|]); left; simpl; by rewrite lookup_insert_ne.
  - apply write_stream_None in W1 as (_ & _ & ->).
    apply write_stream_Some in W2
      as [(-> & _ & ->)|[(-> & n & _ & ->)|(-> & _ & _ & ->)]];
      (split; [by auto|]); right; simpl;
      rewrite ?lookup_insert_ne by done; by rewrite lookup_insert_eq.
Qed.

Lemma nothing_is_written_before_every_row_is_converted_witness :
  Forall2 (converts (Reference.with_access ZIP Denied))
    (input_rows (Reference.with_access ZIP Denied) Scenario.good)
    Scenario.good_records
  /\ (exists text,
        read_text Scenario.good INPUT = Ok text
        /\ snd (csv_reader (Reference.with_access ZIP Denied) text) = None)
  /\ (OSError = UnicodeEncodeError \/ OSError = OSError)
  /\ (files (store Scenario.good OUTPUT
               (TextFile (plain_text Reference.rt Scenario.good_records)))
       !! ZIP
      = files Scenario.good !! ZIP
      \/ files (store Scenario.good OUTPUT
                  (TextFile (plain_text Reference.rt Scenario.good_records)))
          !! OUTPUT
         = Some (TextFile (plain_text (Reference.with_access ZIP Denied)
                             Scenario.good_records))).
Proof.
  apply (nothing_is_written_before_every_row_is_converted
           (Reference.with_access ZIP Denied) Scenario.good
           (store Scenario.good OUTPUT
              (TextFile (plain_text Reference.rt Scenario.good_records)))
           OSError Scenario.good_records).
  - vm_compute. apply eq_refl.
  - intros E. apply (f_equal (fun w => files w !! OUTPUT)) in E.
    vm_compute in E. discriminate E.
Defined.

(** X4.  Without the input file the run raises [FileNotFoundError] before
    it converts anything. *)
Theorem missing_input_raises_FileNotFoundError
  (rt : runtime) (w : world) :
  files w !! INPUT = None ->
  main rt w = Crashed FileNotFoundError [] w.
Proof. intros H. unfold main, read_text. by rewrite H. Qed.

Lemma missing_input_raises_FileNotFoundError_witness :
  main Reference.rt {| files := ∅; stdout := [] |}
  = Crashed FileNotFoundError [] {| files := ∅; stdout := [] |}.
Proof.
  apply (missing_input_raises_FileNotFoundError Reference.rt).
  reflexivity.
Defined.

(** X5.  An input without rows (no line at all, a header only, or blank
    lines after the header) is not an error: where the operating system
    lets both files be written, the run finishes, both files hold an
    empty JSON array and the summary counts zero markers. *)
Theorem no_rows_gives_empty_arrays
  (rt : runtime) (w : world) (text : str) (lines : list (list str)) :
  read_text w INPUT = Ok text ->
  csv_reader rt text = (lines, None) ->
  DictReader lines = [] ->
  output_access rt OUTPUT = Granted ->
  output_access rt ZIP = Granted ->
  exists w',
    main rt w = Finished [] w'
    /\ files w' !! OUTPUT = Some (TextFile (py "[]"))
    /\ files w' !! ZIP = Some (GzipFile (py "[]"))
    /\ stdout w' = stdout w ++ [summary_line 0].
Proof.
  intros Hr Hc Hd A1 A2. unfold main, write_stream.
  rewrite Hr, Hc, Hd, A1. simpl. rewrite A2. simpl.
  eexists. split; [reflexivity|]. simpl.
  rewrite lookup_insert_ne by done. by rewrite !lookup_insert_eq.
Qed.

Lemma no_rows_gives_empty_arrays_witness :
  exists w',
    main Reference.rt (Scenario.world_of [Scenario.header; []]) = Finished [] w'
    /\ files w' !! OUTPUT = Some (TextFile (py "[]"))
    /\ files w' !! ZIP = Some (GzipFile (py "[]"))
    /\ stdout w' = stdout (Scenario.world_of [Scenario.header; []])
                   ++ [summary_line 0].
Proof.
  apply (no_rows_gives_empty_arrays Reference.rt
           (Scenario.world_of [Scenario.header; []])
           (Scenario.csv [Scenario.header; []])
           [Scenario.header; []]).
  - reflexivity.
  - vm_compute. apply eq_refl.
  - reflexivity.
  - reflexivity.
  - reflexivity.
Defined.

(** ** More facts about single rows *)

Lemma make_rec_columns (rt : runtime) (r1 r2 : row) :
  (forall key, key ∈ columns -> r1 !! Some (py key) = r2 !! Some (py key)) ->
  make_rec rt r1 = make_rec rt r2.
Proof.
  intros H.
  assert (Hget : forall key d, key ∈ columns -> get r1 key d = get r2 key d).
  { intros key d Hk. unfold get. by rewrite (H key Hk). }
  assert (Hitem : forall key, key ∈ columns -> item r1 key = item r2 key).
  { intros key Hk. unfold item. by rewrite (H key Hk). }
  unfold make_rec, coordinate, columns in *.
  rewrite !Hget, !Hitem; try done;
    apply (bool_decide_unpack _); vm_compute; exact I.
Qed.

(** X6.  The record of a row depends on the row through the eight columns
    that the script names, and on nothing else: neither on other columns,
    nor on the order of the columns, nor on fields beyond the header. *)
Theorem record_depends_on_the_eight_columns_only
  (rt : runtime) (r1 r2 : row) :
  (forall key, key ∈ columns -> r1 !! Some (py key) = r2 !! Some (py key)) ->
  make_rec rt r1 = make_rec rt r2.
Proof. exact (make_rec_columns rt r1 r2). Qed.

Lemma record_depends_on_the_eight_columns_only_witness :
  make_rec Reference.rt (make_row Scenario.header Scenario.alamo)
  = make_rec Reference.rt
      (make_row (rev Scenario.header ++ [py "Extra"])
                (rev Scenario.alamo ++ [py "ignored"])).
Proof.
  apply (record_depends_on_the_eight_columns_only Reference.rt).
  intros key Hk. unfold columns in Hk.
  repeat (apply elem_of_cons in Hk as [->|Hk]; [reflexivity|]).
  by apply elem_of_nil in Hk.
Defined.

Lemma combine_app_r (h f extra : list str) :
  (length h <= length f)%nat -> combine h (f ++ extra) = combine h f.
Proof.
  revert f. induction h as [|x h IH]; intros [|y f] Hl; simpl in *;
    try done; try lia.
  rewrite IH; [done|lia].
Qed.

(** X7.  Fields of a line beyond the last column of the header are kept
    apart from the columns (under the key [None]) and leave the record as
    it is without them. *)
Theorem surplus_fields_are_ignored
  (rt : runtime) (fieldnames fields extra : list str) :
  (length fieldnames <= length fields)%nat ->
  make_rec rt (make_row fieldnames (fields ++ extra))
  = make_rec rt (make_row fieldnames fields).
Proof.
  intros Hl. apply make_rec_columns. intros key _.
  unfold make_row, dict_zip. rewrite combine_app_r by done.
  rewrite length_app.
  destruct (Nat.ltb_spec (length fieldnames) (length fields + length extra));
    destruct (Nat.ltb_spec (length fieldnames) (length fields));
    rewrite ?lookup_insert_ne by done;
    destruct (Nat.ltb_spec (length fields + length extra) (length fieldnames));
    destruct (Nat.ltb_spec (length fields) (length fieldnames));
    try lia; done.
Qed.

Lemma surplus_fields_are_ignored_witness :
  make_rec Reference.rt
    (make_row Scenario.header (Scenario.alamo ++ [py "more"; py "fields"]))
  = make_rec Reference.rt (make_row Scenario.header Scenario.alamo).
Proof.
  apply (surplus_fields_are_ignored Reference.rt). vm_compute. lia.
Defined.

(** X8.  The title, the description and what follows the prefix in the id
    are the columns' texts without the white space around them: white
    space inside is kept, and nothing but white space is taken away. *)
Theorem stripped_fields_lose_surrounding_space_only
  (rt : runtime) (r : row) (rec : pyobj) :
  make_rec rt r = Ok rec ->
  exists atlas title text,
    get r "AtlasNumber" (CStr []) = CStr atlas
    /\ get r "MarkerTitle" (CStr []) = CStr title
    /\ get r "MarkerText" (CStr []) = CStr text
    /\ exists id_suffix title' text',
         getitem rec "id" = Some (PStr (py "tx-thc-" ++ id_suffix))
         /\ getitem rec "title" = Some (PStr title')
         /\ getitem rec "description" = Some (PStr text')
         /\ trimmed_of atlas id_suffix
         /\ trimmed_of title title'
         /\ trimmed_of text text'.
Proof.
  intros H. apply make_rec_Ok in H
    as (atlas & title & text & lat & lon & G1 & G2 & G3 & _ & _ & ->).
  exists atlas, title, text. repeat (split; [done|]).
  exists (strip atlas), (strip title), (strip text).
  repeat split; try reflexivity; apply strip_trimmed.
Qed.

Lemma stripped_fields_lose_surrounding_space_only_witness :
  exists atlas title text,
    get (make_row Scenario.header Scenario.alamo) "AtlasNumber" (CStr [])
    = CStr atlas
    /\ get (make_row Scenario.header Scenario.alamo) "MarkerTitle" (CStr [])
       = CStr title
    /\ get (make_row Scenario.header Scenario.alamo) "MarkerText" (CStr [])
       = CStr text
    /\ exists id_suffix title' text',
         getitem alamo_record "id" = Some (PStr (py "tx-thc-" ++ id_suffix))
         /\ getitem alamo_record "title" = Some (PStr title')
         /\ getitem alamo_record "description" = Some (PStr text')
         /\ trimmed_of atlas id_suffix
         /\ trimmed_of title title'
         /\ trimmed_of text text'.
Proof.
  apply (stripped_fields_lose_surrounding_space_only Reference.rt
           (make_row Scenario.header Scenario.alamo)).
  vm_compute. apply eq_refl.
Defined.

(** X9.  A header that names none of the eight columns is not an error:
    every line then yields the same record, with an id that is the bare
    prefix, empty strings and no coordinates. *)
Theorem a_header_without_the_columns_gives_blank_records
  (rt : runtime) (fieldnames fields : list str) :
  (forall key, key ∈ columns -> py key ∉ fieldnames) ->
  make_rec rt (make_row fieldnames fields) = Ok blank_record.
Proof.
  intros H.
  rewrite (make_rec_columns rt _ ∅); [done|].
  intros key Hk. rewrite lookup_empty. by apply make_row_None, H.
Qed.

Lemma a_header_without_the_columns_gives_blank_records_witness :
  make_rec Reference.rt
    (make_row (map py ["atlas_number"; "title"; "latitude"]%string)
              (map py ["5535"; "Alamo"; "29.4260"]%string))
  = Ok blank_record.
Proof.
  apply (a_header_without_the_columns_gives_blank_records Reference.rt).
  intros key Hk. unfold columns in Hk.
  repeat (apply elem_of_cons in Hk as [-> | Hk];
          [apply (bool_decide_unpack _); vm_compute; exact I|]).
  by apply elem_of_nil in Hk.
Defined.

Lemma fold_zip_fresh (l : list (str * str)) (d : row) (k : str) :
  k ∉ map fst l ->
  fold_left (fun d kv => <[Some (fst kv) := CStr (snd kv)]> d) l d !! Some k
  = d !! Some k.
Proof.
  revert d. induction l as [|[k' s] l IH]; intros d; simpl; [done|].
  intros [Hne Hk]%not_elem_of_cons. rewrite IH by done.
  rewrite lookup_insert_ne; [done|congruence].
Qed.

Lemma fold_zip_last (h f : list str) (d : row) (i : nat) (k s : str) :
  h !! i = Some k -> f !! i = Some s ->
  (forall j, (i < j)%nat -> h !! j <> Some k) ->
  fold_left (fun d kv => <[Some (fst kv) := CStr (snd kv)]> d)
            (combine h f) d !! Some k
  = Some (CStr s).
Proof.
  revert f d i. induction h as [|x h IH]; intros [|y f] d i Hh Hf Hlast;
    try done.
  destruct i as [|i]; simpl in *.
  - injection Hh as ->. injection Hf as ->. rewrite fold_zip_fresh.
    + by rewrite lookup_insert_eq.
    + rewrite combine_fst_take. intros Hk.
      apply list_elem_of_lookup in Hk as [j Hj].
      apply lookup_take_Some in Hj as [Hj _].
      apply (Hlast (S j)); [lia|done].
  - apply (IH f _ i Hh Hf). intros j Hj. apply (Hlast (S j)). lia.
Qed.

(** X10.  The cell under a column name is the field at the position of
    that name in the header, the last such position if the header has the
    name more than once. *)
Theorem a_cell_is_the_field_under_the_last_column_of_its_name
  (fieldnames fields : list str) (i : nat) (k s : str) :
  fieldnames !! i = Some k -> fields !! i = Some s ->
  (forall j, (i < j)%nat -> fieldnames !! j <> Some k) ->
  make_row fieldnames fields !! Some k = Some (CStr s).
Proof.
  intros Hh Hf Hlast. unfold make_row, dict_zip.
  pose proof (fold_zip_last _ _ ∅ _ _ _ Hh Hf Hlast) as Hzip.
  destruct (length fieldnames <? length fields)%nat;
    [by rewrite lookup_insert_ne|].
  destruct (length fields <? length fieldnames)%nat; [|done].
  rewrite fold_restval. rewrite decide_False; [done|].
  intros Hk. apply list_elem_of_lookup in Hk as [j Hj].
  rewrite lookup_drop in Hj. apply lookup_lt_Some in Hf.
  apply (Hlast (length fields + j)%nat); [lia|done].
Qed.

Lemma a_cell_is_the_field_under_the_last_column_of_its_name_witness :
  make_row (map py ["City"; "County"; "City"]%string)
           (map py ["Waco"; "McLennan"; "Austin"]%string) !! Some (py "City")
  = Some (CStr (py "Austin")).
Proof.
  apply (a_cell_is_the_field_under_the_last_column_of_its_name
           (map py ["City"; "County"; "City"]%string)
           (map py ["Waco"; "McLennan"; "Austin"]%string) 2).
  - reflexivity.
  - reflexivity.
  - intros [|[|[|j]]] Hj; try lia. simpl. discriminate.
Defined.

(** ** What the two files hold *)

(** X11.  [json.load] of the plain file and [json.load] of the unzipped
    gzip file both succeed and give the same data, when the runtime writes
    a finite float as a JSON number that [float] accepts. *)
Theorem both_files_decode_to_the_same_data
  (rt : runtime) (w w' : world) (records : list pyobj) :
  (forall f, is_finite f = true ->
             Json.is_float_literal (float_repr rt f) = true) ->
  (forall f, is_finite f = true ->
             is_Some (float_of_str rt (float_repr rt f))) ->
  main rt w = Finished records w' ->
  exists plain payload data,
    files w' !! OUTPUT = Some (TextFile plain)
    /\ files w' !! ZIP = Some (GzipFile payload)
    /\ Json.loads (float_of_str rt) plain = Some (PList data)
    /\ Json.loads (float_of_str rt) payload = Some (PList data)
    /\ length data = length records.
Proof.
  intros Hlit Hparse H.
  destruct (main_Finished_files _ _ _ _ H) as [F1 F2].
  destruct (main_Finished_encodable _ _ _ _ H) as [E1 _].
  apply encodable_jsonable in E1.
  exists (plain_text rt records), (gzip_text rt records),
    (map (decoded (float_repr rt) (float_of_str rt)) records).
  split; [done|]. split; [done|].
  unfold plain_text, gzip_text, Json.dump_pretty, Json.dump_compact.
  rewrite !(loads_enc _ _ Hlit Hparse) by done.
  by rewrite length_map.
Qed.

Lemma both_files_decode_to_the_same_data_witness :
  exists plain payload data,
    files Scenario.good_after !! OUTPUT = Some (TextFile plain)
    /\ files Scenario.good_after !! ZIP = Some (GzipFile payload)
    /\ Json.loads Reference.float_of_str plain = Some (PList data)
    /\ Json.loads Reference.float_of_str payload = Some (PList data)
    /\ length data = length Scenario.good_records.
Proof.
  apply (both_files_decode_to_the_same_data Reference.rt Scenario.good
           Scenario.good_after Scenario.good_records
           reference_repr_literal reference_repr_parses).
  vm_compute. apply eq_refl.
Defined.

(** X12.  When [float] gives back every finite float of the records from
    its [repr], as Python's does, [json.load] of what either file holds
    gives back the list of records as it was in memory: nothing is lost
    or reordered, and no key of a record hides another. *)
Theorem either_file_decodes_to_the_records
  (rt : runtime) (w w' : world) (records : list pyobj) :
  (forall f, is_finite f = true ->
             Json.is_float_literal (float_repr rt f) = true) ->
  (forall f, is_finite f = true ->
             is_Some (float_of_str rt (float_repr rt f))) ->
  Forall (fun f => is_finite f = true ->
                   float_of_str rt (float_repr rt f) = Some f)
         (floats_of (PList records)) ->
  main rt w = Finished records w' ->
  exists plain payload,
    files w' !! OUTPUT = Some (TextFile plain)
    /\ files w' !! ZIP = Some (GzipFile payload)
    /\ Json.loads (float_of_str rt) plain = Some (PList records)
    /\ Json.loads (float_of_str rt) payload = Some (PList records).
Proof.
  intros Hlit Hparse Hround H.
  destruct (main_Finished_files _ _ _ _ H) as [F1 F2].
  destruct (main_Finished_encodable _ _ _ _ H) as [E1 _].
  apply encodable_jsonable in E1.
  pose proof (main_Finished_distinct_keys _ _ _ _ H) as Hk.
  exists (plain_text rt records), (gzip_text rt records).
  split; [done|]. split; [done|].
  unfold plain_text, gzip_text, Json.dump_pretty, Json.dump_compact.
  rewrite !(loads_enc _ _ Hlit Hparse) by done.
  by rewrite (decoded_fixed _ _ _ Hk Hround).
Qed.

Lemma either_file_decodes_to_the_records_witness :
  exists plain payload,
    files Scenario.good_after !! OUTPUT = Some (TextFile plain)
    /\ files Scenario.good_after !! ZIP = Some (GzipFile payload)
    /\ Json.loads Reference.float_of_str plain
       = Some (PList Scenario.good_records)
    /\ Json.loads Reference.float_of_str payload
       = Some (PList Scenario.good_records).
Proof.
  apply (either_file_decodes_to_the_records Reference.rt Scenario.good
           Scenario.good_after Scenario.good_records
           reference_repr_literal reference_repr_parses).
  - let l := eval vm_compute in (floats_of (PList Scenario.good_records)) in
    assert (E : floats_of (PList Scenario.good_records) = l)
      by (vm_compute; apply eq_refl);
    rewrite E.
    repeat (apply Forall_cons; split; [intros _; vm_compute; apply eq_refl|]).
    constructor.
  - vm_compute. apply eq_refl.
Defined.

(** ** Which rows fail, and how a run can end *)

Section FailureFacts.

Variable rt : runtime.

Lemma from_reader_get (r : row) (key : string) (s0 : str) :
  from_reader r ->
  get r key (CStr s0) = CNone \/ exists s, get r key (CStr s0) = CStr s.
Proof.
  intros Hr. unfold get.
  destruct (r !! Some (py key)) as [c|] eqn:E; [|right; by eexists].
  destruct (Hr _ _ E) as [->|[s ->]]; [by left|right; by eexists].
Qed.

Lemma from_reader_coordinate (r : row) (key : string) :
  from_reader r ->
  (unparsable rt r key /\ coordinate rt r key = Raise ValueError)
  \/ (~ unparsable rt r key /\ exists v, coordinate rt r key = Ok v).
Proof.
  intros Hr. unfold unparsable, coordinate, get, item.
  destruct (r !! Some (py key)) as [c|] eqn:E.
  - destruct (Hr _ _ E) as [->|[s ->]].
    + right. split; [by intros (s & ? & _)|by eexists].
    + destruct s as [|x s].
      * right. split; [by intros (s & [= <-] & ? & _)|by eexists].
      * simpl. destruct (float_of_str rt (x :: s)) as [f|] eqn:F; simpl.
        -- right. split; [|by eexists].
           intros (s' & [= <-] & _ & F'). congruence.
        -- left. split; [|done]. by exists (x :: s).
  - right. split; [by intros (s & ? & _)|by eexists].
Qed.

End FailureFacts.

(** A row of the reader raises nothing but [AttributeError] and
    [ValueError]. *)
Lemma make_rec_raises (rt : runtime) (r : row) (e : exn) :
  from_reader r -> make_rec rt r = Raise e ->
  e = AttributeError \/ e = ValueError.
Proof.
  intros Hr. unfold make_rec.
  destruct (from_reader_get r "AtlasNumber" [] Hr) as [-> | [atlas ->]];
    [intros [= <-]; by left|].
  destruct (from_reader_get r "MarkerTitle" [] Hr) as [-> | [title ->]];
    [intros [= <-]; by left|].
  destruct (from_reader_get r "MarkerText" [] Hr) as [-> | [text ->]];
    [intros [= <-]; by left|].
  simpl.
  destruct (from_reader_coordinate rt r "Latitude" Hr) as [[_ ->]|[_ [v1 ->]]];
    simpl; [intros [= <-]; by right|].
  destruct (from_reader_coordinate rt r "Longitude" Hr) as [[_ ->]|[_ [v2 ->]]];
    simpl; [intros [= <-]; by right|done].
Qed.

(** X13.  A row of the reader fails to convert for two reasons only, and
    the first one wins: one of the three stripped columns is [None]
    ([AttributeError]), or else a coordinate is not empty and is not a
    number ([ValueError]). Every other row is converted; [KeyError] and
    [TypeError] are never raised. *)
Theorem a_row_fails_only_for_a_missing_text_or_a_bad_coordinate
  (rt : runtime) (r : row) :
  from_reader r ->
  match make_rec rt r with
  | Ok _ =>
      text_columns_are_strings r
      /\ ~ unparsable rt r "Latitude" /\ ~ unparsable rt r "Longitude"
  | Raise e =>
      (e = AttributeError /\ ~ text_columns_are_strings r)
      \/ (e = ValueError /\ text_columns_are_strings r
          /\ (unparsable rt r "Latitude" \/ unparsable rt r "Longitude"))
  end.
Proof.
  intros Hr.
  destruct (from_reader_get r "AtlasNumber" [] Hr) as [G1|[atlas G1]];
    [rewrite make_rec_AttributeError by auto; left; split; [done|];
     intros (? & ? & ? & ? & _); congruence|].
  destruct (from_reader_get r "MarkerTitle" [] Hr) as [G2|[title G2]];
    [rewrite make_rec_AttributeError by auto; left; split; [done|];
     intros (? & ? & ? & _ & ? & _); congruence|].
  destruct (from_reader_get r "MarkerText" [] Hr) as [G3|[text G3]];
    [rewrite make_rec_AttributeError by auto; left; split; [done|];
     intros (? & ? & ? & _ & _ & ?); congruence|].
  assert (T : text_columns_are_strings r) by (by exists atlas, title, text).
  unfold make_rec. rewrite G1, G2, G3. simpl.
  destruct (from_reader_coordinate rt r "Latitude" Hr) as [[U1 ->]|[U1 [v1 ->]]];
    simpl; [right; auto|].
  destruct (from_reader_coordinate rt r "Longitude" Hr) as [[U2 ->]|[U2 [v2 ->]]];
    simpl; [right; auto|done].
Qed.

Lemma a_row_fails_only_for_a_missing_text_or_a_bad_coordinate_witness :
  match make_rec Reference.rt
          (make_row Scenario.header Scenario.no_latitude) with
  | Ok _ =>
      text_columns_are_strings (make_row Scenario.header Scenario.no_latitude)
      /\ ~ unparsable Reference.rt
             (make_row Scenario.header Scenario.no_latitude) "Latitude"
      /\ ~ unparsable Reference.rt
             (make_row Scenario.header Scenario.no_latitude) "Longitude"
  | Raise e =>
      (e = AttributeError
       /\ ~ text_columns_are_strings
              (make_row Scenario.header Scenario.no_latitude))
      \/ (e = ValueError
          /\ text_columns_are_strings
               (make_row Scenario.header Scenario.no_latitude)
          /\ (unparsable Reference.rt
                (make_row Scenario.header Scenario.no_latitude) "Latitude"
              \/ unparsable Reference.rt
                   (make_row Scenario.header Scenario.no_latitude)
                   "Longitude"))
  end.
Proof.
  apply (a_row_fails_only_for_a_missing_text_or_a_bad_coordinate Reference.rt).
  intros k c. apply make_row_cell.
Defined.

(** X14.  A run raises in one of four ways only.  The input cannot be
    opened or read.  Or the row after the last record raises, and it
    raises [AttributeError] or [ValueError]: the subscript
    [row["Latitude"]] never raises [KeyError], and [float] is never given
    anything but a string.  Or the reader raises, once every row it
    yielded is converted.  In these three cases nothing was written.  Or
    else every row is converted and an output stream raises: [OSError]
    when the operating system does not let one of the two files be
    written, [UnicodeEncodeError] when one of the two texts cannot be
    encoded. *)
Theorem a_run_raises_only_these
  (rt : runtime) (w w' : world) (e : exn) (records : list pyobj) :
  main rt w = Crashed e records w' ->
  (read_text w INPUT = Raise e /\ records = [] /\ w' = w)
  \/ (exists r,
        input_rows rt w !! length records = Some r
        /\ make_rec rt r = Raise e
        /\ (e = AttributeError \/ e = ValueError)
        /\ w' = w)
  \/ (exists text,
        read_text w INPUT = Ok text
        /\ snd (csv_reader rt text) = Some e
        /\ Forall2 (converts rt) (input_rows rt w) records
        /\ w' = w)
  \/ (Forall2 (converts rt) (input_rows rt w) records
      /\ ((e = OSError
           /\ (output_access rt OUTPUT <> Granted
               \/ output_access rt ZIP <> Granted))
          \/ (e = UnicodeEncodeError
              /\ (encodable (plain_text rt records) = false
                  \/ encodable (gzip_text rt records) = false)))).
Proof.
  intros H. apply main_Crashed_cases in H
    as [[-> [[R ->]|(text & lines & failure & R & C & [L|[L ->]])]]
       |(text & lines & R & C & L & W)].
  - by left.
  - right. left. apply loop_inl in L as (new & r & -> & Hr & He & F).
    exists r. unfold input_rows, input_lines. rewrite R, C. simpl.
    split; [exact Hr|]. split; [exact He|]. split; [|done].
    apply (make_rec_raises rt r e); [|exact He].
    intros k c. apply list_elem_of_lookup_2, list_elem_of_lookup in Hr as [i Hi].
    apply DictReader_row in Hi as (h & rest & f & _ & _ & _ & ->).
    apply make_row_cell.
  - right. right. left. exists text. rewrite C. split; [done|].
    split; [done|]. split; [|done].
    unfold input_rows, input_lines. rewrite R, C. simpl.
    by apply loop_inr in L as (new & -> & F).
  - right. right. right. split.
    { unfold input_rows, input_lines. rewrite R, C. simpl.
      by apply loop_inr in L as (new & -> & F). }
    destruct W as [W|(w1 & W1 & W2)].
    + apply write_stream_Some in W
        as [(-> & A & _)|[(-> & n & A & _)|(-> & E & _)]].
      * left. split; [done|]. left. by rewrite A.
      * left. split; [done|]. left. by rewrite A.
      * right. split; [done|]. by left.
    + apply write_stream_Some in W2
        as [(-> & A & _)|[(-> & n & A & _)|(-> & E & _)]].
      * left. split; [done|]. right. by rewrite A.
      * left. split; [done|]. right. by rewrite A.
      * right. split; [done|]. by right.
Qed.

Lemma a_run_raises_only_these_witness :
  (read_text Scenario.bad_latitude INPUT = Raise ValueError
   /\ [alamo_record] = [] /\ Scenario.bad_latitude = Scenario.bad_latitude)
  \/ (exists r,
        input_rows Reference.rt Scenario.bad_latitude
          !! length [alamo_record] = Some r
        /\ make_rec Reference.rt r = Raise ValueError
        /\ (ValueError = AttributeError \/ ValueError = ValueError)
        /\ Scenario.bad_latitude = Scenario.bad_latitude)
  \/ (exists text,
        read_text Scenario.bad_latitude INPUT = Ok text
        /\ snd (csv_reader Reference.rt text) = Some ValueError
        /\ Forall2 (converts Reference.rt)
             (input_rows Reference.rt Scenario.bad_latitude) [alamo_record]
        /\ Scenario.bad_latitude = Scenario.bad_latitude)
  \/ (Forall2 (converts Reference.rt)
        (input_rows Reference.rt Scenario.bad_latitude) [alamo_record]
      /\ ((ValueError = OSError
           /\ (output_access Reference.rt OUTPUT <> Granted
               \/ output_access Reference.rt ZIP <> Granted))
          \/ (ValueError = UnicodeEncodeError
              /\ (encodable (plain_text Reference.rt [alamo_record]) = false
                  \/ encodable (gzip_text Reference.rt [alamo_record])
                     = false)))).
Proof.
  apply (a_run_raises_only_these Reference.rt Scenario.bad_latitude
           Scenario.bad_latitude ValueError [alamo_record]).
  vm_compute. apply eq_refl.
Defined.

(** ** The characters that the encoder writes *)

Section EncoderChars.

Import Json.

Variable p : N -> bool.
Variable q : str -> bool.
Variable float_repr : spec_float -> str.
Variable ensure_ascii : bool.
Variable indent : option nat.

Hypothesis p_printable : forall c, is_printable c = true -> p c = true.
Hypothesis p_newline : is_Some indent -> p 10 = true.
Hypothesis p_float :
  forall f, is_finite f = true -> forallb p (float_repr f) = true.
Hypothesis p_encoder :
  forall s, q s = true -> forallb p (encoder ensure_ascii s) = true.

Lemma chars_printable (s : str) : printable s = true -> forallb p s = true.
Proof.
  induction s as [|c s IH]; [done|]. simpl.
  intros [Hc Hs]%andb_prop. by rewrite (p_printable _ Hc), IH.
Qed.

Lemma chars_newline_indent (n level : nat) :
  p 10 = true -> forallb p (newline_indent n level) = true.
Proof.
  intros H. unfold newline_indent. simpl. rewrite H. simpl.
  apply chars_printable. induction (n * level)%nat; done.
Qed.

Lemma chars_opening (level : nat) : forallb p (opening indent level) = true.
Proof.
  generalize p_newline. unfold opening. case indent; [|done].
  intros n H. by apply chars_newline_indent, H.
Qed.

Lemma chars_closing (level : nat) : forallb p (closing indent level) = true.
Proof.
  generalize p_newline. unfold closing. case indent; [|done].
  intros n H. by apply chars_newline_indent, H.
Qed.

Lemma chars_separator (level : nat) :
  forallb p (item_separator indent ++ opening indent level) = true.
Proof.
  rewrite forallb_app, chars_opening, andb_true_r.
  apply chars_printable. unfold item_separator. by case indent.
Qed.

Lemma chars_digits (s : str) : forallb is_digit s = true -> forallb p s = true.
Proof.
  intros H. apply chars_printable. induction s as [|c s IH]; [done|].
  simpl in *. apply andb_prop in H as [Hc Hs]. rewrite (IH Hs), andb_true_r.
  unfold is_digit in Hc. apply andb_prop in Hc as [H1 H2].
  apply N.leb_le in H1, H2. unfold is_printable.
  apply andb_true_intro. split; apply N.leb_le; lia.
Qed.

Lemma chars_int (z : Z) : forallb p (int_repr z) = true.
Proof.
  destruct z as [|n|n]; unfold int_repr.
  - apply chars_digits, decimal_digits.
  - apply chars_digits, decimal_digits.
  - cbn [forallb]. rewrite p_printable by done.
    apply chars_digits, decimal_digits.
Qed.

Lemma chars_floatstr (f : spec_float) : forallb p (floatstr float_repr f) = true.
Proof.
  destruct f as [s| [|] | |s m e]; unfold floatstr;
    first [by apply p_float | by apply chars_printable].
Qed.

Lemma chars_join_tail (sep : str) (chunks : list str) :
  forallb p sep = true ->
  Forall (fun t => forallb p t = true) chunks ->
  forallb p (join_tail sep chunks) = true.
Proof.
  intros Hsep H. induction H as [|x chunks Hx H IH]; [done|].
  simpl. by rewrite !forallb_app, Hsep, Hx, IH.
Qed.

Lemma chars_join (sep : str) (chunks : list str) :
  forallb p sep = true ->
  Forall (fun t => forallb p t = true) chunks ->
  forallb p (join sep chunks) = true.
Proof.
  intros Hsep H. destruct H as [|x chunks Hx H]; [done|].
  rewrite join_cons, forallb_app, Hx. by apply chars_join_tail.
Qed.

(** Every character of the text of an object is one of the encoder's own,
    or comes from a float or from a string. *)
Lemma chars_iterencode (o : pyobj) (level : nat) :
  all_strings q o = true ->
  forallb p (iterencode float_repr ensure_ascii indent level o) = true.
Proof.
  revert level.
  induction o as [|b|z|f|s|l IH|items IH] using pyobj_induction;
    intros level H.
  - by apply chars_printable.
  - destruct b; by apply chars_printable.
  - apply chars_int.
  - apply chars_floatstr.
  - by apply p_encoder.
  - destruct l as [|x xs]; [by apply chars_printable|].
    change (iterencode float_repr ensure_ascii indent level (PList (x :: xs)))
      with
      (py "[" ++ opening indent level
       ++ join (item_separator indent ++ opening indent level)
            (map (iterencode float_repr ensure_ascii indent (S level)) (x :: xs))
       ++ closing indent level ++ py "]").
    rewrite !forallb_app, chars_opening, chars_closing.
    rewrite !(chars_printable (py _)) by done.
    rewrite chars_join; [done|apply chars_separator|].
    apply Forall_fmap. cbn [all_strings] in H.
    rewrite forallb_forall in H. rewrite Forall_forall in IH.
    apply Forall_forall. intros y Hy. apply (IH y Hy).
    by apply H, list_elem_of_In.
  - destruct items as [|x xs]; [by apply chars_printable|].
    change (iterencode float_repr ensure_ascii indent level (PDict (x :: xs)))
      with
      (py "{" ++ opening indent level
       ++ join (item_separator indent ++ opening indent level)
            (map (fun kv => encoder ensure_ascii (fst kv) ++ key_separator
                            ++ iterencode float_repr ensure_ascii indent
                                 (S level) (snd kv)) (x :: xs))
       ++ closing indent level ++ py "}").
    rewrite !forallb_app, chars_opening, chars_closing.
    rewrite !(chars_printable (py _)) by done.
    rewrite chars_join; [done|apply chars_separator|].
    apply Forall_fmap. cbn [all_strings] in H.
    rewrite forallb_forall in H. rewrite Forall_forall in IH.
    apply Forall_forall. intros y Hy. unfold compose. cbv beta.
    destruct (andb_prop _ _ (H y (proj1 (list_elem_of_In _ _) Hy))) as [Hk Hv].
    rewrite !forallb_app, (p_encoder _ Hk), (IH y Hy _ Hv).
    by rewrite (chars_printable key_separator).
Qed.

End EncoderChars.

Section PrintableFacts.

Import Json.

Lemma hex_digit_printable (d : N) :
  d < 16 -> is_printable (hex_digit d) = true.
Proof.
  intros H. unfold hex_digit, is_printable.
  destruct (N.ltb_spec d 10); apply andb_true_intro; split; apply N.leb_le; lia.
Qed.

Lemma u_escape_printable (n : N) : printable (u_escape n) = true.
Proof.
  unfold u_escape, hex4, printable. cbn [forallb].
  rewrite !hex_digit_printable by (by apply N.mod_lt). done.
Qed.

Lemma ESCAPE_DCT_printable (c : N) (e : str) :
  ESCAPE_DCT c = Some e -> printable e = true.
Proof.
  unfold ESCAPE_DCT.
  repeat (destruct (_ =? _); [by intros [= <-]|]).
  destruct (c <? 32); [|done]. intros [= <-]. apply u_escape_printable.
Qed.

Lemma escape_char_ascii_printable (c : N) :
  printable (escape_char_ascii c) = true.
Proof.
  unfold escape_char_ascii.
  destruct ((c =? backslash) || (c =? quote)
            || negb ((32 <=? c) && (c <=? 126))) eqn:E.
  - destruct (ESCAPE_DCT c) as [e|] eqn:D; [by eapply ESCAPE_DCT_printable|].
    destruct (c <? 65536); [apply u_escape_printable|].
    unfold printable. by rewrite forallb_app, !u_escape_printable.
  - apply orb_false_elim in E as [_ E]. apply negb_false_iff in E.
    unfold printable. simpl. by rewrite andb_true_r.
Qed.

(** With [ensure_ascii], the text of a string is printable ASCII. *)
Lemma encode_basestring_ascii_printable (s : str) :
  printable (encode_basestring_ascii s) = true.
Proof.
  unfold encode_basestring_ascii, printable. simpl.
  rewrite forallb_app. simpl. rewrite andb_true_r.
  induction s as [|c s IH]; [done|]. simpl.
  pose proof (escape_char_ascii_printable c) as Hc. unfold printable in Hc.
  by rewrite forallb_app, Hc, IH.
Qed.

Lemma all_strings_true (o : pyobj) : all_strings (fun _ => true) o = true.
Proof.
  induction o as [|b|z|f|s|l IH|items IH] using pyobj_induction; try done.
  - simpl. induction IH as [|x l Hx _ IHl]; [done|]. simpl. by rewrite Hx.
  - simpl. induction IH as [|x l Hx _ IHl]; [done|]. simpl. by rewrite Hx.
Qed.

Lemma printable_is_scalar (c : N) : is_printable c = true -> is_scalar c = true.
Proof.
  unfold is_printable, is_scalar. intros [_ H]%andb_prop.
  apply N.leb_le in H. destruct (N.ltb_spec c 55296); [done|lia].
Qed.

Lemma printable_encodable (s : str) : printable s = true -> encodable s = true.
Proof.
  induction s as [|c s IH]; [done|]. simpl. intros [Hc Hs]%andb_prop.
  by rewrite (printable_is_scalar _ Hc), IH.
Qed.

(** [json.dump(obj, f)] writes printable ASCII only, whatever the strings
    of the object. *)
Lemma dump_compact_printable (float_repr : spec_float -> str) (o : pyobj) :
  (forall f, is_finite f = true -> printable (float_repr f) = true) ->
  printable (dump_compact float_repr o) = true.
Proof.
  intros Hf. unfold dump_compact, printable.
  apply (chars_iterencode is_printable (fun _ => true)).
  - done.
  - intros H. by apply is_Some_None in H.
  - exact Hf.
  - intros s _. apply encode_basestring_ascii_printable.
  - apply all_strings_true.
Qed.

Lemma escape_char_encodable (c : N) :
  is_scalar c = true -> encodable (escape_char c) = true.
Proof.
  intros H. unfold escape_char.
  destruct (ESCAPE_DCT c) as [e|] eqn:D.
  - by eapply printable_encodable, ESCAPE_DCT_printable.
  - simpl. by rewrite H.
Qed.

Lemma encode_basestring_encodable (s : str) :
  encodable s = true -> encodable (encode_basestring s) = true.
Proof.
  intros H. unfold encode_basestring, encodable. simpl.
  rewrite forallb_app. simpl. rewrite andb_true_r.
  induction s as [|c s IH]; [done|]. simpl in *.
  apply andb_prop in H as [Hc Hs].
  rewrite forallb_app, (IH Hs), andb_true_r. by apply escape_char_encodable.
Qed.

Lemma jsonable_all_strings (o : pyobj) :
  jsonable o = all_strings encodable o.
Proof.
  induction o as [|b|z|f|s|l IH|items IH] using pyobj_induction; try done.
  - simpl. induction IH as [|x l Hx _ IHl]; [done|]. simpl. by rewrite Hx, IHl.
  - simpl. induction IH as [|x l Hx _ IHl]; [done|]. simpl. by rewrite Hx, IHl.
Qed.

(** [json.dump(obj, f, ensure_ascii=False, indent=2)] writes text that
    can be encoded when the strings of the object can. *)
Lemma dump_pretty_encodable (float_repr : spec_float -> str) (o : pyobj) :
  (forall f, is_finite f = true -> printable (float_repr f) = true) ->
  jsonable o = true ->
  encodable (dump_pretty float_repr o) = true.
Proof.
  intros Hf Hj. unfold dump_pretty, encodable.
  apply (chars_iterencode is_scalar encodable).
  - apply printable_is_scalar.
  - done.
  - intros f H. by apply printable_encodable, Hf.
  - intros s Hs. by apply encode_basestring_encodable.
  - by rewrite <- jsonable_all_strings.
Qed.

End PrintableFacts.

(** ** A run on valid text *)

Section ValidText.

Lemma strip_encodable (s : str) :
  encodable s = true -> encodable (strip s) = true.
Proof.
  intros H. unfold strip, rstrip, encodable.
  by apply rev_forallb, lstrip_forallb, rev_forallb, lstrip_forallb.
Qed.

Lemma fold_zip_field (l : list (str * str)) (d : row) (k : str) (c : cell) :
  fold_left (fun d kv => <[Some (fst kv) := CStr (snd kv)]> d) l d !! Some k
  = Some c ->
  (exists s, c = CStr s /\ s ∈ map snd l) \/ d !! Some k = Some c.
Proof.
  revert d. induction l as [|[k' s] l IH]; intros d; simpl; [by right|].
  intros H. destruct (IH _ H) as [(s' & -> & Hs)|H'].
  - left. exists s'. split; [done|]. by right.
  - destruct (decide (k' = k)) as [->|Hne].
    + rewrite lookup_insert_eq in H'. left. exists s.
      split; [congruence|by left].
    + rewrite lookup_insert_ne in H' by congruence. by right.
Qed.

Lemma combine_snd_field (h f : list str) (s : str) :
  s ∈ map snd (combine h f) -> s ∈ f.
Proof.
  revert f. induction h as [|x h IH]; intros [|y f]; simpl;
    try (intros H; by apply elem_of_nil in H).
  intros [-> | H]%elem_of_cons; [by left|right; by apply IH].
Qed.

(** A cell of a row under a column name is [None] or a field of the
    line. *)
Lemma make_row_field (fieldnames fields : list str) (k : str) (c : cell) :
  make_row fieldnames fields !! Some k = Some c ->
  c = CNone \/ exists s, c = CStr s /\ s ∈ fields.
Proof.
  assert (Hzip : dict_zip fieldnames fields !! Some k = Some c ->
                 exists s, c = CStr s /\ s ∈ fields).
  { unfold dict_zip. intros H.
    apply fold_zip_field in H as [(s & -> & Hs)|H].
    - exists s. split; [done|]. by eapply combine_snd_field.
    - by rewrite lookup_empty in H. }
  unfold make_row.
  destruct (length fieldnames <? length fields)%nat.
  - rewrite lookup_insert_ne by done. intros H. right. by apply Hzip.
  - destruct (length fields <? length fieldnames)%nat.
    + rewrite fold_restval. case_decide; [left; congruence|].
      intros Hc. right. by apply Hzip.
    + intros H. right. by apply Hzip.
Qed.

Lemma make_row_encodable (fieldnames fields : list str) :
  Forall (fun s => encodable s = true) fields ->
  encodable_row (make_row fieldnames fields).
Proof.
  intros H k c Hc. apply make_row_field in Hc as [->|(s & -> & Hs)];
    [by left|right]. exists s. split; [done|].
  rewrite Forall_forall in H. by apply H.
Qed.

Lemma DictReader_encodable (lines : list (list str)) :
  Forall (Forall (fun s => encodable s = true)) lines ->
  Forall encodable_row (DictReader lines).
Proof.
  intros H. apply Forall_lookup_2. intros i r Hi.
  apply DictReader_row in Hi as (h & rest & f & -> & Hf & _ & ->).
  apply make_row_encodable. apply Forall_cons in H as [_ H].
  rewrite Forall_forall in H. by apply H.
Qed.

Lemma encodable_row_get (r : row) (key : string) :
  encodable_row r -> jsonable (obj (get r key (CStr []))) = true.
Proof.
  intros Hr. unfold get.
  destruct (r !! Some (py key)) as [c|] eqn:E; [|done].
  by destruct (Hr _ _ E) as [->|(s & -> & Hs)].
Qed.

(** The strings of the record of such a row can be encoded. *)
Lemma make_rec_jsonable (rt : runtime) (r : row) (rec : pyobj) :
  encodable_row r -> make_rec rt r = Ok rec -> jsonable rec = true.
Proof.
  intros Hr H. apply make_rec_Ok in H
    as (atlas & title & text & lat & lon & G1 & G2 & G3 & Hlat & Hlon & ->).
  assert (Hs : forall key s, get r key (CStr []) = CStr s ->
                             encodable (strip s) = true).
  { intros key s G. apply strip_encodable.
    pose proof (encodable_row_get r key Hr) as J. by rewrite G in J. }
  assert (Hc : forall key v, coordinate rt r key = Ok v -> jsonable v = true).
  { intros key v Hv.
    by apply coordinate_Ok in Hv as [[_ ->]|(s & f & _ & _ & _ & ->)]. }
  pose proof (encodable_row_get r "AtlasNumber" Hr) as J1.
  rewrite G1 in J1.
  cbn [jsonable forallb fst snd].
  rewrite (Hc _ _ Hlat), (Hc _ _ Hlon), !encodable_row_get by done.
  rewrite (Hs _ _ G2), (Hs _ _ G3).
  unfold encodable at 2. rewrite forallb_app. fold (encodable (strip atlas)).
  rewrite (Hs _ _ G1). simpl in J1. rewrite J1. vm_compute. apply eq_refl.
Qed.

Lemma loop_jsonable (rt : runtime) (rows : list row)
  (acc records : list pyobj) :
  Forall encodable_row rows ->
  loop rt rows acc = inr records ->
  forallb jsonable acc = true ->
  forallb jsonable records = true.
Proof.
  intros Hrows. revert acc.
  induction Hrows as [|r rows Hr _ IH]; intros acc H Hacc; simpl in H.
  - by injection H as <-.
  - destruct (make_rec rt r) as [rec|e] eqn:E; [|done].
    apply (IH _ H). rewrite forallb_app, Hacc. simpl.
    by rewrite (make_rec_jsonable _ _ _ Hr E).
Qed.

Lemma split_forallb (p : N -> bool) (sep : N) (s : str) :
  forallb p s = true ->
  Forall (fun f => forallb p f = true) (Reference.split sep s).
Proof.
  induction s as [|c s IH]; simpl; [by repeat constructor|].
  intros [Hc Hs]%andb_prop. specialize (IH Hs).
  destruct (c =? sep); [by constructor|].
  destruct (Reference.split sep s) as [|f fs].
  - repeat constructor. simpl. by rewrite Hc.
  - apply Forall_cons in IH as [Hf Hfs]. constructor; [|done].
    simpl. by rewrite Hc.
Qed.

Lemma lines_forallb (p : N -> bool) (text : str) :
  forallb p text = true ->
  Forall (fun l => forallb p l = true) (Reference.lines text).
Proof.
  intros H. pose proof (split_forallb p 10 text H) as Hs.
  unfold Reference.lines.
  destruct (rev (Reference.split 10 text)) as [|[|c l] front] eqn:E;
    try done.
  apply List.Forall_rev in Hs. rewrite E in Hs.
  apply Forall_cons in Hs as [_ Hs]. by apply List.Forall_rev in Hs.
Qed.

(** The reference reader makes its fields of characters of the text. *)
Lemma reference_reader_keeps_encodable : reader_keeps_encodable Reference.rt.
Proof.
  intros text H. simpl. unfold Reference.csv_reader.
  destruct (existsb _ text); [constructor|]. simpl.
  apply Forall_fmap. pose proof (lines_forallb is_scalar text H) as Hl.
  eapply Forall_impl; [exact Hl|]. intros [|c l] Hcl; [constructor|].
  by apply split_forallb.
Qed.

(** The reference [repr] of a finite float is printable ASCII. *)
Lemma reference_repr_printable (f : spec_float) :
  is_finite f = true -> printable (Reference.float_repr f) = true.
Proof.
  intros H. apply float_repr_numeral in H.
  assert (Hd : forall n, printable (decimal n) = true).
  { intros n. apply (chars_digits is_printable); [done|apply decimal_digits]. }
  destruct H as [sign n [-> | ->]|sign n k [-> | ->]]; unfold printable;
    rewrite ?forallb_app; cbn [app forallb];
    rewrite ?forallb_app; fold (printable (decimal n));
    try fold (printable (decimal k)); rewrite ?Hd; done.
Qed.

End ValidText.

(** X15.  What the gzip stream is given is printable ASCII, on one line,
    whatever the input holds: the second [json.dump] escapes every other
    character. So this stream cannot fail to encode its text. *)
Theorem gzip_payload_is_printable_ascii
  (rt : runtime) (w w' : world) (records : list pyobj) :
  (forall f, is_finite f = true -> printable (float_repr rt f) = true) ->
  main rt w = Finished records w' ->
  exists payload,
    files w' !! ZIP = Some (GzipFile payload) /\ printable payload = true.
Proof.
  intros Hf H. exists (gzip_text rt records).
  split; [by apply main_Finished_files in H as [_ ?]|].
  by apply dump_compact_printable.
Qed.

Lemma gzip_payload_is_printable_ascii_witness :
  exists payload,
    files (Scenario.world_after (main Reference.rt accented)) !! ZIP
    = Some (GzipFile payload)
    /\ printable payload = true.
Proof.
  apply (gzip_payload_is_printable_ascii Reference.rt accented
           (Scenario.world_after (main Reference.rt accented))
           (Scenario.records_of (main Reference.rt accented))
           reference_repr_printable).
  vm_compute. apply eq_refl.
Defined.

(** X16.  On an input that is valid text no output stream fails to
    encode what it is given, when [repr] of a float is ASCII and the
    reader makes its fields of characters of the text.  So a run either
    writes both files whole, or raises with every file as it was, or is
    stopped by the operating system, which raises [OSError] on one of the
    two output files. *)
Theorem no_encoding_error_on_valid_text
  (rt : runtime) (w : world) (text : str) :
  (forall f, is_finite f = true -> printable (float_repr rt f) = true) ->
  reader_keeps_encodable rt ->
  read_text w INPUT = Ok text ->
  encodable text = true ->
  match main rt w with
  | Finished records w' =>
      files w' !! OUTPUT = Some (TextFile (plain_text rt records))
      /\ files w' !! ZIP = Some (GzipFile (gzip_text rt records))
  | Crashed e _ w' =>
      w' = w
      \/ (e = OSError
          /\ (output_access rt OUTPUT <> Granted
              \/ output_access rt ZIP <> Granted))
  end.
Proof.
  intros Hf Hreader Hread Htext.
  destruct (main rt w) as [records w'|e records w'] eqn:H;
    [exact (main_Finished_files _ _ _ _ H)|].
  apply main_Crashed_cases in H
    as [[-> _]|(text' & lines & R & C & L & W)]; [by left|].
  rewrite Hread in R. injection R as <-.
  specialize (Hreader text Htext). rewrite C in Hreader. simpl in Hreader.
  pose proof (loop_jsonable rt _ _ _ (DictReader_encodable _ Hreader) L eq_refl)
    as J.
  pose proof (dump_pretty_encodable _ (PList records) Hf J) as E1.
  pose proof (printable_encodable _
                (dump_compact_printable _ (PList records) Hf)) as E2.
  fold (plain_text rt records) in E1. fold (gzip_text rt records) in E2.
  right. destruct W as [W|(w1 & W1 & W2)].
  - apply write_stream_Some in W
      as [(-> & A & _)|[(-> & n & A & _)|(_ & E & _)]];
      [split; [done|]; left; by rewrite A..|congruence].
  - apply write_stream_Some in W2
      as [(-> & A & _)|[(-> & n & A & _)|(_ & E & _)]];
      [split; [done|]; right; by rewrite A..|congruence].
Qed.

Lemma no_encoding_error_on_valid_text_witness :
  match main (Reference.with_access ZIP (Interrupted 40)) accented with
  | Finished records w' =>
      files w' !! OUTPUT
      = Some (TextFile
                (plain_text (Reference.with_access ZIP (Interrupted 40))
                   records))
      /\ files w' !! ZIP
         = Some (GzipFile
                   (gzip_text (Reference.with_access ZIP (Interrupted 40))
                      records))
  | Crashed e _ w' =>
      w' = accented
      \/ (e = OSError
          /\ (output_access (Reference.with_access ZIP (Interrupted 40))
                OUTPUT <> Granted
              \/ output_access (Reference.with_access ZIP (Interrupted 40))
                   ZIP <> Granted))
  end.
Proof.
  apply (no_encoding_error_on_valid_text
           (Reference.with_access ZIP (Interrupted 40)) accented
           (Scenario.csv
              [Scenario.header;
               [py "71"; [67; 97; 102; 233; 32; 128512]; py "A marker.";
                py "1999"; py "30.5"; py "-97.25"; py "Austin"; py "Travis"]])
           reference_repr_printable reference_reader_keeps_encodable).
  - reflexivity.
  - vm_compute. apply eq_refl.
Defined.

(** The operating system stops the gzip stream after forty characters:
    the run raises [OSError]; the plain file is whole, with the accented
    title as it is, and the gzip file holds the forty characters. *)
Example interrupted_gzip_stream :
  exists records w',
    main (Reference.with_access ZIP (Interrupted 40)) accented
    = Crashed OSError records w'
    /\ files w' !! OUTPUT = Some (TextFile (plain_text Reference.rt records))
    /\ files w' !! ZIP
       = Some (GzipFile (take 40 (gzip_text Reference.rt records)))
    /\ stdout w' = [].
Proof.
  do 2 eexists. split; [vm_compute; apply eq_refl|].
  repeat split; vm_compute; apply eq_refl.
Qed.
